(** * nw: an NNTP article retriever (nw.go)

    A shallow embedding of the retrieval engine of [nw.go]
    ([getRecentArticles], [fetchArticle], [parseDate], the bookmark
    bookkeeping) together with the library functions it calls, and the
    properties of the engine stated over that embedding.

    Conventions.
    - A Go [string] is a sequence of bytes: [list ascii].
    - A Go [int] is a 64-bit two's complement integer (amd64, arm64): a [Z]
      in [[MinInt, MaxInt]]; every addition of the source is written with
      its wrap-around ([Int.add], [Int.sub], [Int.neg]).
    - The connection is the sequence of bytes the server delivers through
      the [bufio.Reader] of [getRecentArticles], and the commands written
      to it; standard error and the state file are logged in the same
      chronological [trace].
    - [time.Time] is the instant it denotes; the [time] package
      ([time.Now], [Time.AddDate], [time.Parse]), [filepath.Join] and
      the outcome of [os.WriteFile] are parameters of the model
      ([Env]). *)

From Stdlib Require Import ZArith List Ascii String Lia Bool Sorted.
From Stdlib Require DecimalString.
From stdpp Require Import gmap strings list sorting.

Local Open Scope Z_scope.

Abbreviation gostring := (list ascii) (only parsing).

(** A string literal of the source, as bytes. *)
Definition lit (s : string) : gostring := list_ascii_of_string s.
Arguments lit : simpl never.

Definition TAB : ascii := "009"%char.
Definition LF : ascii := "010"%char.
Definition CR : ascii := "013"%char.
Definition CRLF : gostring := [CR; LF].

(** The line [".\r\n"] that ends a multi-line response. *)
Definition terminator : gostring := "."%char :: CRLF.

(** ** Go's [int] *)

Module Int.

Definition MaxInt : Z := 2 ^ 63 - 1.
Definition MinInt : Z := - 2 ^ 63.

Definition in_range (z : Z) : Prop := MinInt <= z <= MaxInt.

Definition wrap (z : Z) : Z := (z + 2 ^ 63) mod 2 ^ 64 - 2 ^ 63.

Definition add (a b : Z) : Z := wrap (a + b).
Definition sub (a b : Z) : Z := wrap (a - b).
Definition neg (a : Z) : Z := wrap (- a).

End Int.

(** ** Package [strings] *)

Module GoStrings.

(** [strings.HasPrefix(s, prefix)] *)
Fixpoint HasPrefix (s pre : gostring) {struct pre} : bool :=
  match pre, s with
  | [], _ => true
  | _ :: _, [] => false
  | p :: pre', c :: s' => Ascii.eqb c p && HasPrefix s' pre'
  end.

Arguments HasPrefix : simpl never.

(** [strings.Split(s, sep)] for a separator of one byte. The result is
    never empty: a string without the separator is its only field. *)
Fixpoint Split (s : gostring) (sep : ascii) : list gostring :=
  match s with
  | [] => [[]]
  | c :: s' =>
      if Ascii.eqb c sep then [] :: Split s' sep
      else match Split s' sep with
           | f :: fs => (c :: f) :: fs
           | [] => [[c]]
           end
  end.

(** [strings.Index(s, substr)]: the first position of [substr], or -1. *)
Fixpoint Index (s sub : gostring) : Z :=
  if HasPrefix s sub then 0
  else match s with
       | [] => -1
       | _ :: s' => let i := Index s' sub in if i <? 0 then -1 else i + 1
       end.

(** UTF-8 encoding of a code point below U+10000. *)
Definition utf8 (cp : N) : gostring :=
  let b (n : N) := ascii_of_N n in
  if (cp <? 128)%N then [b cp]
  else if (cp <? 2048)%N then [b (192 + cp / 64); b (128 + cp mod 64)]%N
  else [b (224 + cp / 4096); b (128 + (cp / 64) mod 64); b (128 + cp mod 64)]%N.

(** The code points of [unicode.White_Space], which [unicode.IsSpace]
    tests: U+0009..U+000D, U+0020, U+0085, U+00A0, U+1680,
    U+2000..U+200A, U+2028, U+2029, U+202F, U+205F, U+3000. *)
Definition White_Space : list N :=
  [9; 10; 11; 12; 13; 32; 133; 160; 5760;
   8192; 8193; 8194; 8195; 8196; 8197; 8198; 8199; 8200; 8201; 8202;
   8232; 8233; 8239; 8287; 12288]%N.

(** Width in bytes of the white space rune that [s] starts with. A
    white space rune is decoded exactly where its (shortest) encoding
    stands: its first byte is never a continuation byte, so no other
    rune of the decoder overlaps it. *)
Definition space_width (s : gostring) : option nat :=
  length <$> List.find (HasPrefix s) (utf8 <$> White_Space).

(** Width of the white space rune that [s] ends with. *)
Definition space_width_end (s : gostring) : option nat :=
  length <$> List.find (fun p => HasPrefix (rev s) (rev p)) (utf8 <$> White_Space).

Fixpoint trim_left (n : nat) (s : gostring) : gostring :=
  match n with
  | O => s
  | S n' => match space_width s with
            | Some k => trim_left n' (drop k s)
            | None => s
            end
  end.

Fixpoint trim_right (n : nat) (s : gostring) : gostring :=
  match n with
  | O => s
  | S n' => match space_width_end s with
            | Some k => trim_right n' (take (length s - k) s)
            | None => s
            end
  end.

(** [strings.TrimSpace(s)]: leading, then trailing white space runes
    are removed; each removal takes at least one byte, so [length s]
    rounds reach the fixed point. *)
Definition TrimSpace (s : gostring) : gostring :=
  let s1 := trim_left (length s) s in trim_right (length s1) s1.

(** [strings.Fields(s)]: the maximal runs of bytes between white space
    runes. [cur] is the field being read, [n] bounds the rounds. *)
Fixpoint fields (n : nat) (s cur : gostring) : list gostring :=
  let flush := match cur with [] => [] | _ => [cur] end in
  match n with
  | O => flush
  | S n' =>
      match space_width s with
      | Some k => flush ++ fields n' (drop k s) []
      | None => match s with
                | [] => flush
                | c :: s' => fields n' s' (cur ++ [c])
                end
      end
  end.

Definition Fields (s : gostring) : list gostring := fields (S (length s)) s [].

End GoStrings.

(** ** Package [strconv] *)

Module Strconv.

Definition digit (c : ascii) : option Z :=
  let n := Z.of_N (N_of_ascii c) in
  if (48 <=? n) && (n <=? 57) then Some (n - 48) else None.

Fixpoint digits (acc : Z) (s : gostring) : option Z :=
  match s with
  | [] => Some acc
  | c :: s' => match digit c with
               | Some d => digits (10 * acc + d) s'
               | None => None
               end
  end.

(** [strconv.Atoi(s)]: an optional sign and one or more decimal digits,
    of a value that fits [int]; [None] stands for a non-nil [err]
    (syntax or range). *)
Definition Atoi (s : gostring) : option Z :=
  let '(negative, ds) :=
    match s with
    | c :: t => if Ascii.eqb c "-" then (true, t)
                else if Ascii.eqb c "+" then (false, t) else (false, s)
    | [] => (false, s)
    end in
  match ds with
  | [] => None
  | _ => match digits 0 ds with
         | Some n =>
             let v := if negative then - n else n in
             if (Int.MinInt <=? v) && (v <=? Int.MaxInt) then Some v else None
         | None => None
         end
  end.

(** The decimal text of [%d]. *)
Definition Itoa (z : Z) : gostring :=
  lit (DecimalString.NilZero.string_of_int (Z.to_int z)).

End Strconv.

(** ** The bookmark table *)

(** [time.Time], as the instant it denotes (nanoseconds since the epoch). *)
Abbreviation Time := Z (only parsing).

(** [type GroupState struct] *)
Record GroupState := {
  LastArticle : Z;
  LastFetch : Time;
}.

(** ** What the engine writes and reports *)

(** The commands [fmt.Fprintf(conn, ...)] writes. *)
Inductive Command :=
| GROUP (group : gostring)
| XOVER (batchStart batchEnd : Z)
| ARTICLE (articleNum : gostring).

(** The bytes of a command on the wire. *)
Definition wire (c : Command) : gostring :=
  match c with
  | GROUP group => lit "GROUP " ++ group ++ CRLF
  | XOVER batchStart batchEnd =>
      lit "XOVER " ++ Strconv.Itoa batchStart ++ lit "-" ++ Strconv.Itoa batchEnd ++ CRLF
  | ARTICLE articleNum => lit "ARTICLE " ++ articleNum ++ CRLF
  end.

(** The errors [fmt.Errorf] builds, by call site, with the text they
    quote. The [%v] of a read error is left out. *)
Inductive Error :=
| GroupCommandFailed                    (* "group command failed: %v" *)
| GroupSelectionFailed (response : gostring)  (* "group selection failed: %s" *)
| InvalidGroupResponse (response : gostring)  (* "invalid group response: %s" *)
| InvalidFirstArticle                   (* "invalid first article: %v" *)
| InvalidLastArticle                    (* "invalid last article: %v" *)
| XoverHeaderReadFailed                 (* "xover header read failed: %v" *)
| XoverCommandFailed (xoverHeader : gostring) (* "xover command failed: %s" *)
| XoverReadFailed                       (* "xover read failed: %v" *)
| NoArticlesFound                       (* "no articles found matching criteria" *)
| FetchFailed (articleNum : gostring)   (* "failed to fetch article %s: %v" *)
| ArticleUnavailable (articleNum response : gostring) (* "article %s unavailable: %s" *)
| ArticleReadError (articleNum : gostring)    (* "error reading article %s: %v" *)
| StateWriteFailed.                     (* "failed to write state file: %v" *)

(** The lines written to [os.Stderr]. *)
Inductive Diag :=
| NoNewArticles (lastArticle : Z)       (* "No new articles available since last fetch ..." *)
| Resuming (first lastArticle : Z)      (* "Resuming from article %d (last fetched was %d)" *)
| Warning (err : Error)                 (* "Warning: %v" *)
| WarningSaveState (err : Error).       (* "Warning: failed to save state: %v" *)

Inductive Event :=
| Send (c : Command)                    (* written to the connection *)
| Stderr (d : Diag)                     (* written to standard error *)
| WriteFile (path : gostring) (data : gmap gostring GroupState) (ok : bool).
                                        (* [os.WriteFile] and whether it succeeded *)

(** ** [bufio.Reader] *)

(** The reader over the connection: the complete lines still to come,
    each with its final LF, and the bytes after the last LF, which a
    read meets together with the end of the stream. *)
Record Reader := {
  lines : list gostring;
  partial : gostring;
}.

(** [bufio.NewReader(conn)] over the bytes the connection delivers. *)
Fixpoint NewReader (bytes : gostring) : Reader :=
  match bytes with
  | [] => {| lines := []; partial := [] |}
  | c :: bytes' =>
      let r := NewReader bytes' in
      if Ascii.eqb c LF then {| lines := [c] :: lines r; partial := partial r |}
      else match lines r with
           | l :: ls => {| lines := (c :: l) :: ls; partial := partial r |}
           | [] => {| lines := []; partial := c :: partial r |}
           end
  end.

(** ** The environment *)

(** What the run takes from outside the program. *)
Record Env := {
  (** [time.Now()], by the number of calls before this one *)
  time_Now : nat -> Time;
  (** [t.AddDate(years, months, days)] *)
  time_AddDate : Time -> Z -> Z -> Z -> Time;
  (** [time.Parse(layout, value)]; [None] is a non-nil error *)
  time_Parse : gostring -> gostring -> option Time;
  (** whether [os.WriteFile] succeeds, by the number of calls before *)
  os_WriteFile : nat -> bool;
  (** [filepath.Join(elem1, elem2)] *)
  filepath_Join : gostring -> gostring -> gostring;
}.

(** [t.Before(u)] *)
Definition Before (t u : Time) : bool := t <? u.

(** ** The state of a run *)

(** The table [state] of a world is a map: the one the program makes
    (line 24), with what [json.Unmarshal] put in it. The nil table that
    a state file holding [null] leaves is dealt with in [main]. *)
Record World := {
  reader : Reader;                      (* [reader], over [conn] *)
  trace : list Event;                   (* effects so far, oldest first *)
  state : gmap gostring GroupState;     (* [var state] *)
  clock : nat;                          (* calls of [time.Now] so far *)
  writes : nat;                         (* calls of [os.WriteFile] so far *)
}.

(** What a call yields: Go's [(v, nil)], Go's [(_, err)], or [Exhausted]
    when a bounded loop of the model used up its bound (the bound of
    [getRecentArticles] is never used up, see [getRecentArticles_bound]). *)
Inductive Result (A : Type) :=
| Ok (a : A)
| Err (e : Error)
| Exhausted.
Arguments Ok {A} a.
Arguments Err {A} e.
Arguments Exhausted {A}.

Definition M (A : Type) : Type := World -> Result A * World.

Definition ret {A} (a : A) : M A := fun w => (Ok a, w).

Definition fail {A} (e : Error) : M A := fun w => (Err e, w).

Definition bind {A B} (m : M A) (k : A -> M B) : M B := fun w =>
  match m w with
  | (Ok a, w') => k a w'
  | (Err e, w') => (Err e, w')
  | (Exhausted, w') => (Exhausted, w')
  end.

Declare Scope go_scope.
Delimit Scope go_scope with go.
Notation "'let*' x ':=' m 'in' k" := (bind m (fun x => k))
  (at level 10, x pattern, m at level 100, k at level 200) : go_scope.
Notation "m ';;' k" := (bind m (fun _ => k))
  (at level 100, k at level 200, right associativity) : go_scope.
Local Open Scope go_scope.

Definition emit (e : Event) : M unit := fun w =>
  (Ok tt, {| reader := reader w; trace := trace w ++ [e]; state := state w;
             clock := clock w; writes := writes w |}).

(** [fmt.Fprintf(conn, ...)] *)
Definition Fprintf_conn (c : Command) : M unit := emit (Send c).

(** [fmt.Fprintf(os.Stderr, ...)] *)
Definition Fprintf_Stderr (d : Diag) : M unit := emit (Stderr d).

Definition set_reader (r : Reader) (w : World) : World :=
  {| reader := r; trace := trace w; state := state w;
     clock := clock w; writes := writes w |}.

(** [reader.ReadString('\n')]: the next line with its LF; at the end of
    the stream the bytes left and an error, [None] here, since every call
    site returns on the error without looking at the bytes. *)
Definition ReadString : M (option gostring) := fun w =>
  match lines (reader w) with
  | line :: ls => (Ok (Some line), set_reader {| lines := ls; partial := partial (reader w) |} w)
  | [] => (Ok None, set_reader {| lines := []; partial := [] |} w)
  end.

(** [time.Now()] *)
Definition Now (E : Env) : M Time := fun w =>
  (Ok (time_Now E (clock w)),
   {| reader := reader w; trace := trace w; state := state w;
      clock := S (clock w); writes := writes w |}).

(** [state[group] = v], for the table of a world, which is not nil *)
Definition state_store (group : gostring) (v : GroupState) : M unit := fun w =>
  (Ok tt, {| reader := reader w; trace := trace w; state := <[group := v]> (state w);
             clock := clock w; writes := writes w |}).

(** [saved, exists := state[group]] *)
Definition state_load (group : gostring) : M (option GroupState) := fun w =>
  (Ok (state w !! group), w).

(** Go's [v, err := f()]: the error of [m] as a value. *)
Definition try {A} (m : M A) : M (Error + A) := fun w =>
  match m w with
  | (Ok a, w') => (Ok (inr a), w')
  | (Err e, w') => (Ok (inl e), w')
  | (Exhausted, w') => (Exhausted, w')
  end.

(** The loop
<<
    for {
        line, err := reader.ReadString('\n')
        if err != nil { return ... }
        body
    }
>>
    over the lines of a reader: [body line s] is [inl s'] when the
    iteration ends (or [continue]s) with the loop's variables at [s'], and
    [inr r] when it [break]s with [r]. [None]: a read failed. *)
Fixpoint for_lines {S R} (body : gostring -> S -> S + R) (ls : list gostring) (s : S)
  : option (R * list gostring) :=
  match ls with
  | [] => None
  | line :: ls' =>
      match body line s with
      | inl s' => for_lines body ls' s'
      | inr r => Some (r, ls')
      end
  end.

Definition forLines {S R} (body : gostring -> S -> S + R) (s : S) : M (option R) := fun w =>
  match for_lines body (lines (reader w)) s with
  | Some (r, ls') => (Ok (Some r), set_reader {| lines := ls'; partial := partial (reader w) |} w)
  | None => (Ok None, set_reader {| lines := []; partial := [] |} w)
  end.

(** ** nw.go *)

(** [getStateFileName] *)
Definition getStateFileName (group : gostring) : gostring := group ++ lit ".json".

(** [saveState]: the whole table goes to the file of the group, in
    the current directory. *)
Definition saveState (E : Env) (group : gostring) : M unit := fun w =>
  let stateFileName := getStateFileName group in
  let path := filepath_Join E (lit ".") stateFileName in
  let w1 := {| reader := reader w; trace := trace w; state := state w;
               clock := clock w; writes := S (writes w) |} in
  let ok := os_WriteFile E (writes w) in
  (emit (WriteFile path (state w) ok) ;;
   if ok then ret tt else fail StateWriteFailed) w1.

(** [parseDate] *)
Definition parseDate (E : Env) (dateStr : gostring) : option Time :=
  let dateStr := GoStrings.TrimSpace dateStr in
  let idx := GoStrings.Index dateStr (lit " (") in
  let dateStr := if idx >? 0 then take (Z.to_nat idx) dateStr else dateStr in
  time_Parse E (lit "Mon, 2 Jan 2006 15:04:05 -0700") dateStr.

(** [fetchArticle], the body of its loop (lines 254-260): the builder
    [article] takes the line, without its first byte when it starts
    with two dots. *)
Definition articleLine (line : gostring) (article : gostring) : gostring + gostring :=
  if decide (line = terminator) then inr article
  else
    let line := if GoStrings.HasPrefix line (lit "..") then drop 1 line else line in
    inl (article ++ line).

(** [fetchArticle] *)
Definition fetchArticle (articleNum : gostring) : M gostring :=
  Fprintf_conn (ARTICLE articleNum) ;;
  let* response := ReadString in
  match response with
  | None => fail (FetchFailed articleNum)
  | Some response =>
      if negb (GoStrings.HasPrefix response (lit "220 "))
      then fail (ArticleUnavailable articleNum (GoStrings.TrimSpace response))
      else
        let* article := forLines articleLine response in
        match article with
        | None => fail (ArticleReadError articleNum)
        | Some article => ret (article ++ terminator)
        end
  end.

(** [getRecentArticles], the body of the listing loop (lines 189-204). *)
Definition listingLine (E : Env) (days : Z) (cutoff : Time)
    (line : gostring) (articleNumbers : list gostring) : list gostring + list gostring :=
  if decide (line = terminator) then inr articleNumbers
  else
    let fields := GoStrings.Split line TAB in
    if Z.of_nat (length fields) <? 8 then inl articleNumbers
    else if (days >? 0) &&
            match parseDate E (nth 3 fields []) with
            | None => true
            | Some date => Before date cutoff
            end
    then inl articleNumbers
    else inl (articleNumbers ++ [nth 0 fields []]).

(** [getRecentArticles], the loop over [articleNumbers] (lines 207-214). *)
Fixpoint fetchArticles (articleNumbers : list gostring) (articles : list gostring)
  : M (list gostring) :=
  match articleNumbers with
  | [] => ret articles
  | num :: articleNumbers' =>
      let* r := try (fetchArticle num) in
      match r with
      | inl err => Fprintf_Stderr (Warning err) ;; fetchArticles articleNumbers' articles
      | inr article => fetchArticles articleNumbers' (articles ++ [article])
      end
  end.

(** [getRecentArticles], the bookmark after a batch (lines 216-224). *)
Definition bookmark (E : Env) (group : gostring) (useLatest : bool) (first batchEnd : Z)
  : M unit :=
  if useLatest && (batchEnd >? first) then
    let* now := Now E in
    state_store group {| LastArticle := batchEnd; LastFetch := now |} ;;
    let* r := try (saveState E group) in
    match r with
    | inl err => Fprintf_Stderr (WarningSaveState err)
    | inr _ => ret tt
    end
  else ret tt.

(** [getRecentArticles], one round of the loop over the batches, from
    the XOVER command to the bookmark (lines 174-224). *)
Definition batch (E : Env) (group : gostring) (days : Z) (useLatest : bool)
    (first : Z) (cutoff : Time) (batchStart batchEnd : Z) (articles : list gostring)
  : M (list gostring) :=
  Fprintf_conn (XOVER batchStart batchEnd) ;;
  let* xoverHeader := ReadString in
  match xoverHeader with
  | None => fail XoverHeaderReadFailed
  | Some xoverHeader =>
      if negb (GoStrings.HasPrefix xoverHeader (lit "224 "))
      then fail (XoverCommandFailed (GoStrings.TrimSpace xoverHeader))
      else
        let* articleNumbers := forLines (listingLine E days cutoff) [] in
        match articleNumbers with
        | None => fail XoverReadFailed
        | Some articleNumbers =>
            let* articles := fetchArticles articleNumbers articles in
            bookmark E group useLatest first batchEnd ;;
            ret articles
        end
  end.

(** [batchEnd] of the batch that starts at [batchStart] (lines 169-172). *)
Definition batchEndOf (maxBatchSize last batchStart : Z) : Z :=
  let batchEnd := Int.sub (Int.add batchStart maxBatchSize) 1 in
  if batchEnd >? last then last else batchEnd.

(** [getRecentArticles], the loop [for batchStart <= last] (lines
    168-227), for at most [n] rounds. *)
Fixpoint batches (n : nat) (E : Env) (group : gostring) (days : Z) (useLatest : bool)
    (maxBatchSize first last : Z) (cutoff : Time) (batchStart : Z)
    (articles : list gostring) : M (list gostring) :=
  if batchStart <=? last then
    match n with
    | O => fun w => (Exhausted, w)
    | S n' =>
        let batchEnd := batchEndOf maxBatchSize last batchStart in
        let* articles := batch E group days useLatest first cutoff batchStart batchEnd articles in
        batches n' E group days useLatest maxBatchSize first last cutoff
                (Int.add batchEnd 1) articles
    end
  else ret articles.

(** [getRecentArticles], the GROUP exchange (lines 128-149). *)
Definition selectGroup (group : gostring) : M (Z * Z) :=
  Fprintf_conn (GROUP group) ;;
  let* response := ReadString in
  match response with
  | None => fail GroupCommandFailed
  | Some response =>
      if negb (GoStrings.HasPrefix response (lit "211 "))
      then fail (GroupSelectionFailed (GoStrings.TrimSpace response))
      else
        let parts := GoStrings.Fields response in
        if Z.of_nat (length parts) <? 4
        then fail (InvalidGroupResponse (GoStrings.TrimSpace response))
        else
          match Strconv.Atoi (nth 2 parts []) with
          | None => fail InvalidFirstArticle
          | Some first =>
              match Strconv.Atoi (nth 3 parts []) with
              | None => fail InvalidLastArticle
              | Some last => ret (first, last)
              end
          end
  end.

(** [getRecentArticles], the resume adjustment (lines 151-162): [None]
    when the function returns at line 155, else the value of [first]
    after it. *)
Definition resume (group : gostring) (useLatest : bool) (first last : Z) : M (option Z) :=
  if useLatest then
    let* saved := state_load group in
    match saved with
    | Some saved =>
        if LastArticle saved >=? last then
          Fprintf_Stderr (NoNewArticles (LastArticle saved)) ;; ret None
        else if (LastArticle saved >=? first) && (LastArticle saved <? last) then
          let first := Int.add (LastArticle saved) 1 in
          Fprintf_Stderr (Resuming first (LastArticle saved)) ;; ret (Some first)
        else ret (Some first)
    | None => ret (Some first)
    end
  else ret (Some first).

(** The bound of the loop over the batches: every round reads a line. *)
Definition rounds : M nat := fun w => (Ok (S (length (lines (reader w)))), w).

(** [getRecentArticles], from the cutoff to the end (lines 164-233). *)
Definition retrieve (E : Env) (group : gostring) (days : Z) (useLatest : bool)
    (maxBatchSize first last : Z) : M (list gostring) :=
  let* now := Now E in
  let cutoff := time_AddDate E now 0 0 (Int.neg days) in
  let batchStart := first in
  let* n := rounds in
  let* articles := batches n E group days useLatest maxBatchSize first last cutoff
                           batchStart [] in
  if Nat.eqb (length articles) 0 then fail NoArticlesFound else ret articles.

(** [getRecentArticles] *)
Definition getRecentArticles (E : Env) (group : gostring) (days : Z) (useLatest : bool)
    (maxBatchSize : Z) : M (list gostring) :=
  let* range := selectGroup group in
  let first := fst range in
  let last := snd range in
  let* first := resume group useLatest first last in
  match first with
  | None => ret []
  | Some first => retrieve E group days useLatest maxBatchSize first last
  end.

(** A run over the bytes [bytes] of the server, from the table [st]. *)
Definition start (bytes : gostring) (st : gmap gostring GroupState) : World :=
  {| reader := NewReader bytes; trace := []; state := st; clock := 0; writes := 0 |}.

(** ** Notions of the specification *)

(** Dot-unstuffing, as the protocol states it: a line that begins with
    two dots loses the first one; any other line is kept as it is. *)
Definition unstuff (line : gostring) : gostring :=
  match line with
  | "."%char :: ("."%char :: _) as line' => line'
  | _ => line
  end.

(** The first tab-delimited field of a listing line, as received. *)
Fixpoint first_field (line : gostring) : gostring :=
  match line with
  | [] => []
  | c :: line' => if Ascii.eqb c TAB then [] else c :: first_field line'
  end.

(** A listing line with at least 8 tab-delimited fields. *)
Definition well_formed (line : gostring) : bool :=
  8 <=? Z.of_nat (length (GoStrings.Split line TAB)).

(** Field 4 of a listing line, the date. *)
Definition date_field (line : gostring) : gostring := nth 3 (GoStrings.Split line TAB) [].

(** The part of [s] before its first [" ("]. *)
Fixpoint before_paren (s : gostring) : gostring :=
  if GoStrings.HasPrefix s (lit " (") then []
  else match s with
       | [] => []
       | c :: s' => c :: before_paren s'
       end.

(** The date of a listing line is read and is not before [cutoff]. *)
Definition recent (E : Env) (cutoff : Time) (line : gostring) : bool :=
  match time_Parse E (lit "Mon, 2 Jan 2006 15:04:05 -0700")
                   (before_paren (GoStrings.TrimSpace (date_field line))) with
  | Some date => negb (date <? cutoff)
  | None => false
  end.

(** The listing lines that survive: well formed and, under an age
    filter, recent. *)
Definition kept (E : Env) (days : Z) (cutoff : Time) (line : gostring) : bool :=
  well_formed line && ((days <=? 0) || recent E cutoff line).

(** The batches that tile [[first, last]] by [B], in ascending order:
    [[first, min(first+B-1, last)]], then from the next number on. *)
Fixpoint tile_from (n : nat) (B last batchStart : Z) : list (Z * Z) :=
  match n with
  | O => []
  | S n' =>
      if batchStart <=? last then
        let batchEnd := Z.min (batchStart + B - 1) last in
        (batchStart, batchEnd) :: tile_from n' B last (batchEnd + 1)
      else []
  end.

Definition tile (B first last : Z) : list (Z * Z) :=
  tile_from (Z.to_nat (last - first + 1)) B last first.

(** The arithmetic of the batch [[a, b]] stays within [int]: neither
    [a + B - 1] nor [b + 1] is above [MaxInt]. *)
Definition fits (B : Z) (batch : Z * Z) : Prop :=
  fst batch + B - 1 <= Int.MaxInt /\ snd batch < Int.MaxInt.

(** The arithmetic of every batch of the tiling stays within [int]. *)
Definition no_wrap (B first last : Z) : Prop := Forall (fits B) (tile B first last).


(** ** Reading a trace *)

(** The ranges of the XOVER commands, in order. *)
Definition xovers (t : list Event) : list (Z * Z) :=
  omap (fun e => match e with Send (XOVER a b) => Some (a, b) | _ => None end) t.

(** The article numbers of the ARTICLE commands, in order. *)
Definition requested (t : list Event) : list gostring :=
  omap (fun e => match e with Send (ARTICLE num) => Some num | _ => None end) t.

(** The errors reported as ["Warning: %v"], in order. *)
Definition warnings (t : list Event) : list Error :=
  omap (fun e => match e with Stderr (Warning err) => Some err | _ => None end) t.

(** The [last_article] of [group] in the tables handed to
    [os.WriteFile], with the outcome of the call, in order. *)
Definition saves (group : gostring) (t : list Event) : list (Z * bool) :=
  omap (fun e => match e with
                 | WriteFile _ data ok => (fun s => (LastArticle s, ok)) <$> data !! group
                 | _ => None
                 end) t.

(** The writes of the state file and their warnings. *)
Definition save_event (e : Event) : bool :=
  match e with
  | WriteFile _ _ _ | Stderr (WarningSaveState _) => true
  | _ => false
  end.

(** A trace without the writes of the state file and their warnings. *)
Definition without_saves (t : list Event) : list Event :=
  List.filter (fun e => negb (save_event e)) t.

(** The world after the reader moved to [r] and the events [evs]. *)
Definition advance (r : Reader) (evs : list Event) (w : World) : World :=
  {| reader := r; trace := trace w ++ evs; state := state w;
     clock := clock w; writes := writes w |}.

(** The reader of [w] with [ls] as the lines to come. *)
Definition at_lines (ls : list gostring) (w : World) : Reader :=
  {| lines := ls; partial := partial (reader w) |}.

(** The reader at the end of the stream, after a failed read. *)
Definition at_end : Reader := {| lines := []; partial := [] |}.

(** The events of the loop over the article numbers. *)
Definition fetch_event (e : Event) : bool :=
  match e with
  | Send (ARTICLE _) | Stderr (Warning _) => true
  | _ => false
  end.

(** The errors that end the run from inside the loop over the batches. *)
Definition fatal (e : Error) : Prop :=
  e = XoverHeaderReadFailed \/ (exists h, e = XoverCommandFailed h) \/ e = XoverReadFailed.

(** [bs] are the ranges of consecutive rounds of the loop over the
    batches, the first of them starting at [batchStart]. *)
Fixpoint chain (B last batchStart : Z) (bs : list (Z * Z)) : Prop :=
  match bs with
  | [] => True
  | (a, b) :: bs' =>
      a = batchStart /\ batchStart <= last /\ b = batchEndOf B last batchStart /\
      chain B last (Int.add b 1) bs'
  end.

(** [batchStart] after the rounds [bs]. *)
Fixpoint next_start (batchStart : Z) (bs : list (Z * Z)) : Z :=
  match bs with
  | [] => batchStart
  | (_, b) :: bs' => next_start (Int.add b 1) bs'
  end.

(** The condition of line 216. *)
Definition persists (useLatest : bool) (first batchEnd : Z) : bool :=
  useLatest && (batchEnd >? first).

(** The world after the bookmark of a batch that ends at [batchEnd] was
    put in the table and the table handed to [os.WriteFile]. *)
Definition bookmarked (E : Env) (group : gostring) (batchEnd : Z) (w : World) : World :=
  let st := <[group := {| LastArticle := batchEnd; LastFetch := time_Now E (clock w) |}]>
              (state w) in
  let ok := os_WriteFile E (writes w) in
  {| reader := reader w;
     trace := trace w ++ WriteFile (filepath_Join E (lit ".") (getStateFileName group)) st ok ::
                         (if ok then [] else [Stderr (WarningSaveState StateWriteFailed)]);
     state := st; clock := S (clock w); writes := S (writes w) |}.

(** What a call of [os.WriteFile] leaves in the trace: the call, and
    the warning when it failed. *)
Definition write_record (e : Event) : list Event :=
  match e with
  | WriteFile _ _ false => [e; Stderr (WarningSaveState StateWriteFailed)]
  | _ => [e]
  end.

Definition write_call (e : Event) : bool :=
  match e with WriteFile _ _ _ => true | _ => false end.

(** Every failed write of the state file is followed by its warning,
    and there is no other warning about the state file. *)
Definition logged (t : list Event) : Prop :=
  List.filter save_event t = flat_map write_record (List.filter write_call t).

(** The run ended inside a round of the loop over the batches. *)
Definition aborted {A} (res : Result A) : bool :=
  match res with
  | Err XoverHeaderReadFailed | Err (XoverCommandFailed _) | Err XoverReadFailed => true
  | _ => false
  end.

(** The batches whose round went to its end, among the ranges [bs] of
    the XOVER commands of a run that ended with [res]. *)
Definition completed {A} (res : Result A) (bs : list (Z * Z)) : list (Z * Z) :=
  if aborted res then removelast bs else bs.

(** The environment [E] with [f] as the outcomes of [os.WriteFile]. *)
Definition with_writes (f : nat -> bool) (E : Env) : Env :=
  {| time_Now := time_Now E; time_AddDate := time_AddDate E;
     time_Parse := time_Parse E; os_WriteFile := f;
     filepath_Join := filepath_Join E |}.

(** What a run shows apart from the state file: the reader, the table
    in memory, the clock and the trace without the writes of the file
    and their warnings. *)
Definition view (w : World) : Reader * gmap gostring GroupState * nat * list Event :=
  (reader w, state w, clock w, without_saves (trace w)).

(** Two computations give the same result and the same [view] from
    worlds of the same [view]. *)
Definition Rel {A} (m1 m2 : M A) : Prop :=
  forall w1 w2, view w1 = view w2 ->
    fst (m1 w1) = fst (m2 w2) /\ view (snd (m1 w1)) = view (snd (m2 w2)).

(** ** An environment and streams for the examples *)

(** A day, in nanoseconds. *)
Definition day : Z := 86400 * 10 ^ 9.

(** The clock stands at 13 Jan 1970 00:00 UTC, a calendar day is [day],
    two dates are read, the state file can be written, and the names
    of the state files are plain file names, which [filepath.Join]
    with ["."] leaves as they are. *)
Definition example_env : Env :=
  {| time_Now := fun _ => 12 * day;
     time_AddDate := fun t _ _ days => t + days * day;
     time_Parse := fun _ value =>
       if decide (value = lit "Thu, 1 Jan 1970 00:00:00 +0000") then Some 0
       else if decide (value = lit "Sun, 11 Jan 1970 00:00:00 +0000") then Some (10 * day)
       else None;
     os_WriteFile := fun _ => true;
     filepath_Join := fun _ name => name |}.

(** A line of text with CRLF, and with a bare LF. *)
Definition crlf (s : string) : gostring := lit s ++ CRLF.
Definition lf (s : string) : gostring := lit s ++ [LF].

(** A listing line: the fields, tab-delimited, and the end of line. *)
Fixpoint tabbed (eol : gostring) (fields : list string) : gostring :=
  match fields with
  | [] => eol
  | [f] => lit f ++ eol
  | f :: fields' => lit f ++ TAB :: tabbed eol fields'
  end.

(** The response to XOVER for a range without articles. *)
Definition empty_listing : gostring := crlf "224 Overview information follows" ++ crlf ".".

(** ** Notions for whole runs *)

(** The commands written to the connection, in order. *)
Definition sends (t : list Event) : list Command :=
  omap (fun e => match e with Send c => Some c | _ => None end) t.

(** The calls of [os.WriteFile]: file name, table and outcome. *)
Definition write_calls (t : list Event)
  : list (gostring * gmap gostring GroupState * bool) :=
  omap (fun e => match e with WriteFile name data ok => Some (name, data, ok) | _ => None end) t.

(** An article as the output carries it: it starts with its status
    line ["220 ..."] and ends with the line [".\r\n"]. *)
Definition delimited (article : gostring) : Prop :=
  GoStrings.HasPrefix article (lit "220 ") = true /\
  exists text, article = text ++ terminator.

(** A line as [ReadString] returns it: one LF, at the end. *)
Definition line_ok (line : gostring) : Prop :=
  exists t, line = t ++ [LF] /\ LF ∉ t.

(** The events of a run that has nothing to do with the bookmark: the
    commands and the warnings about articles. *)
Definition plain_event (e : Event) : bool :=
  match e with
  | Send _ | Stderr (Warning _) => true
  | _ => false
  end.

(** The world after a call of [time.Now]. *)
Definition tick (w : World) : World :=
  {| reader := reader w; trace := trace w; state := state w;
     clock := S (clock w); writes := writes w |}.

(** The rounds of the loop over the batches (lines 168-227) from
    [batchStart], the articles so far and a world, to the result of the
    loop: the loop ends when [batchStart] is above [last], a round that
    fails ends the run, and a round that succeeds is followed by the
    rounds from [batchEnd + 1]. *)
Inductive Rounds (E : Env) (group : gostring) (days : Z) (useLatest : bool)
    (B first last : Z) (cutoff : Time)
  : Z -> list gostring -> World -> Result (list gostring) -> World -> Prop :=
| Rounds_end (s : Z) (articles : list gostring) (w : World) :
    last < s ->
    Rounds E group days useLatest B first last cutoff s articles w (Ok articles) w
| Rounds_abort (s : Z) (articles : list gostring) (w : World) (err : Error) (w1 : World) :
    s <= last ->
    batch E group days useLatest first cutoff s (batchEndOf B last s) articles w
    = (Err err, w1) ->
    Rounds E group days useLatest B first last cutoff s articles w (Err err) w1
| Rounds_next (s : Z) (articles : list gostring) (w : World)
    (articles1 : list gostring) (w1 : World) (res : Result (list gostring)) (w' : World) :
    s <= last ->
    batch E group days useLatest first cutoff s (batchEndOf B last s) articles w
    = (Ok articles1, w1) ->
    Rounds E group days useLatest B first last cutoff
           (Int.add (batchEndOf B last s) 1) articles1 w1 res w' ->
    Rounds E group days useLatest B first last cutoff s articles w res w'.

(** The end of [getRecentArticles] (lines 229-233). *)
Definition finish (res : Result (list gostring)) : Result (list gostring) :=
  match res with
  | Ok [] => Err NoArticlesFound
  | _ => res
  end.

(** The ranges and article numbers of the rounds, as commands. *)
Definition round_commands (r : Z * Z * list gostring) : list Command :=
  XOVER (fst (fst r)) (snd (fst r)) :: (ARTICLE <$> snd r).

(** A session for the examples: the group has the articles 1 and 2,
    the listing has a line for each, and both are sent. *)
Definition overview (num : string) : gostring :=
  tabbed CRLF [num; "subject"; "from"; "Sun, 11 Jan 1970 00:00:00 +0000"; "<id>"; ""; "120"; "3"].

Definition session : gostring :=
  crlf "211 2 1 2 g" ++
  crlf "224 Overview information follows" ++ overview "1" ++ overview "2" ++ crlf "." ++
  crlf "220 1 <1@b>" ++ crlf "text" ++ crlf "." ++
  crlf "220 2 <2@b>" ++ crlf "more" ++ crlf ".".

(** * The program around [getRecentArticles] *)

(** [tls.Config], the fields the program sets. *)
Record TLSConfig := {
  InsecureSkipVerify : bool;
  ServerName : gostring;
}.

(** The outcome of [os.ReadFile]: the file is not there
    ([os.IsNotExist]), another error, or the bytes of the file. *)
Inductive FileRead :=
| NotExist
| ReadFailed
| Contents (data : gostring).

(** The errors of [loadState], [dialNNTP] and [authenticateNNTP], by
    call site; an error handed on from a library call has no text of
    the program. *)
Inductive LoadError :=
| StateReadFailed                       (* "failed to read state file: %v" *)
| StateParseFailed.                     (* the error of [json.Unmarshal] *)

Inductive DialError :=
| ProxyConnectionFailed                 (* "proxy connection failed: %v" *)
| ProxyDialFailed                       (* "proxy dial failed: %v" *)
| DialFailed.                           (* the error of [tls.Dial] or [net.Dial] *)

Inductive AuthError :=
| AuthUserReadFailed                    (* "auth user read failed: %v" *)
| AuthUserFailed (response : gostring)  (* "auth user failed: %s" *)
| AuthPassReadFailed                    (* "auth pass read failed: %v" *)
| AuthPassFailed (response : gostring). (* "auth pass failed: %s" *)

(** The lines [main] and the functions it calls write to [os.Stderr]. *)
Inductive Message :=
| LoadWarning (err : LoadError)         (* "Warning: failed to load state: %v" *)
| ConnectionFailed (err : DialError)    (* "Connection failed: %v" *)
| TimeoutWarning                        (* "Warning: couldn't set timeout: %v" *)
| GreetingFailed                        (* "Server greeting failed: %v" *)
| AuthenticationFailed (err : AuthError) (* "Authentication failed: %v" *)
| Diagnostic (d : Diag)                 (* a line of [getRecentArticles] *)
| FatalError (err : Error)              (* "Error: %v" *)
| NilMapPanic.                          (* "panic: assignment to entry in nil map", by the runtime *)

(** What the program does that can be seen from outside, in order. *)
Inductive Step :=
| Wrote (bytes : gostring)              (* [fmt.Fprintf(conn, ...)] *)
| Said (m : Message)                    (* [fmt.Fprintf(os.Stderr, ...)] *)
| Stored (name : gostring) (data : gmap gostring GroupState) (ok : bool)
                                        (* [os.WriteFile] *)
| Printed (article : gostring)          (* [fmt.Print(article)] *)
| Closed.                               (* the deferred [conn.Close()] *)

(** An event of [getRecentArticles] as a step of the program. *)
Definition lift (e : Event) : Step :=
  match e with
  | Send c => Wrote (wire c)
  | Stderr d => Said (Diagnostic d)
  | WriteFile name data ok => Stored name data ok
  end.

(** The bytes written to the connection, and the articles printed. *)
Definition wrote (steps : list Step) : list gostring :=
  omap (fun s => match s with Wrote bytes => Some bytes | _ => None end) steps.

Definition printed (steps : list Step) : list gostring :=
  omap (fun s => match s with Printed article => Some article | _ => None end) steps.

(** The messages before [os.Exit(1)]. *)
Definition last_words (m : Message) : bool :=
  match m with
  | ConnectionFailed _ | GreetingFailed | AuthenticationFailed _ | FatalError _ => true
  | _ => false
  end.

(** The library calls of the program outside [getRecentArticles], for
    connections of type [Conn] and proxy dialers of type [Dialer]. A
    call that returns an error as well gives [None] for the error, or
    a boolean for success. *)
Record Sys (Conn Dialer : Type) := {
  (** [os.ReadFile(path)] *)
  os_ReadFile : gostring -> FileRead;
  (** [json.Unmarshal(data, &state)]: whether it succeeded, and the
      table it leaves; [None] is the nil table, which the JSON value
      [null] leaves *)
  json_Unmarshal : gostring -> gmap gostring GroupState
                   -> bool * option (gmap gostring GroupState);
  (** [proxy.SOCKS5(network, address, nil, proxy.Direct)] *)
  proxy_SOCKS5 : gostring -> gostring -> option Dialer;
  (** [dialer.Dial(network, address)] *)
  dialer_Dial : Dialer -> gostring -> gostring -> option Conn;
  (** [tls.Client(conn, config)] *)
  tls_Client : Conn -> TLSConfig -> Conn;
  (** [tls.Dial(network, address, config)] *)
  tls_Dial : gostring -> gostring -> TLSConfig -> option Conn;
  (** [net.Dial(network, address)] *)
  net_Dial : gostring -> gostring -> option Conn;
  (** [t.Add(d)] *)
  time_Add : Time -> Z -> Time;
  (** [conn.SetReadDeadline(t)]: whether it succeeded, and the
      connection with the deadline *)
  conn_SetReadDeadline : Conn -> Time -> bool * Conn;
  (** [bufio.NewReader(conn).ReadString('\n')]: the line read by a
      reader of its own, [None] for an error, and the connection
      without the bytes that reader took from it *)
  fresh_ReadString : Conn -> option gostring * Conn;
  (** the bytes the connection delivers from now on to one reader *)
  pending : Conn -> gostring;
}.

Arguments os_ReadFile {Conn Dialer}.
Arguments json_Unmarshal {Conn Dialer}.
Arguments proxy_SOCKS5 {Conn Dialer}.
Arguments dialer_Dial {Conn Dialer}.
Arguments tls_Client {Conn Dialer}.
Arguments tls_Dial {Conn Dialer}.
Arguments net_Dial {Conn Dialer}.
Arguments time_Add {Conn Dialer}.
Arguments conn_SetReadDeadline {Conn Dialer}.
Arguments fresh_ReadString {Conn Dialer}.
Arguments pending {Conn Dialer}.

(** The flags of the command line, after [flag.Parse]. *)
Module Flag.

Record t := {
  server : gostring;
  port : Z;
  group : gostring;
  days : Z;
  username : gostring;
  password : gostring;
  useTLS : bool;
  proxyAddr : gostring;
  latest : bool;
  maxBatchSize : Z;
  readTimeout : Z;
}.

End Flag.

(** [time.Second], in nanoseconds. *)
Definition Second : Z := 10 ^ 9.

(** The commands of [authenticateNNTP] and the last line of [main]. *)
Definition AUTHINFO_USER (username : gostring) : gostring :=
  lit "AUTHINFO USER " ++ username ++ CRLF.

Definition AUTHINFO_PASS (password : gostring) : gostring :=
  lit "AUTHINFO PASS " ++ password ++ CRLF.

Definition QUIT : gostring := lit "QUIT" ++ CRLF.

(** The events before the first call of [os.WriteFile], when there is
    one. *)
Fixpoint before_first_write (t : list Event) : option (list Event) :=
  match t with
  | [] => None
  | WriteFile _ _ _ :: _ => Some []
  | e :: t' => cons e <$> before_first_write t'
  end.

(** A step before the program is through: it prints nothing, does not
    close the connection and does not send QUIT. *)
Definition unfinished (s : Step) : Prop :=
  match s with
  | Printed _ | Closed => False
  | Wrote bytes => bytes <> QUIT
  | _ => True
  end.

Section Program.

Context {Conn Dialer : Type} (sys : Sys Conn Dialer) (E : Env).

(** [loadState]: the error, and the table after the call, [None] for
    the nil table. *)
Definition loadState (group : gostring) (state : gmap gostring GroupState)
  : option LoadError * option (gmap gostring GroupState) :=
  let stateFileName := getStateFileName group in
  let path := filepath_Join E (lit ".") stateFileName in
  match os_ReadFile sys path with
  | NotExist => (None, Some state)
  | ReadFailed => (Some StateReadFailed, Some state)
  | Contents data =>
      let (ok, state') := json_Unmarshal sys data state in
      (if ok then None else Some StateParseFailed, state')
  end.

(** [dialNNTP] *)
Definition dialNNTP (server : gostring) (port : Z) (useTLS : bool) (proxyAddr : gostring)
  : DialError + Conn :=
  let address := server ++ lit ":" ++ Strconv.Itoa port in
  if negb (bool_decide (proxyAddr = [])) then
    match proxy_SOCKS5 sys (lit "tcp") proxyAddr with
    | None => inl ProxyConnectionFailed
    | Some dialer =>
        match dialer_Dial sys dialer (lit "tcp") address with
        | None => inl ProxyDialFailed
        | Some conn =>
            if useTLS then
              inr (tls_Client sys conn {| InsecureSkipVerify := true; ServerName := server |})
            else inr conn
        end
    end
  else if useTLS then
    match tls_Dial sys (lit "tcp") address {| InsecureSkipVerify := true; ServerName := [] |} with
    | None => inl DialFailed
    | Some conn => inr conn
    end
  else
    match net_Dial sys (lit "tcp") address with
    | None => inl DialFailed
    | Some conn => inr conn
    end.

(** [authenticateNNTP]: the error, the connection after the call and
    the commands written. Each response is read by a reader of its
    own. *)
Definition authenticateNNTP (conn : Conn) (username password : gostring)
  : option AuthError * Conn * list Step :=
  let steps := [Wrote (AUTHINFO_USER username)] in
  match fresh_ReadString sys conn with
  | (None, conn) => (Some AuthUserReadFailed, conn, steps)
  | (Some response, conn) =>
      if negb (GoStrings.HasPrefix response (lit "381")) then
        (Some (AuthUserFailed (GoStrings.TrimSpace response)), conn, steps)
      else
        let steps := steps ++ [Wrote (AUTHINFO_PASS password)] in
        match fresh_ReadString sys conn with
        | (None, conn) => (Some AuthPassReadFailed, conn, steps)
        | (Some response, conn) =>
            if negb (GoStrings.HasPrefix response (lit "281")) then
              (Some (AuthPassFailed (GoStrings.TrimSpace response)), conn, steps)
            else (None, conn, steps)
        end
  end.

(** [main], from the parsed flags: the exit status and the steps.
    [os.Exit(1)] ends the program without the deferred
    [conn.Close()]. The reader of [getRecentArticles] is made from the
    connection as the greeting and the authentication left it; the
    table is the one [loadState] left; [time.Now] was called once, for
    the deadline.

    When [loadState] left the nil table, [getRecentArticles] reads it
    as the empty table ([state[group]] finds no entry in a nil map),
    and the first assignment [state[group] = ...] (line 217) panics.
    That assignment is the statement before the first call of
    [os.WriteFile], so the run is the one from the empty table up to
    that call ([before_first_write]); then the deferred [conn.Close()]
    runs, the runtime reports the panic on standard error and the
    status is 2.

    [None]: the bound of the loop over the batches was too low. *)
Definition main (f : Flag.t) : option (Z * list Step) :=
  let (loadErr, table) := loadState (Flag.group f) ∅ in
  let steps := match loadErr with
               | Some err => [Said (LoadWarning err)]
               | None => []
               end in
  match dialNNTP (Flag.server f) (Flag.port f) (Flag.useTLS f) (Flag.proxyAddr f) with
  | inl err => Some (1, steps ++ [Said (ConnectionFailed err)])
  | inr conn =>
      let deadline := time_Add sys (time_Now E 0) (Int.wrap (Flag.readTimeout f * Second)) in
      let (ok, conn) := conn_SetReadDeadline sys conn deadline in
      let steps := steps ++ (if ok then [] else [Said TimeoutWarning]) in
      match fresh_ReadString sys conn with
      | (None, _) => Some (1, steps ++ [Said GreetingFailed])
      | (Some _, conn) =>
          let '(authErr, conn, sent) :=
            if negb (bool_decide (Flag.username f = [])) then
              authenticateNNTP conn (Flag.username f) (Flag.password f)
            else (None, conn, []) in
          let steps := steps ++ sent in
          match authErr with
          | Some err => Some (1, steps ++ [Said (AuthenticationFailed err)])
          | None =>
              let w := {| reader := NewReader (pending sys conn); trace := [];
                          state := default ∅ table; clock := 1; writes := 0 |} in
              let (res, w') := getRecentArticles E (Flag.group f) (Flag.days f)
                                 (Flag.latest f) (Flag.maxBatchSize f) w in
              match table, before_first_write (trace w') with
              | None, Some evs =>
                  Some (2, steps ++ (lift <$> evs) ++ [Closed; Said NilMapPanic])
              | _, _ =>
                  match res with
                  | Ok articles =>
                      Some (0, steps ++ (lift <$> trace w') ++ (Printed <$> articles)
                                  ++ [Wrote QUIT; Closed])
                  | Err err =>
                      Some (1, steps ++ (lift <$> trace w') ++ [Said (FatalError err)])
                  | Exhausted => None
                  end
              end
          end
      end
  end.

End Program.

(** A system for the examples: there is no state file, every dial
    gives the connection that delivers [bytes], and a reader of its own
    takes one line from the connection. *)
Definition line_by_line (bytes : gostring) : Sys gostring unit :=
  {| os_ReadFile := fun _ => NotExist;
     json_Unmarshal := fun _ st => (true, Some st);
     proxy_SOCKS5 := fun _ _ => Some tt;
     dialer_Dial := fun _ _ _ => Some bytes;
     tls_Client := fun conn _ => conn;
     tls_Dial := fun _ _ _ => Some bytes;
     net_Dial := fun _ _ => Some bytes;
     time_Add := Z.add;
     conn_SetReadDeadline := fun conn _ => (true, conn);
     fresh_ReadString := fun conn =>
       match lines (NewReader conn) with
       | line :: _ => (Some line, drop (length line) conn)
       | [] => (None, [])
       end;
     pending := fun conn => conn |}.

(** The system [sys] with a state file that holds [null]. *)
Definition with_null_state {Conn Dialer : Type} (sys : Sys Conn Dialer) : Sys Conn Dialer :=
  {| os_ReadFile := fun _ => Contents (lit "null");
     json_Unmarshal := fun _ _ => (true, None);
     proxy_SOCKS5 := proxy_SOCKS5 sys;
     dialer_Dial := dialer_Dial sys;
     tls_Client := tls_Client sys;
     tls_Dial := tls_Dial sys;
     net_Dial := net_Dial sys;
     time_Add := time_Add sys;
     conn_SetReadDeadline := conn_SetReadDeadline sys;
     fresh_ReadString := fresh_ReadString sys;
     pending := pending sys |}.

(** The flags as [flag] sets them when the command line is empty. *)
Definition defaults : Flag.t :=
  {| Flag.server := lit "news.tcpreset.net"; Flag.port := 119;
     Flag.group := lit "alt.anonymous.messages"; Flag.days := 1;
     Flag.username := []; Flag.password := [];
     Flag.useTLS := false; Flag.proxyAddr := [];
     Flag.latest := false; Flag.maxBatchSize := 500; Flag.readTimeout := 1200 |}.

(** * Properties *)

(** ** Arithmetic of [int] *)

Lemma wrap_in_range (z : Z) : Int.in_range z -> Int.wrap z = z.
Proof.
  unfold Int.in_range, Int.wrap, Int.MinInt, Int.MaxInt. intros Hz.
  rewrite Z.mod_small; lia.
Qed.

Lemma wrap_range (z : Z) : Int.in_range (Int.wrap z).
Proof.
  unfold Int.in_range, Int.wrap, Int.MinInt, Int.MaxInt.
  pose proof (Z.mod_pos_bound (z + 2 ^ 63) (2 ^ 64)). lia.
Qed.

(** ** Strings *)

Lemma HasPrefix_nil (s : gostring) : GoStrings.HasPrefix s [] = true.
Proof. by destruct s. Qed.

Lemma HasPrefix_cons (c p : ascii) (s pre : gostring) :
  GoStrings.HasPrefix (c :: s) (p :: pre) = Ascii.eqb c p && GoStrings.HasPrefix s pre.
Proof. reflexivity. Qed.

Lemma HasPrefix_inv (s pre : gostring) :
  GoStrings.HasPrefix s pre = true -> exists t, s = pre ++ t.
Proof.
  revert s. induction pre as [|p pre IH]; intros s H.
  - by exists s.
  - destruct s as [|c s]; [done|]. rewrite HasPrefix_cons in H.
    apply andb_true_iff in H as [Hc Hs]. apply Ascii.eqb_eq in Hc. subst c.
    destruct (IH _ Hs) as [t ->]. by exists t.
Qed.

Lemma unstuff_code (line : gostring) :
  (if GoStrings.HasPrefix line (lit "..") then drop 1 line else line) = unstuff line.
Proof.
  destruct (GoStrings.HasPrefix line (lit "..")) eqn:H.
  - apply HasPrefix_inv in H as [t ->]. reflexivity.
  - destruct line as [|c [|d line]]; try done.
    + by destruct c as [[] [] [] [] [] [] [] []].
    + destruct (Ascii.eqb_spec c "."); [subst c|].
      * destruct (Ascii.eqb_spec d "."); [subst d; done|].
        destruct d as [[] [] [] [] [] [] [] []]; done.
      * destruct c as [[] [] [] [] [] [] [] []]; done.
Qed.

Lemma Split_nonempty (s : gostring) (sep : ascii) : GoStrings.Split s sep <> [].
Proof.
  induction s as [|c s IH]; simpl; [done|].
  destruct (Ascii.eqb c sep); [done|]. by destruct (GoStrings.Split s sep).
Qed.

Lemma Split_first (line : gostring) :
  nth 0 (GoStrings.Split line TAB) [] = first_field line.
Proof.
  induction line as [|c line IH]; simpl; [done|].
  destruct (Ascii.eqb c TAB); [done|].
  pose proof (Split_nonempty line TAB).
  destruct (GoStrings.Split line TAB) as [|f fs]; [done|]. simpl in *. by rewrite IH.
Qed.

Lemma first_field_dots (line : gostring) :
  GoStrings.HasPrefix line (lit "..") = true ->
  GoStrings.HasPrefix (first_field line) (lit "..") = true.
Proof.
  intros H. apply HasPrefix_inv in H as [t ->]. reflexivity.
Qed.

(** ** The reader *)

(** The lines of the reader and the bytes after them are the bytes of
    the stream, cut after every LF. *)
Lemma NewReader_bytes (bytes : gostring) :
  concat (lines (NewReader bytes)) ++ partial (NewReader bytes) = bytes.
Proof.
  induction bytes as [|c bytes IH]; simpl; [done|].
  destruct (Ascii.eqb c LF); simpl; [by rewrite IH|].
  destruct (lines (NewReader bytes)) as [|l ls]; simpl in *; by rewrite IH.
Qed.

Lemma NewReader_lines (bytes : gostring) :
  Forall (fun line => exists t, line = t ++ [LF] /\ LF ∉ t) (lines (NewReader bytes)) /\
  LF ∉ partial (NewReader bytes).
Proof.
  induction bytes as [|c bytes [IHl IHp]]; simpl.
  { split; [constructor|apply not_elem_of_nil]. }
  destruct (Ascii.eqb_spec c LF) as [->|Hc]; simpl.
  - split; [|done]. constructor; [|done]. exists []. split; [done|apply not_elem_of_nil].
  - destruct (lines (NewReader bytes)) as [|l ls]; simpl.
    + split; [constructor|]. apply not_elem_of_cons. split; [congruence|done].
    + split; [|done]. apply Forall_cons in IHl as [(t & -> & Ht) IHl].
      constructor; [|done]. exists (c :: t). split; [done|].
      apply not_elem_of_cons. split; [congruence|done].
Qed.

(** ** The loops over the lines of the reader *)

Section UntilTerminator.

Context {S : Type} (step : S -> gostring -> S) (body : gostring -> S -> S + S).
Hypothesis body_eq : forall line s,
  body line s = if decide (line = terminator) then inr s else inl (step s line).

Lemma for_lines_complete (pre ls : list gostring) (s : S) :
  terminator ∉ pre ->
  for_lines body (pre ++ terminator :: ls) s = Some (foldl step s pre, ls).
Proof.
  revert s. induction pre as [|line pre IH]; intros s Hpre; simpl.
  - rewrite body_eq. by rewrite decide_True.
  - apply not_elem_of_cons in Hpre as [Hne Hpre].
    rewrite body_eq, decide_False by done. by apply IH.
Qed.

Lemma for_lines_incomplete (ls : list gostring) (s : S) :
  terminator ∉ ls -> for_lines body ls s = None.
Proof.
  revert s. induction ls as [|line ls IH]; intros s Hls; simpl; [done|].
  apply not_elem_of_cons in Hls as [Hne Hls].
  rewrite body_eq, decide_False by done. by apply IH.
Qed.

Lemma for_lines_inv (ls ls' : list gostring) (s r : S) :
  for_lines body ls s = Some (r, ls') ->
  exists pre, ls = pre ++ terminator :: ls' /\ (terminator ∉ pre) /\ r = foldl step s pre.
Proof.
  revert s. induction ls as [|line ls IH]; intros s H; simpl in H; [done|].
  rewrite body_eq in H. destruct (decide (line = terminator)) as [->|Hne].
  - injection H as <- <-. exists []. split; [done|]. split; [apply not_elem_of_nil|done].
  - destruct (IH _ H) as (pre & -> & Hpre & ->).
    exists (line :: pre). split; [done|]. split; [|done].
    apply not_elem_of_cons. split; [congruence|done].
Qed.

End UntilTerminator.

(** [forLines] is the loop that reads a line, returns on a failed read,
    and runs its body. *)
Lemma forLines_ReadString {S R} (body : gostring -> S -> S + R) (s : S) (w : World) :
  forLines body s w
  = (let* r := ReadString in
     match r with
     | None => ret None
     | Some line =>
         match body line s with
         | inl s' => forLines body s'
         | inr r => ret (Some r)
         end
     end) w.
Proof.
  unfold forLines, bind, ReadString.
  destruct (lines (reader w)) as [|line ls]; simpl; [done|].
  by destruct (body line s).
Qed.

Lemma articleLine_eq (line article : gostring) :
  articleLine line article
  = if decide (line = terminator) then inr article else inl (article ++ unstuff line).
Proof. unfold articleLine. by rewrite unstuff_code. Qed.

Lemma foldl_unstuff (body : list gostring) (article : gostring) :
  foldl (fun a line => a ++ unstuff line) article body = article ++ concat (unstuff <$> body).
Proof.
  revert article. induction body as [|line body IH]; intros article; simpl.
  - by rewrite app_nil_r.
  - rewrite IH. by rewrite <- app_assoc.
Qed.

(** ** [fetchArticle] *)

Lemma fetchArticle_ok (articleNum response : gostring) (body ls : list gostring) (w : World) :
  lines (reader w) = response :: body ++ terminator :: ls ->
  GoStrings.HasPrefix response (lit "220 ") = true ->
  terminator ∉ body ->
  fetchArticle articleNum w
  = (Ok (response ++ concat (unstuff <$> body) ++ terminator),
     advance (at_lines ls w) [Send (ARTICLE articleNum)] w).
Proof.
  intros Hl Hp Hb.
  unfold fetchArticle, bind, Fprintf_conn, emit, ReadString, forLines; simpl.
  rewrite Hl, Hp. simpl.
  rewrite (for_lines_complete _ _ articleLine_eq) by done.
  rewrite foldl_unstuff, <- app_assoc. reflexivity.
Qed.

Lemma fetchArticle_no_status (articleNum : gostring) (w : World) :
  lines (reader w) = [] ->
  fetchArticle articleNum w
  = (Err (FetchFailed articleNum), advance at_end [Send (ARTICLE articleNum)] w).
Proof.
  intros Hl. unfold fetchArticle, bind, Fprintf_conn, emit, ReadString; simpl.
  by rewrite Hl.
Qed.

Lemma fetchArticle_unavailable (articleNum response : gostring) (ls : list gostring) (w : World) :
  lines (reader w) = response :: ls ->
  GoStrings.HasPrefix response (lit "220 ") = false ->
  fetchArticle articleNum w
  = (Err (ArticleUnavailable articleNum (GoStrings.TrimSpace response)),
     advance (at_lines ls w) [Send (ARTICLE articleNum)] w).
Proof.
  intros Hl Hp. unfold fetchArticle, bind, Fprintf_conn, emit, ReadString; simpl.
  by rewrite Hl, Hp.
Qed.

Lemma fetchArticle_cut (articleNum response : gostring) (body : list gostring) (w : World) :
  lines (reader w) = response :: body ->
  GoStrings.HasPrefix response (lit "220 ") = true ->
  terminator ∉ body ->
  fetchArticle articleNum w
  = (Err (ArticleReadError articleNum), advance at_end [Send (ARTICLE articleNum)] w).
Proof.
  intros Hl Hp Hb. unfold fetchArticle, bind, Fprintf_conn, emit, ReadString, forLines; simpl.
  rewrite Hl, Hp. simpl.
  by rewrite (for_lines_incomplete _ _ articleLine_eq).
Qed.

(** The first line equal to [".\r\n"], if there is one. *)
Lemma first_terminator (ls : list gostring) :
  terminator ∉ ls \/
  exists body rest, ls = body ++ terminator :: rest /\ terminator ∉ body.
Proof.
  induction ls as [|line ls IH]; [left; apply not_elem_of_nil|].
  destruct (decide (line = terminator)) as [->|Hne].
  - right. exists [], ls. split; [done|apply not_elem_of_nil].
  - destruct IH as [IH|(body & rest & -> & Hb)].
    + left. apply not_elem_of_cons. split; [congruence|done].
    + right. exists (line :: body), rest. split; [done|].
      apply not_elem_of_cons. split; [congruence|done].
Qed.

(** Every outcome of [fetchArticle] is one of the four above. *)
Lemma fetchArticle_cases (articleNum : gostring) (w : World) :
  lines (reader w) = [] \/
  (exists response ls, lines (reader w) = response :: ls /\
     GoStrings.HasPrefix response (lit "220 ") = false) \/
  (exists response body, lines (reader w) = response :: body /\
     GoStrings.HasPrefix response (lit "220 ") = true /\ terminator ∉ body) \/
  (exists response body ls, lines (reader w) = response :: body ++ terminator :: ls /\
     GoStrings.HasPrefix response (lit "220 ") = true /\ terminator ∉ body).
Proof.
  destruct (lines (reader w)) as [|response ls]; [by left|right].
  destruct (GoStrings.HasPrefix response (lit "220 ")) eqn:Hp; [right|left; by eauto].
  destruct (first_terminator ls) as [Hn|(body & rest & -> & Hb)].
  - left. by eauto.
  - right. by eauto 6.
Qed.

(** ** [parseDate] *)

Lemma space_width_Some (s : gostring) (k : nat) :
  GoStrings.space_width s = Some k -> (1 <= k)%nat.
Proof.
  unfold GoStrings.space_width. intros H.
  destruct (List.find _ _) as [p|] eqn:Hf; [|done]. injection H as <-.
  apply List.find_some in Hf as [Hin _].
  assert (Hall : Forall (fun p : gostring => (1 <= length p)%nat)
                        (GoStrings.utf8 <$> GoStrings.White_Space)).
  { repeat constructor. }
  rewrite Forall_forall in Hall. apply Hall. by apply list_elem_of_In.
Qed.

Lemma space_width_blank (s : gostring) :
  GoStrings.space_width (" "%char :: s) <> None.
Proof.
  unfold GoStrings.space_width. intros H.
  destruct (List.find _ _) as [p|] eqn:Hf; [done|].
  pose proof (List.find_none _ _ Hf (GoStrings.utf8 32)) as Hn. cbv beta in Hn.
  assert (Hin : In (GoStrings.utf8 32) (GoStrings.utf8 <$> GoStrings.White_Space)).
  { apply list_elem_of_In. apply (list_elem_of_fmap_2 _ _ 32%N). set_solver. }
  specialize (Hn Hin). change (GoStrings.utf8 32) with [" "%char] in Hn.
  rewrite HasPrefix_cons, Ascii.eqb_refl, HasPrefix_nil in Hn. done.
Qed.

Lemma trim_left_done (n : nat) (s : gostring) :
  (length s <= n)%nat -> GoStrings.space_width (GoStrings.trim_left n s) = None.
Proof.
  revert s. induction n as [|n IH]; intros s Hn; simpl.
  - destruct s; [by vm_compute|simpl in Hn; lia].
  - destruct (GoStrings.space_width s) as [k|] eqn:Hk; [|done].
    apply space_width_Some in Hk. apply IH. rewrite length_drop. lia.
Qed.

Lemma trim_right_prefix (n : nat) (s : gostring) :
  exists m, GoStrings.trim_right n s = take m s.
Proof.
  revert s. induction n as [|n IH]; intros s; simpl.
  - exists (length s). by rewrite firstn_all.
  - destruct (GoStrings.space_width_end s) as [k|].
    + destruct (IH (take (length s - k) s)) as [m ->].
      exists (m `min` (length s - k))%nat. by rewrite take_take.
    + exists (length s). by rewrite firstn_all.
Qed.

(** A trimmed string does not start with a blank. *)
Lemma TrimSpace_head (s t : gostring) : GoStrings.TrimSpace s <> " "%char :: t.
Proof.
  unfold GoStrings.TrimSpace. intros H.
  destruct (trim_right_prefix (length (GoStrings.trim_left (length s) s))
                              (GoStrings.trim_left (length s) s)) as [m Hm].
  rewrite Hm in H.
  pose proof (trim_left_done (length s) s (le_n _)) as Hd.
  destruct (GoStrings.trim_left (length s) s) as [|c s1]; [by destruct m|].
  destruct m as [|m]; [done|]. simpl in H. injection H as -> _.
  by apply space_width_blank in Hd.
Qed.

Lemma Index_before_paren (t : gostring) :
  (GoStrings.Index t (lit " (") = -1 /\ before_paren t = t) \/
  (0 <= GoStrings.Index t (lit " (") /\
   before_paren t = take (Z.to_nat (GoStrings.Index t (lit " ("))) t).
Proof.
  induction t as [|c t IH]; simpl.
  - left. by vm_compute.
  - destruct (GoStrings.HasPrefix (c :: t) (lit " (")) eqn:Hp; [right; by simpl|].
    destruct IH as [[Hi Hb]|[Hi Hb]].
    + left. rewrite Hi. simpl. by rewrite Hb.
    + right. destruct (Z.ltb_spec (GoStrings.Index t (lit " (")) 0); [lia|].
      split; [lia|]. rewrite Hb.
      replace (Z.to_nat (GoStrings.Index t (lit " (") + 1))
        with (S (Z.to_nat (GoStrings.Index t (lit " (")))) by lia.
      reflexivity.
Qed.

Lemma Index_zero (t : gostring) :
  GoStrings.Index t (lit " (") = 0 -> GoStrings.HasPrefix t (lit " (") = true.
Proof.
  destruct t as [|c t]; simpl.
  - by vm_compute.
  - destruct (GoStrings.HasPrefix (c :: t) (lit " (")); [done|].
    destruct (Z.ltb_spec (GoStrings.Index t (lit " (")) 0); lia.
Qed.

Lemma parseDate_eq (E : Env) (dateStr : gostring) :
  parseDate E dateStr
  = time_Parse E (lit "Mon, 2 Jan 2006 15:04:05 -0700")
               (before_paren (GoStrings.TrimSpace dateStr)).
Proof.
  unfold parseDate. f_equal.
  destruct (Index_before_paren (GoStrings.TrimSpace dateStr)) as [[Hi Hb]|[Hi Hb]].
  - by rewrite Hi, Hb.
  - destruct (Z.gtb_spec (GoStrings.Index (GoStrings.TrimSpace dateStr) (lit " (")) 0) as [Hpos|Hz].
    + by rewrite Hb.
    + assert (H0 : GoStrings.Index (GoStrings.TrimSpace dateStr) (lit " (") = 0) by lia.
      apply Index_zero, HasPrefix_inv in H0 as [t Ht].
      by apply TrimSpace_head in Ht.
Qed.

(** ** The listing loop *)

Lemma listingLine_eq (E : Env) (days : Z) (cutoff : Time) (line : gostring)
    (articleNumbers : list gostring) :
  listingLine E days cutoff line articleNumbers
  = if decide (line = terminator) then inr articleNumbers
    else inl (if kept E days cutoff line
              then articleNumbers ++ [first_field line] else articleNumbers).
Proof.
  unfold listingLine, kept, well_formed, recent, date_field, Before.
  destruct (decide (line = terminator)); [done|].
  rewrite Split_first, parseDate_eq.
  destruct (Z.ltb_spec (Z.of_nat (length (GoStrings.Split line TAB))) 8);
    destruct (Z.leb_spec 8 (Z.of_nat (length (GoStrings.Split line TAB)))); try lia; [done|].
  destruct (Z.gtb_spec days 0); destruct (Z.leb_spec days 0); try lia; simpl; [|done].
  destruct (time_Parse _ _ _) as [date|]; [|done].
  by destruct (date <? cutoff).
Qed.

Lemma foldl_kept (E : Env) (days : Z) (cutoff : Time) (body : list gostring)
    (articleNumbers : list gostring) :
  foldl (fun nums line => if kept E days cutoff line then nums ++ [first_field line] else nums)
        articleNumbers body
  = articleNumbers ++ (first_field <$> List.filter (kept E days cutoff) body).
Proof.
  revert articleNumbers. induction body as [|line body IH]; intros nums; simpl.
  - by rewrite app_nil_r.
  - rewrite IH. destruct (kept E days cutoff line); [|done].
    by rewrite <- app_assoc.
Qed.

Lemma listing_ok (E : Env) (days : Z) (cutoff : Time) (body ls : list gostring) (w : World) :
  lines (reader w) = body ++ terminator :: ls ->
  terminator ∉ body ->
  forLines (listingLine E days cutoff) [] w
  = (Ok (Some (first_field <$> List.filter (kept E days cutoff) body)),
     set_reader (at_lines ls w) w).
Proof.
  intros Hl Hb. unfold forLines. rewrite Hl.
  by rewrite (for_lines_complete _ _ (listingLine_eq E days cutoff)), foldl_kept.
Qed.

Lemma listing_cut (E : Env) (days : Z) (cutoff : Time) (w : World) :
  terminator ∉ lines (reader w) ->
  forLines (listingLine E days cutoff) [] w = (Ok None, set_reader at_end w).
Proof.
  intros Hb. unfold forLines.
  by rewrite (for_lines_incomplete _ _ (listingLine_eq E days cutoff)).
Qed.

(** ** Traces *)

Lemma xovers_app (t1 t2 : list Event) : xovers (t1 ++ t2) = xovers t1 ++ xovers t2.
Proof. apply omap_app. Qed.

Lemma requested_app (t1 t2 : list Event) : requested (t1 ++ t2) = requested t1 ++ requested t2.
Proof. apply omap_app. Qed.

Lemma warnings_app (t1 t2 : list Event) : warnings (t1 ++ t2) = warnings t1 ++ warnings t2.
Proof. apply omap_app. Qed.

Lemma saves_app (g : gostring) (t1 t2 : list Event) :
  saves g (t1 ++ t2) = saves g t1 ++ saves g t2.
Proof. apply omap_app. Qed.

Lemma without_saves_app (t1 t2 : list Event) :
  without_saves (t1 ++ t2) = without_saves t1 ++ without_saves t2.
Proof. apply List.filter_app. Qed.

Lemma fetch_events_quiet (g : gostring) (evs : list Event) :
  forallb fetch_event evs = true -> xovers evs = [] /\ saves g evs = [].
Proof.
  induction evs as [|e evs IH]; [done|]. simpl. intros H.
  apply andb_true_iff in H as [He Hevs]. destruct (IH Hevs) as [IHx IHs].
  unfold xovers, saves in *. simpl. rewrite IHx, IHs.
  by destruct e as [[]|[]|].
Qed.

Lemma advance_advance (r1 r2 : Reader) (evs1 evs2 : list Event) (w : World) :
  advance r2 evs2 (advance r1 evs1 w) = advance r2 (evs1 ++ evs2) w.
Proof. unfold advance. simpl. by rewrite <- app_assoc. Qed.

(** ** The loop over the article numbers *)

Lemma fetchArticle_effect (articleNum : gostring) (w : World) :
  exists res r, fetchArticle articleNum w = (res, advance r [Send (ARTICLE articleNum)] w) /\
    res <> Exhausted /\ (length (lines r) <= length (lines (reader w)))%nat.
Proof.
  destruct (fetchArticle_cases articleNum w)
    as [Hl|[(response & ls & Hl & Hp)|[(response & body & Hl & Hp & Hb)
       |(response & body & ls & Hl & Hp & Hb)]]].
  - rewrite (fetchArticle_no_status _ _ Hl). eexists _, _. split; [done|]. split; [done|].
    simpl. lia.
  - rewrite (fetchArticle_unavailable _ _ _ _ Hl Hp). eexists _, _. split; [done|].
    split; [done|]. rewrite Hl. simpl. lia.
  - rewrite (fetchArticle_cut _ _ _ _ Hl Hp Hb). eexists _, _. split; [done|].
    split; [done|]. simpl. lia.
  - rewrite (fetchArticle_ok _ _ _ _ _ Hl Hp Hb). eexists _, _. split; [done|].
    split; [done|]. rewrite Hl. simpl. rewrite length_app. simpl. lia.
Qed.

Lemma fetchArticles_failed (num : gostring) (rest articles : list gostring)
    (w w1 : World) (e : Error) :
  fetchArticle num w = (Err e, w1) ->
  fetchArticles (num :: rest) articles w
  = fetchArticles rest articles (advance (reader w1) [Stderr (Warning e)] w1).
Proof.
  intros H. simpl. unfold bind, try. by rewrite H.
Qed.

Lemma fetchArticles_fetched (num : gostring) (rest articles : list gostring)
    (w w1 : World) (article : gostring) :
  fetchArticle num w = (Ok article, w1) ->
  fetchArticles (num :: rest) articles w = fetchArticles rest (articles ++ [article]) w1.
Proof.
  intros H. simpl. unfold bind, try. by rewrite H.
Qed.

Lemma fetchArticles_effect (nums articles : list gostring) (w : World) :
  exists fetched r evs,
    fetchArticles nums articles w = (Ok (articles ++ fetched), advance r evs w) /\
    forallb fetch_event evs = true /\
    requested evs = nums /\
    (length fetched + length (warnings evs) = length nums)%nat /\
    (length (lines r) <= length (lines (reader w)))%nat.
Proof.
  revert articles w. induction nums as [|num nums IH]; intros articles w.
  - exists [], (reader w), []. simpl. unfold ret, advance. rewrite !app_nil_r.
    by destruct w.
  - destruct (fetchArticle_effect num w) as (res & r1 & Hf & Hne & Hlen).
    destruct res as [article|e|]; [| |done].
    + rewrite (fetchArticles_fetched _ _ _ _ _ _ Hf).
      destruct (IH (articles ++ [article]) (advance r1 [Send (ARTICLE num)] w))
        as (fetched & r & evs & -> & Hev & Hreq & Hcount & Hl).
      exists (article :: fetched), r, (Send (ARTICLE num) :: evs).
      rewrite advance_advance, <- app_assoc. simpl in *.
      repeat split; [done| |lia|lia].
      unfold requested in *. simpl. by rewrite Hreq.
    + rewrite (fetchArticles_failed _ _ _ _ _ _ Hf).
      destruct (IH articles (advance (reader (advance r1 [Send (ARTICLE num)] w))
                                     [Stderr (Warning e)]
                                     (advance r1 [Send (ARTICLE num)] w)))
        as (fetched & r & evs & -> & Hev & Hreq & Hcount & Hl).
      exists fetched, r, (Send (ARTICLE num) :: Stderr (Warning e) :: evs).
      rewrite !advance_advance. simpl in *.
      repeat split; [done| |unfold warnings in *; simpl; lia|lia].
      unfold requested in *. simpl. by rewrite Hreq.
Qed.

(** ** The bookmark and a round of the loop over the batches *)

Lemma bookmark_eq (E : Env) (group : gostring) (useLatest : bool) (first batchEnd : Z)
    (w : World) :
  bookmark E group useLatest first batchEnd w
  = (Ok tt, if persists useLatest first batchEnd then bookmarked E group batchEnd w else w).
Proof.
  unfold bookmark, persists, bookmarked.
  destruct (useLatest && (batchEnd >? first)); [|done].
  unfold bind, try, saveState, Now, state_store, emit, Fprintf_Stderr, emit, ret, fail. simpl.
  destruct (os_WriteFile E (writes w)); simpl; [done|].
  by rewrite <- app_assoc.
Qed.

Lemma logged_app (t1 t2 : list Event) : logged t1 -> logged t2 -> logged (t1 ++ t2).
Proof.
  unfold logged. intros H1 H2. by rewrite !List.filter_app, flat_map_app, H1, H2.
Qed.

Lemma logged_fetch (evs : list Event) : forallb fetch_event evs = true -> logged evs.
Proof.
  unfold logged. induction evs as [|e evs IH]; [done|]. simpl. intros H.
  apply andb_true_iff in H as [He Hevs]. specialize (IH Hevs).
  by destruct e as [[]|[]|].
Qed.

Lemma batch_effect (E : Env) (group : gostring) (days : Z) (useLatest : bool)
    (first : Z) (cutoff : Time) (s e : Z) (articles : list gostring) (w : World) :
  exists res w' evs,
    batch E group days useLatest first cutoff s e articles w = (res, w') /\
    trace w' = trace w ++ Send (XOVER s e) :: evs /\
    xovers evs = [] /\ logged evs /\
    match res with
    | Ok articles' =>
        (length (lines (reader w')) < length (lines (reader w)))%nat /\
        (saves group evs).*1 = (if persists useLatest first e then [e] else []) /\
        (length articles' + length (warnings evs)
         = length articles + length (requested evs))%nat
    | Err err => fatal err /\ saves group evs = []
    | Exhausted => False
    end.
Proof.
  unfold batch, bind, Fprintf_conn, emit, ReadString. simpl.
  destruct (lines (reader w)) as [|xoverHeader ls] eqn:Hl; simpl.
  { eexists _, _, []. split; [done|]. simpl. repeat split; unfold fatal; auto. }
  destruct (GoStrings.HasPrefix xoverHeader (lit "224 ")); simpl.
  2:{ eexists _, _, []. split; [done|]. simpl. repeat split; unfold fatal; eauto. }
  match goal with |- context [forLines ?b ?i ?w0] => set (w1 := w0) end.
  destruct (first_terminator ls) as [Hn|(body & rest & Hls & Hb)].
  { rewrite (listing_cut E days cutoff w1) by done. simpl.
    eexists _, _, []. split; [done|]. simpl. repeat split; unfold fatal; auto. }
  rewrite (listing_ok E days cutoff body rest w1) by done. simpl.
  match goal with |- context [fetchArticles ?n ?a ?w0] =>
    destruct (fetchArticles_effect n a w0) as (fetched & r & evs & -> & Hev & Hreq & Hcount & Hlen)
  end.
  rewrite bookmark_eq. unfold ret.
  destruct (fetch_events_quiet group evs Hev) as [Hx Hs].
  destruct (persists useLatest first e) eqn:Hp.
  - eexists _, _, (evs ++ _). split; [done|]. simpl.
    split; [by rewrite <- !app_assoc|].
    rewrite xovers_app, saves_app, warnings_app, requested_app, Hx, Hs. simpl.
    split; [by destruct (os_WriteFile E (writes w))|].
    split; [apply logged_app; [by apply logged_fetch|]; by destruct (os_WriteFile E (writes w))|].
    split; [subst ls; rewrite length_app in *; simpl in *; lia|].
    split.
    + unfold saves. simpl. rewrite lookup_insert_eq. simpl.
      by destruct (os_WriteFile E (writes w)).
    + rewrite length_app.
      assert (Hw : forall b : bool,
        warnings (if b then [] else [Stderr (WarningSaveState StateWriteFailed)]) = []
        /\ requested (if b then [] else [Stderr (WarningSaveState StateWriteFailed)]) = [])
        by (by intros []).
      destruct (Hw (os_WriteFile E (writes w))) as [-> ->].
      rewrite !app_nil_r. rewrite <- Hreq in Hcount. lia.
  - eexists _, _, evs. split; [done|]. simpl.
    split; [by rewrite <- app_assoc|]. split; [done|]. split; [by apply logged_fetch|].
    split; [subst ls; rewrite length_app in *; simpl in *; lia|].
    split; [by rewrite Hs|]. rewrite length_app. rewrite <- Hreq in Hcount. lia.
Qed.

(** ** The loop over the batches *)

Lemma xovers_cons_XOVER (a b : Z) (t : list Event) :
  xovers (Send (XOVER a b) :: t) = (a, b) :: xovers t.
Proof. reflexivity. Qed.

Lemma saves_cons_Send (g : gostring) (c : Command) (t : list Event) :
  saves g (Send c :: t) = saves g t.
Proof. reflexivity. Qed.

Lemma logged_cons_Send (c : Command) (t : list Event) : logged t -> logged (Send c :: t).
Proof. intros H. by apply (logged_app [Send c] t). Qed.

Lemma filter_persists_cons (useLatest : bool) (first e : Z) (l : list Z) :
  (if persists useLatest first e then [e] else []) ++ List.filter (persists useLatest first) l
  = List.filter (persists useLatest first) (e :: l).
Proof. simpl. by destruct (persists useLatest first e). Qed.

Lemma batches_effect (n : nat) (E : Env) (group : gostring) (days : Z) (useLatest : bool)
    (B first last : Z) (cutoff : Time) (s : Z) (articles : list gostring) (w : World) :
  exists res w' evs,
    batches n E group days useLatest B first last cutoff s articles w = (res, w') /\
    trace w' = trace w ++ evs /\
    chain B last s (xovers evs) /\ logged evs /\
    match res with
    | Ok articles' =>
        last < next_start s (xovers evs) /\
        (saves group evs).*1 = List.filter (persists useLatest first) (xovers evs).*2 /\
        (length articles' + length (warnings evs)
         = length articles + length (requested evs))%nat
    | Err err =>
        fatal err /\ xovers evs <> [] /\
        (saves group evs).*1
        = List.filter (persists useLatest first) (removelast (xovers evs)).*2
    | Exhausted => (n <= length (lines (reader w)))%nat
    end.
Proof.
  revert s articles w. induction n as [|n IH]; intros s articles w; simpl.
  - destruct (Z.leb_spec s last).
    + exists Exhausted, w, []. rewrite app_nil_r. repeat split; try done; try lia.
    + exists (Ok articles), w, []. rewrite app_nil_r. unfold ret. simpl.
      repeat split; try done; try lia.
  - destruct (Z.leb_spec s last) as [Hs|Hs].
    2:{ exists (Ok articles), w, []. rewrite app_nil_r. unfold ret. simpl.
        repeat split; try done; try lia. }
    unfold bind.
    destruct (batch_effect E group days useLatest first cutoff s (batchEndOf B last s)
                           articles w) as (res1 & w1 & evs1 & -> & Ht1 & Hx1 & Hlog1 & Hres1).
    destruct res1 as [articles1|err|]; [| |done].
    + destruct Hres1 as (Hlen1 & Hsv1 & Hcount1).
      destruct (IH (Int.add (batchEndOf B last s) 1) articles1 w1)
        as (res & w' & evs2 & -> & Ht2 & Hch2 & Hlog2 & Hres).
      exists res, w', (Send (XOVER s (batchEndOf B last s)) :: evs1 ++ evs2).
      split; [done|].
      split; [rewrite Ht2, Ht1, <- app_assoc; by simpl|].
      assert (Hx : xovers (Send (XOVER s (batchEndOf B last s)) :: evs1 ++ evs2)
                   = (s, batchEndOf B last s) :: xovers evs2).
      { by rewrite xovers_cons_XOVER, xovers_app, Hx1. }
      assert (Hsv : (saves group (Send (XOVER s (batchEndOf B last s)) :: evs1 ++ evs2)).*1
                    = (if persists useLatest first (batchEndOf B last s)
                       then [batchEndOf B last s] else []) ++ (saves group evs2).*1).
      { by rewrite saves_cons_Send, saves_app, fmap_app, Hsv1. }
      rewrite Hx, Hsv. simpl.
      split; [done|].
      split; [by apply logged_cons_Send, logged_app|].
      destruct res as [articles'|err|].
      * destruct Hres as (Hfin & Hsv2 & Hcount2).
        split; [done|]. split; [by rewrite Hsv2, filter_persists_cons|].
        rewrite !warnings_app, !requested_app, !length_app. lia.
      * destruct Hres as (Hfatal & Hne & Hsv2).
        split; [done|]. split; [done|].
        destruct (xovers evs2) as [|x xs] eqn:Hxs; [done|].
        rewrite Hsv2. change (removelast ((s, batchEndOf B last s) :: x :: xs))
          with ((s, batchEndOf B last s) :: removelast (x :: xs)).
        by rewrite fmap_cons, <- filter_persists_cons.
      * lia.
    + destruct Hres1 as (Hfatal & Hsv1).
      exists (Err err), w1, (Send (XOVER s (batchEndOf B last s)) :: evs1).
      split; [done|]. split; [done|].
      assert (Hx : xovers (Send (XOVER s (batchEndOf B last s)) :: evs1)
                   = [(s, batchEndOf B last s)]).
      { by rewrite xovers_cons_XOVER, Hx1. }
      rewrite Hx. simpl. split; [done|].
      split; [by apply logged_cons_Send|].
      split; [done|]. split; [done|].
      by rewrite Hsv1.
Qed.

Lemma aborted_fatal {A} (err : Error) : fatal err -> aborted (@Err A err) = true.
Proof. by intros [->|[[h ->]| ->]]. Qed.

Lemma retrieve_effect (E : Env) (group : gostring) (days : Z) (useLatest : bool)
    (B first last : Z) (w : World) :
  exists res w' evs,
    retrieve E group days useLatest B first last w = (res, w') /\
    trace w' = trace w ++ evs /\
    chain B last first (xovers evs) /\ logged evs /\
    (saves group evs).*1
    = List.filter (persists useLatest first) (completed res (xovers evs)).*2 /\
    match res with
    | Ok articles =>
        articles <> [] /\ last < next_start first (xovers evs) /\
        (length articles + length (warnings evs) = length (requested evs))%nat
    | Err err =>
        (err = NoArticlesFound /\ last < next_start first (xovers evs) /\
         length (warnings evs) = length (requested evs)) \/
        (fatal err /\ xovers evs <> [])
    | Exhausted => False
    end.
Proof.
  unfold retrieve, bind, Now, rounds. cbv beta iota zeta.
  match goal with |- context [batches ?n _ _ _ _ _ _ _ ?c _ _ ?w0] =>
    destruct (batches_effect n E group days useLatest B first last c first [] w0)
      as (res & w' & evs & -> & Ht & Hch & Hlog & Hres)
  end.
  simpl in Ht. destruct res as [articles|err|]; simpl in Hres.
  - destruct Hres as (Hfin & Hsv & Hcount).
    destruct articles as [|a articles]; simpl.
    + exists (Err NoArticlesFound), w', evs. unfold fail.
      repeat split; try done. left. simpl in Hcount. repeat split; try done; lia.
    + exists (Ok (a :: articles)), w', evs. unfold ret. repeat split; try done.
  - destruct Hres as (Hfatal & Hne & Hsv).
    exists (Err err), w', evs. repeat split; try done.
    + unfold completed. by rewrite (aborted_fatal err Hfatal).
    + by right.
  - lia.
Qed.

(** ** The tiling *)

Lemma tile_from_bounds (B last : Z) (n : nat) (s a b : Z) :
  1 <= B -> (a, b) ∈ tile_from n B last s ->
  s <= a /\ a <= b /\ b <= last /\ b - a + 1 <= B.
Proof.
  intros HB. revert s. induction n as [|n IH]; intros s Hin; simpl in Hin.
  - by apply elem_of_nil in Hin.
  - destruct (Z.leb_spec s last); [|by apply elem_of_nil in Hin].
    apply elem_of_cons in Hin as [Heq|Hin].
    + injection Heq as -> ->. lia.
    + apply IH in Hin. lia.
Qed.






Lemma tile_from_ascending (B last : Z) (n : nat) (s : Z) :
  1 <= B ->
  StronglySorted Z.lt (tile_from n B last s).*2 /\
  Forall (fun b => s <= b) (tile_from n B last s).*2.
Proof.
  intros HB. revert s. induction n as [|n IH]; intros s; simpl.
  { split; constructor. }
  destruct (Z.leb_spec s last); [|split; constructor].
  destruct (IH (Z.min (s + B - 1) last + 1)) as [Hasc Hall]. simpl. split.
  - constructor; [done|]. eapply Forall_impl; [exact Hall|]. simpl. lia.
  - constructor; [lia|]. eapply Forall_impl; [exact Hall|]. simpl. lia.
Qed.

(** Only the first batch can end at the start of the range. *)
Lemma tile_from_first (B last : Z) (n : nat) (s : Z) (i : nat) (a b : Z) :
  1 <= B -> tile_from n B last s !! i = Some (a, b) -> s <= b /\ (b = s -> i = O).
Proof.
  intros HB Hi. destruct n as [|n]; simpl in Hi; [done|].
  destruct (Z.leb_spec s last); [|done].
  destruct (tile_from_ascending B last n (Z.min (s + B - 1) last + 1) HB) as [_ Hall].
  destruct i as [|i]; simpl in Hi.
  - injection Hi as <- <-. lia.
  - rewrite Forall_lookup in Hall.
    assert (Hb : (tile_from n B last (Z.min (s + B - 1) last + 1)).*2 !! i = Some b)
      by (by rewrite list_lookup_fmap, Hi).
    specialize (Hall _ _ Hb). simpl in Hall. lia.
Qed.

(** ** Batches without overflow *)

Lemma wrap_add_wrap (x y : Z) : Int.wrap (Int.wrap x + y) = Int.wrap (x + y).
Proof.
  unfold Int.wrap. f_equal.
  replace ((x + 2 ^ 63) mod 2 ^ 64 - 2 ^ 63 + y + 2 ^ 63)
    with ((x + 2 ^ 63) mod 2 ^ 64 + y) by lia.
  rewrite Z.add_mod_idemp_l by lia. f_equal. lia.
Qed.

(** A round of the loop whose batch [fits] computes the batch of the
    tiling and the start of the next one. *)
Lemma batch_fits (B last s : Z) :
  1 <= B -> Int.MinInt <= s <= last -> fits B (s, Z.min (s + B - 1) last) ->
  batchEndOf B last s = Z.min (s + B - 1) last /\
  Int.add (batchEndOf B last s) 1 = Z.min (s + B - 1) last + 1.
Proof.
  intros HB Hs [Ha Hb]. simpl in *.
  assert (He : batchEndOf B last s = Z.min (s + B - 1) last).
  { unfold batchEndOf, Int.add, Int.sub.
    replace (Int.wrap (s + B) - 1) with (Int.wrap (s + B) + (- 1)) by lia.
    rewrite wrap_add_wrap. replace (s + B + - 1) with (s + B - 1) by lia.
    rewrite wrap_in_range by (unfold Int.in_range; lia).
    destruct (Z.gtb_spec (s + B - 1) last); lia. }
  split; [done|]. rewrite He. unfold Int.add.
  apply wrap_in_range. unfold Int.in_range. lia.
Qed.

Lemma chain_prefix (B last : Z) (bs : list (Z * Z)) (s : Z) (n : nat) :
  1 <= B -> Int.MinInt <= s -> chain B last s bs ->
  (Z.to_nat (last - s + 1) <= n)%nat ->
  Forall (fits B) (tile_from n B last s) ->
  bs `prefix_of` tile_from n B last s.
Proof.
  intros HB. revert s n.
  induction bs as [|[a b] bs IH]; intros s n Hs Hch Hn Hfit; [apply prefix_nil|].
  destruct Hch as (-> & Hle & -> & Hch).
  destruct n as [|n]; [lia|]. simpl in *.
  destruct (Z.leb_spec s last); [|lia].
  apply Forall_cons in Hfit as [Hfit1 Hfit].
  destruct (batch_fits B last s HB ltac:(lia) Hfit1) as [He Hnext].
  rewrite Hnext in Hch. rewrite He.
  apply prefix_cons. apply IH; [lia|done|lia|done].
Qed.


(** Batch arithmetic below [MaxInt] does not wrap. *)
Lemma no_wrap_below (B last : Z) (n : nat) (s : Z) :
  1 <= B -> last + B <= Int.MaxInt -> Forall (fits B) (tile_from n B last s).
Proof.
  intros HB Hno. apply Forall_forall. intros [a b] Hin.
  pose proof (tile_from_bounds _ _ _ _ _ _ HB Hin). unfold fits. simpl. lia.
Qed.

(** ** The state file does not steer the run *)

Lemma Rel_ret {A} (a : A) : Rel (ret a) (ret a).
Proof. by intros w1 w2 Hv. Qed.

Lemma Rel_fail {A} (e : Error) : Rel (@fail A e) (fail e).
Proof. by intros w1 w2 Hv. Qed.

Lemma Rel_bind {A B} (m1 m2 : M A) (k1 k2 : A -> M B) :
  Rel m1 m2 -> (forall a, Rel (k1 a) (k2 a)) -> Rel (bind m1 k1) (bind m2 k2).
Proof.
  intros Hm Hk w1 w2 Hv. unfold bind.
  destruct (Hm w1 w2 Hv) as [Hr Hv'].
  destruct (m1 w1) as [r1 w1'], (m2 w2) as [r2 w2']. simpl in *. subst r2.
  destruct r1 as [a|e|]; [by apply Hk|done|done].
Qed.

Lemma Rel_try {A} (m1 m2 : M A) : Rel m1 m2 -> Rel (try m1) (try m2).
Proof.
  intros Hm w1 w2 Hv. unfold try.
  destruct (Hm w1 w2 Hv) as [Hr Hv'].
  destruct (m1 w1) as [r1 w1'], (m2 w2) as [r2 w2']. simpl in *. subst r2.
  by destruct r1.
Qed.

Lemma Rel_emit (e : Event) : save_event e = false -> Rel (emit e) (emit e).
Proof.
  intros He w1 w2 Hv. unfold emit, view in *. simpl.
  injection Hv as Hr Hs Hc Ht. split; [done|].
  by rewrite !without_saves_app, Hr, Hs, Hc, Ht.
Qed.

Lemma Rel_ReadString : Rel ReadString ReadString.
Proof.
  intros w1 w2 Hv. unfold ReadString, view in *.
  injection Hv as Hr Hs Hc Ht. rewrite Hr.
  destruct (lines (reader w2)); simpl; by rewrite ?Hs, ?Hc, ?Ht.
Qed.

Lemma Rel_forLines {S R} (body : gostring -> S -> S + R) (s : S) :
  Rel (forLines body s) (forLines body s).
Proof.
  intros w1 w2 Hv. unfold forLines, view in *.
  injection Hv as Hr Hs Hc Ht. rewrite Hr.
  destruct (for_lines body (lines (reader w2)) s) as [[r ls]|]; simpl;
    by rewrite ?Hs, ?Hc, ?Ht.
Qed.

Lemma Rel_Now (E : Env) (f : nat -> bool) : Rel (Now E) (Now (with_writes f E)).
Proof.
  intros w1 w2 Hv. unfold Now, view in *. simpl.
  injection Hv as Hr Hs Hc Ht. by rewrite Hr, Hs, Hc, Ht.
Qed.

Lemma Rel_state_store (group : gostring) (v : GroupState) :
  Rel (state_store group v) (state_store group v).
Proof.
  intros w1 w2 Hv. unfold state_store, view in *. simpl.
  injection Hv as Hr Hs Hc Ht. by rewrite Hr, Hs, Hc, Ht.
Qed.

Lemma Rel_state_load (group : gostring) : Rel (state_load group) (state_load group).
Proof.
  intros w1 w2 Hv. unfold state_load. simpl. split; [|done].
  unfold view in Hv. injection Hv as Hr Hs Hc Ht. by rewrite Hs.
Qed.

Lemma Rel_rounds : Rel rounds rounds.
Proof.
  intros w1 w2 Hv. unfold rounds. simpl. split; [|done].
  unfold view in Hv. injection Hv as Hr Hs Hc Ht. by rewrite Hr.
Qed.

Lemma Rel_bookmark (E : Env) (f : nat -> bool) (group : gostring) (useLatest : bool)
    (first batchEnd : Z) :
  Rel (bookmark E group useLatest first batchEnd)
      (bookmark (with_writes f E) group useLatest first batchEnd).
Proof.
  intros w1 w2 Hv. rewrite !bookmark_eq. simpl. split; [done|].
  destruct (persists useLatest first batchEnd); [|done].
  unfold view, bookmarked in *. simpl.
  injection Hv as Hr Hs Hc Ht. rewrite !without_saves_app, Hr, Hs, Hc, Ht.
  do 2 f_equal. simpl.
  by destruct (os_WriteFile E (writes w1)), (f (writes w2)).
Qed.

(** One step of a proof that two computations are related. *)
Ltac rel_step :=
  first
    [ apply Rel_ret | apply Rel_fail | apply Rel_ReadString | apply Rel_forLines
    | apply Rel_Now | apply Rel_state_store | apply Rel_state_load | apply Rel_rounds
    | apply Rel_bookmark | apply Rel_emit; reflexivity
    | apply Rel_try | apply Rel_bind; [|intros ?]
    | match goal with
      | |- Rel (match ?x with _ => _ end) _ => destruct x
      | |- Rel (if ?b then _ else _) _ => destruct b
      end ].

Lemma Rel_fetchArticle (articleNum : gostring) :
  Rel (fetchArticle articleNum) (fetchArticle articleNum).
Proof. unfold fetchArticle, Fprintf_conn. repeat rel_step. Qed.

Lemma Rel_fetchArticles (articleNumbers articles : list gostring) :
  Rel (fetchArticles articleNumbers articles) (fetchArticles articleNumbers articles).
Proof.
  revert articles. induction articleNumbers as [|num nums IH]; intros articles; simpl.
  - apply Rel_ret.
  - apply Rel_bind; [apply Rel_try, Rel_fetchArticle|].
    intros [err|article]; [|apply IH].
    unfold Fprintf_Stderr. apply Rel_bind; [by apply Rel_emit|]. intros _. apply IH.
Qed.

Lemma Rel_batch (E : Env) (f : nat -> bool) (group : gostring) (days : Z)
    (useLatest : bool) (first : Z) (cutoff : Time) (s e : Z) (articles : list gostring) :
  Rel (batch E group days useLatest first cutoff s e articles)
      (batch (with_writes f E) group days useLatest first cutoff s e articles).
Proof.
  unfold batch, Fprintf_conn.
  apply Rel_bind; [by apply Rel_emit|]. intros _.
  apply Rel_bind; [apply Rel_ReadString|]. intros [xoverHeader|]; [|apply Rel_fail].
  destruct (negb _); [apply Rel_fail|].
  apply Rel_bind; [apply (Rel_forLines (listingLine E days cutoff))|].
  intros [articleNumbers|]; [|apply Rel_fail].
  apply Rel_bind; [apply Rel_fetchArticles|]. intros articles'.
  apply Rel_bind; [apply Rel_bookmark|]. intros _. apply Rel_ret.
Qed.

Lemma Rel_batches (n : nat) (E : Env) (f : nat -> bool) (group : gostring) (days : Z)
    (useLatest : bool) (B first last : Z) (cutoff : Time) (s : Z)
    (articles : list gostring) :
  Rel (batches n E group days useLatest B first last cutoff s articles)
      (batches n (with_writes f E) group days useLatest B first last cutoff s articles).
Proof.
  revert s articles. induction n as [|n IH]; intros s articles; simpl.
  - destruct (s <=? last); [by intros w1 w2 Hv|apply Rel_ret].
  - destruct (s <=? last); [|apply Rel_ret].
    apply Rel_bind; [apply Rel_batch|]. intros articles'. apply IH.
Qed.

Lemma Rel_selectGroup (group : gostring) : Rel (selectGroup group) (selectGroup group).
Proof. unfold selectGroup, Fprintf_conn. repeat rel_step. Qed.

Lemma Rel_resume (group : gostring) (useLatest : bool) (first last : Z) :
  Rel (resume group useLatest first last) (resume group useLatest first last).
Proof. unfold resume, Fprintf_Stderr. repeat rel_step. Qed.

Lemma Rel_retrieve (E : Env) (f : nat -> bool) (group : gostring) (days : Z)
    (useLatest : bool) (B first last : Z) :
  Rel (retrieve E group days useLatest B first last)
      (retrieve (with_writes f E) group days useLatest B first last).
Proof.
  unfold retrieve.
  apply Rel_bind; [apply Rel_Now|]. intros now.
  apply Rel_bind; [apply Rel_rounds|]. intros n.
  apply Rel_bind; [apply Rel_batches|]. intros articles.
  destruct (Nat.eqb _ _); [apply Rel_fail|apply Rel_ret].
Qed.

Lemma Rel_getRecentArticles (E : Env) (f : nat -> bool) (group : gostring) (days : Z)
    (useLatest : bool) (B : Z) :
  Rel (getRecentArticles E group days useLatest B)
      (getRecentArticles (with_writes f E) group days useLatest B).
Proof.
  unfold getRecentArticles.
  apply Rel_bind; [apply Rel_selectGroup|]. intros range.
  apply Rel_bind; [apply Rel_resume|]. intros [first|]; [apply Rel_retrieve|apply Rel_ret].
Qed.

(** ** The GROUP exchange and the resume adjustment *)

Lemma Atoi_range (s : gostring) (v : Z) : Strconv.Atoi s = Some v -> Int.in_range v.
Proof.
  unfold Strconv.Atoi. intros H.
  destruct (match s with
            | [] => (false, s)
            | c :: t => if Ascii.eqb c "-" then (true, t)
                        else if Ascii.eqb c "+" then (false, t) else (false, s)
            end) as [negative ds].
  destruct ds as [|d ds]; [done|].
  destruct (Strconv.digits 0 (d :: ds)) as [n|]; [|done].
  destruct (Z.leb_spec Int.MinInt (if negative then - n else n)); [|done].
  destruct (Z.leb_spec (if negative then - n else n) Int.MaxInt); [|done].
  injection H as <-. by split.
Qed.

Lemma selectGroup_ok (group : gostring) (w w1 : World) (first last : Z) :
  selectGroup group w = (Ok (first, last), w1) ->
  exists response ls,
    lines (reader w) = response :: ls /\
    w1 = advance (at_lines ls w) [Send (GROUP group)] w /\
    Int.in_range first /\ Int.in_range last.
Proof.
  unfold selectGroup, bind, Fprintf_conn, emit, ReadString. simpl.
  destruct (lines (reader w)) as [|response ls]; [done|]. simpl.
  destruct (negb _); [done|].
  destruct (Z.of_nat _ <? 4); [done|].
  destruct (Strconv.Atoi (nth 2 _ _)) as [f|] eqn:Hf; [|done].
  destruct (Strconv.Atoi (nth 3 _ _)) as [l|] eqn:Hl; [|done].
  unfold ret. intros H. injection H as <- <- <-.
  exists response, ls. repeat split; try done; by eapply Atoi_range.
Qed.

Lemma getRecentArticles_select (E : Env) (group : gostring) (days : Z) (useLatest : bool)
    (B : Z) (w w1 : World) (first last : Z) :
  selectGroup group w = (Ok (first, last), w1) ->
  getRecentArticles E group days useLatest B w
  = match resume group useLatest first last w1 with
    | (Ok (Some first'), w2) => retrieve E group days useLatest B first' last w2
    | (Ok None, w2) => (Ok [], w2)
    | (Err e, w2) => (Err e, w2)
    | (Exhausted, w2) => (Exhausted, w2)
    end.
Proof.
  intros H. unfold getRecentArticles, bind. rewrite H. simpl.
  destruct (resume group useLatest first last w1) as [[[f|]|e|] w2]; done.
Qed.

Lemma resume_off (group : gostring) (first last : Z) (w : World) :
  resume group false first last w = (Ok (Some first), w).
Proof. reflexivity. Qed.

Lemma resume_fresh (group : gostring) (first last : Z) (w : World) :
  state w !! group = None -> resume group true first last w = (Ok (Some first), w).
Proof. intros H. unfold resume, bind, state_load. by rewrite H. Qed.

Lemma resume_saved (group : gostring) (first last : Z) (w : World) (saved : GroupState) :
  state w !! group = Some saved ->
  Int.in_range first -> Int.in_range last ->
  resume group true first last w
  = if decide (last <= LastArticle saved)
    then (Ok None, advance (reader w) [Stderr (NoNewArticles (LastArticle saved))] w)
    else if decide (first <= LastArticle saved)
    then (Ok (Some (LastArticle saved + 1)),
          advance (reader w)
                  [Stderr (Resuming (LastArticle saved + 1) (LastArticle saved))] w)
    else (Ok (Some first), w).
Proof.
  intros H Hfirst Hlast. unfold resume, bind, state_load. rewrite H.
  destruct (Z.geb_spec (LastArticle saved) last); [by rewrite decide_True by lia|].
  rewrite decide_False by lia.
  destruct (Z.geb_spec (LastArticle saved) first).
  - rewrite decide_True by lia.
    destruct (Z.ltb_spec (LastArticle saved) last); [|lia]. simpl.
    unfold Int.add. rewrite wrap_in_range; [done|]. unfold Int.in_range in *. lia.
  - by rewrite decide_False by lia.
Qed.

(** ** Runs as a whole *)

Lemma selectGroup_trace (group : gostring) (w w1 : World) (first last : Z) :
  selectGroup group w = (Ok (first, last), w1) ->
  trace w1 = trace w ++ [Send (GROUP group)] /\ state w1 = state w /\
  Int.in_range first /\ Int.in_range last.
Proof.
  intros H. destruct (selectGroup_ok _ _ _ _ _ H) as (response & ls & _ & -> & Hf & Hl).
  by split_and!.
Qed.

(** Every run of [getRecentArticles] ends within the bound of its loop. *)
Lemma getRecentArticles_bound (E : Env) (group : gostring) (days : Z) (useLatest : bool)
    (B : Z) (w : World) :
  fst (getRecentArticles E group days useLatest B w) <> Exhausted.
Proof.
  unfold getRecentArticles, bind.
  destruct (selectGroup group w) as [[[first last]|e|] w1] eqn:Hsel; simpl; [|done|].
  - destruct (resume group useLatest first last w1) as [[[first'|]|e|] w2] eqn:Hres;
      simpl; [|done|done|].
    + destruct (retrieve_effect E group days useLatest B first' last w2)
        as (res & w' & evs & -> & _ & _ & _ & _ & Hr). by destruct res.
    + revert Hres. unfold resume, bind, state_load, Fprintf_Stderr, emit, ret.
      destruct useLatest; [|done]. destruct (state w1 !! group) as [saved|]; [|done].
      destruct (_ >=? _); [done|]. by destruct (_ && _).
  - revert Hsel. unfold selectGroup, bind, Fprintf_conn, emit, ReadString, fail, ret. simpl.
    destruct (lines (reader w)); [done|]. simpl.
    destruct (negb _); [done|]. destruct (_ <? 4); [done|].
    destruct (Strconv.Atoi _); [|done]. by destruct (Strconv.Atoi _).
Qed.

Lemma completed_take {A} (res : Result A) (bs : list (Z * Z)) :
  exists n, completed res bs = take n bs.
Proof.
  unfold completed. destruct (aborted res).
  - exists (pred (length bs)). apply removelast_firstn_len.
  - exists (length bs). by rewrite firstn_all.
Qed.

Lemma completed_lookup {A} (res : Result A) (bs : list (Z * Z)) (i : nat) (x : Z * Z) :
  completed res bs !! i = Some x -> bs !! i = Some x.
Proof.
  destruct (completed_take res bs) as [n ->]. intros H.
  by apply lookup_take_Some in H as [H _].
Qed.

Lemma persists_iff (useLatest : bool) (first batchEnd : Z) :
  persists useLatest first batchEnd = true <-> useLatest = true /\ first < batchEnd.
Proof.
  unfold persists. rewrite andb_true_iff.
  destruct (Z.gtb_spec batchEnd first); split; intros [? ?]; split; try done; lia.
Qed.

Lemma Forall_filter_intro {A} (P : A -> Prop) (p : A -> bool) (l : list A) :
  (forall x, p x = true -> P x) -> Forall P (List.filter p l).
Proof.
  intros H. apply Forall_forall. intros x Hx.
  apply list_elem_of_In, List.filter_In in Hx as [_ Hx]. by apply H.
Qed.

Lemma Forall_filter_keep {A} (P : A -> Prop) (p : A -> bool) (l : list A) :
  Forall P l -> Forall P (List.filter p l).
Proof.
  rewrite !Forall_forall. intros H x Hx.
  apply list_elem_of_In, List.filter_In in Hx as [Hx _]. by apply H, list_elem_of_In.
Qed.

Lemma StronglySorted_filter {A} (R : A -> A -> Prop) (p : A -> bool) (l : list A) :
  StronglySorted R l -> StronglySorted R (List.filter p l).
Proof.
  induction 1 as [|x l Hs IH Hall]; simpl; [constructor|].
  destruct (p x); [|done]. constructor; [done|]. by apply Forall_filter_keep.
Qed.

Lemma StronglySorted_take {A} (R : A -> A -> Prop) (n : nat) (l : list A) :
  StronglySorted R l -> StronglySorted R (take n l).
Proof.
  intros H. rewrite <- (take_drop n l) in H.
  by apply StronglySorted_app_1_l in H.
Qed.

(** * The claims *)

(** ** C1: the batches *)




(** ** C2: the resume adjustment *)

(** C2. In resume mode, with a saved [last_article = L] for the group
    and the range [(first, last)] of the GROUP response: when
    [L >= last] the run returns the empty list and no error, having
    written the GROUP command and a diagnostic and nothing else (no
    XOVER, no ARTICLE); when [first <= L < last] the run is the
    retrieval of the range from [L + 1]; otherwise, [L] below [first],
    it is the retrieval of the range from [first]. *)
Theorem resume_adjustment (E : Env) (group : gostring) (days B : Z)
    (w w1 : World) (first last : Z) (saved : GroupState) :
  selectGroup group w = (Ok (first, last), w1) ->
  state w !! group = Some saved ->
  (last <= LastArticle saved ->
   getRecentArticles E group days true B w
   = (Ok [], advance (reader w1) [Stderr (NoNewArticles (LastArticle saved))] w1) /\
   trace (snd (getRecentArticles E group days true B w))
   = trace w ++ [Send (GROUP group); Stderr (NoNewArticles (LastArticle saved))]) /\
  (first <= LastArticle saved < last ->
   getRecentArticles E group days true B w
   = retrieve E group days true B (LastArticle saved + 1) last
       (advance (reader w1)
                [Stderr (Resuming (LastArticle saved + 1) (LastArticle saved))] w1)) /\
  (LastArticle saved < first -> LastArticle saved < last ->
   getRecentArticles E group days true B w = retrieve E group days true B first last w1).
Proof.
  intros Hsel Hst.
  destruct (selectGroup_ok _ _ _ _ _ Hsel) as (response & ls & Hl & Hw1 & Hfirst & Hlast).
  assert (Hst1 : state w1 !! group = Some saved) by (by rewrite Hw1).
  rewrite (getRecentArticles_select _ _ _ _ _ _ _ _ _ Hsel).
  rewrite (resume_saved _ _ _ _ _ Hst1 Hfirst Hlast).
  split; [|split].
  - intros HL. rewrite decide_True by done. split; [done|].
    rewrite Hw1. simpl. by rewrite <- app_assoc.
  - intros HL. rewrite decide_False by lia. by rewrite decide_True by lia.
  - intros HL1 HL2. rewrite decide_False by lia. by rewrite decide_False by lia.
Qed.

Lemma resume_adjustment_example :
  let st : gmap gostring GroupState :=
    {[ lit "g" := {| LastArticle := 1000; LastFetch := 0 |} ]} in
  let w := start (crlf "211 1000 1 1000 g" ++ empty_listing) st in
  fst (getRecentArticles example_env (lit "g") 1 true 500 w) = Ok [] /\
  trace (snd (getRecentArticles example_env (lit "g") 1 true 500 w))
  = [Send (GROUP (lit "g")); Stderr (NoNewArticles 1000)].
Proof.
  intros st w.
  destruct (proj1 (resume_adjustment example_env (lit "g") 1 500 w
                     (snd (selectGroup (lit "g") w)) 1 1000
                     {| LastArticle := 1000; LastFetch := 0 |}
                     ltac:(vm_compute; reflexivity) ltac:(vm_compute; reflexivity))
                  ltac:(simpl; lia)) as [Hrun Htrace].
  split; [by rewrite Hrun|exact Htrace].
Defined.

(** ** C3: the article that [fetchArticle] rebuilds *)

(** C3. When the status line starts with ["220 "] and the body is the
    lines [body] up to the first line [".\r\n"], [fetchArticle] returns
    the status line as read, then every body line unstuffed (a line
    that starts with two dots without the first one, any other line as
    it is, among them a line with one leading dot), then a terminator
    line of its own; the terminator that was read is taken from the
    stream and is not part of the result. *)
Theorem fetchArticle_reconstructs
    (articleNum response : gostring) (body ls : list gostring) (w : World) :
  lines (reader w) = response :: body ++ terminator :: ls ->
  GoStrings.HasPrefix response (lit "220 ") = true ->
  terminator ∉ body ->
  fetchArticle articleNum w
  = (Ok (response ++ concat (unstuff <$> body) ++ terminator),
     advance (at_lines ls w) [Send (ARTICLE articleNum)] w) /\
  (forall t, unstuff ("."%char :: "."%char :: t) = "."%char :: t) /\
  (forall c t, c <> "."%char -> unstuff ("."%char :: c :: t) = "."%char :: c :: t) /\
  (forall line, GoStrings.HasPrefix line (lit "..") = false -> unstuff line = line).
Proof.
  intros Hl Hp Hb. split; [by apply fetchArticle_ok|].
  split; [done|]. split.
  - intros c t Hc. simpl. destruct c as [[] [] [] [] [] [] [] []]; done.
  - intros line H. by rewrite <- unstuff_code, H.
Qed.

Lemma fetchArticle_reconstructs_example :
  fst (fetchArticle (lit "7")
         (start (crlf "220 7 <a@b> article" ++ crlf "Hello" ++ crlf "..escaped"
                 ++ crlf "World" ++ crlf "." ++ crlf "next") ∅))
  = Ok (crlf "220 7 <a@b> article" ++ crlf "Hello" ++ crlf ".escaped"
        ++ crlf "World" ++ crlf ".").
Proof.
  rewrite (proj1 (fetchArticle_reconstructs (lit "7") (crlf "220 7 <a@b> article")
                    [crlf "Hello"; crlf "..escaped"; crlf "World"] [crlf "next"]
                    (start (crlf "220 7 <a@b> article" ++ crlf "Hello" ++ crlf "..escaped"
                            ++ crlf "World" ++ crlf "." ++ crlf "next") ∅)
                    eq_refl eq_refl
                    ltac:(intros H; repeat (apply elem_of_cons in H as [H|H]; [discriminate|]);
                          by apply elem_of_nil in H))).
  reflexivity.
Defined.

(** ** C4: the line that ends a multi-line response *)

(** C4, as stated, fails: with bare LF as the line terminator the line
    [".\n"] does not end the body. The article is read to the end of
    the stream and the fetch fails with a read error; the listing is
    read to the end of the stream and the run fails with "xover read
    failed". *)
Lemma bare_LF_terminator_not_recognized :
  fst (fetchArticle (lit "7")
         (start (lf "220 7 <a@b> article" ++ lf "Hello" ++ lf ".") ∅))
  = Err (ArticleReadError (lit "7")) /\
  fst (getRecentArticles example_env (lit "g") 0 false 500
         (start (lf "211 1 7 7 g" ++ lf "224 Overview information follows"
                 ++ tabbed [LF] ["7"; "subject"; "from"; "date"; "<a@b>"; ""; "120"; "3"]
                 ++ lf ".") ∅))
  = Err XoverReadFailed.
Proof. split; vm_compute; reflexivity. Qed.

(** C4, amended. Lines are delimited by LF, and the only line that
    ends a multi-line response is [".\r\n"]: a fetch succeeds, and a
    listing is read, exactly up to the first such line, the lines
    before it being the body; the line [".\n"] is a body line like any
    other (copied to the article, skipped in the listing). An article
    that is returned ends with [".\r\n"], whatever ended its lines. *)
Theorem terminator_is_dot_CRLF :
  (forall articleNum w article w',
     fetchArticle articleNum w = (Ok article, w') ->
     exists response body ls,
       lines (reader w) = response :: body ++ terminator :: ls /\
       (terminator ∉ body) /\ lines (reader w') = ls /\
       article = response ++ concat (unstuff <$> body) ++ terminator) /\
  (forall E days cutoff w articleNumbers w',
     forLines (listingLine E days cutoff) [] w = (Ok (Some articleNumbers), w') ->
     exists body ls,
       lines (reader w) = body ++ terminator :: ls /\
       (terminator ∉ body) /\ lines (reader w') = ls) /\
  (forall article, articleLine (lf ".") article = inl (article ++ lf ".")) /\
  (forall E days cutoff articleNumbers,
     listingLine E days cutoff (lf ".") articleNumbers = inl articleNumbers).
Proof.
  split; [|split; [|split]].
  - intros articleNum w article w' H.
    destruct (fetchArticle_cases articleNum w)
      as [Hl|[(response & ls & Hl & Hp)|[(response & body & Hl & Hp & Hb)
         |(response & body & ls & Hl & Hp & Hb)]]].
    + by rewrite (fetchArticle_no_status _ _ Hl) in H.
    + by rewrite (fetchArticle_unavailable _ _ _ _ Hl Hp) in H.
    + by rewrite (fetchArticle_cut _ _ _ _ Hl Hp Hb) in H.
    + rewrite (fetchArticle_ok _ _ _ _ _ Hl Hp Hb) in H. injection H as <- <-.
      by exists response, body, ls.
  - intros E days cutoff w nums w' H. unfold forLines in H.
    destruct (for_lines _ _ _) as [[r ls]|] eqn:Hf; [|done].
    injection H as <- <-.
    destruct (for_lines_inv _ _ (listingLine_eq E days cutoff) _ _ _ _ Hf)
      as (body & Hl & Hb & _).
    by exists body, ls.
  - intros article. reflexivity.
  - intros E days cutoff nums. reflexivity.
Qed.

Lemma terminator_is_dot_CRLF_example :
  let w := start (lf "220 7 <a@b> article" ++ lf "Hello" ++ lf "."
                  ++ crlf "." ++ crlf "next") ∅ in
  exists response body ls,
    lines (reader w) = response :: body ++ terminator :: ls /\
    (terminator ∉ body) /\ lines (reader (snd (fetchArticle (lit "7") w))) = ls /\
    lf "220 7 <a@b> article" ++ lf "Hello" ++ lf "." ++ crlf "."
    = response ++ concat (unstuff <$> body) ++ terminator.
Proof.
  intros w.
  apply (proj1 terminator_is_dot_CRLF (lit "7") w
               (lf "220 7 <a@b> article" ++ lf "Hello" ++ lf "." ++ crlf ".")
               (snd (fetchArticle (lit "7") w))).
  vm_compute. reflexivity.
Defined.

(** ** C5: a run without articles *)




(** ** C6: the age filter of the listing *)

(** C6. The listing of a batch keeps, in order, the first field of
    every line that is [kept]. Under an age filter ([0 < days]) a line
    is kept exactly when it is well formed and its field 4, trimmed and
    cut before its first [" ("], is read as a date that is not before
    the cutoff; a date that is not read, or is before the cutoff,
    excludes the line. With [days = 0] every well-formed line is kept.
    The cutoff of [retrieve] is [now.AddDate(0, 0, -days)]. *)
Theorem listing_age_filter (E : Env) (days : Z) (cutoff : Time)
    (body ls : list gostring) (w : World) :
  lines (reader w) = body ++ terminator :: ls ->
  terminator ∉ body ->
  forLines (listingLine E days cutoff) [] w
  = (Ok (Some (first_field <$> List.filter (kept E days cutoff) body)),
     set_reader (at_lines ls w) w) /\
  (forall line, 0 < days ->
     (kept E days cutoff line = true <->
      well_formed line = true /\
      exists date,
        time_Parse E (lit "Mon, 2 Jan 2006 15:04:05 -0700")
                   (before_paren (GoStrings.TrimSpace (date_field line))) = Some date /\
        ~ date < cutoff)) /\
  (forall line, days = 0 -> kept E days cutoff line = well_formed line) /\
  (forall dateStr,
     parseDate E dateStr
     = time_Parse E (lit "Mon, 2 Jan 2006 15:04:05 -0700")
                  (before_paren (GoStrings.TrimSpace dateStr))) /\
  (forall group useLatest B first last,
     0 < days -> Int.in_range days ->
     retrieve E group days useLatest B first last w
     = (let* now := Now E in
        let* n := rounds in
        let* articles := batches n E group days useLatest B first last
                                 (time_AddDate E now 0 0 (- days)) first [] in
        if Nat.eqb (length articles) 0 then fail NoArticlesFound else ret articles) w).
Proof.
  intros Hl Hb. split; [by apply listing_ok|]. split; [|split; [|split]].
  - intros line Hd. unfold kept, recent.
    destruct (Z.leb_spec days 0); [lia|]. simpl.
    destruct (well_formed line); simpl; [|by split; [|intros [? _]]].
    destruct (time_Parse _ _ _) as [date|].
    + destruct (Z.ltb_spec date cutoff); simpl.
      * split; [done|]. intros [_ (d & Hd' & Hn)]. injection Hd' as <-. lia.
      * split; [|done]. intros _. split; [done|]. exists date. split; [done|lia].
    + split; [done|]. by intros [_ (d & Hd' & _)].
  - intros line ->. unfold kept. simpl. by rewrite andb_true_r.
  - apply parseDate_eq.
  - intros group useLatest B first last Hd Hr. unfold retrieve, Int.neg.
    rewrite wrap_in_range; [done|]. unfold Int.in_range, Int.MinInt, Int.MaxInt in *. lia.
Qed.

Lemma listing_age_filter_example :
  fst (forLines (listingLine example_env 5 (7 * day)) []
         (start (tabbed CRLF ["1"; "old"; "from"; "Thu, 1 Jan 1970 00:00:00 +0000"; "<1@b>"; ""; "120"; "3"]
                 ++ tabbed CRLF ["2"; "new"; "from"; " Sun, 11 Jan 1970 00:00:00 +0000 (UTC)"; "<2@b>"; ""; "120"; "3"]
                 ++ tabbed CRLF ["3"; "undated"; "from"; "yesterday"; "<3@b>"; ""; "120"; "3"]
                 ++ tabbed CRLF ["4"; "short"]
                 ++ crlf "." ++ crlf "next") ∅))
  = Ok (Some [lit "2"]).
Proof.
  rewrite (proj1 (listing_age_filter example_env 5 (7 * day)
    [tabbed CRLF ["1"; "old"; "from"; "Thu, 1 Jan 1970 00:00:00 +0000"; "<1@b>"; ""; "120"; "3"];
     tabbed CRLF ["2"; "new"; "from"; " Sun, 11 Jan 1970 00:00:00 +0000 (UTC)"; "<2@b>"; ""; "120"; "3"];
     tabbed CRLF ["3"; "undated"; "from"; "yesterday"; "<3@b>"; ""; "120"; "3"];
     tabbed CRLF ["4"; "short"]]
    [crlf "next"]
    (start (tabbed CRLF ["1"; "old"; "from"; "Thu, 1 Jan 1970 00:00:00 +0000"; "<1@b>"; ""; "120"; "3"]
            ++ tabbed CRLF ["2"; "new"; "from"; " Sun, 11 Jan 1970 00:00:00 +0000 (UTC)"; "<2@b>"; ""; "120"; "3"]
            ++ tabbed CRLF ["3"; "undated"; "from"; "yesterday"; "<3@b>"; ""; "120"; "3"]
            ++ tabbed CRLF ["4"; "short"]
            ++ crlf "." ++ crlf "next") ∅)
    eq_refl
    ltac:(intros H; repeat (apply elem_of_cons in H as [H|H]; [discriminate|]);
          by apply elem_of_nil in H))).
  vm_compute. reflexivity.
Defined.

(** ** C7: the bookmark after a batch *)

(** C7, as stated, fails where the batch arithmetic leaves the range of
    [int]: for the range (2, 10) and the batch size 9223372036854775807
    in resume mode the run goes through three batches; the first ends
    at the least [int] and the second at -1, neither of them at the
    start 2 of the range, and neither is persisted: the only position
    written is 10. *)
Lemma unsaved_batches_after_wrap :
  let B := 9223372036854775807 in
  let run := retrieve example_env (lit "g") 0 true B 2 10
               (start (empty_listing ++ empty_listing ++ empty_listing) ∅) in
  2 <= 10 /\ 1 <= B /\
  fst run = Err NoArticlesFound /\
  xovers (trace (snd run))
  = [(2, -9223372036854775808); (-9223372036854775807, -1); (0, 10)] /\
  (saves (lit "g") (trace (snd run))).*1 = [10] /\
  -9223372036854775808 <> 2 /\ -1 <> 2.
Proof. vm_compute. repeat split; try reflexivity; discriminate. Qed.

(** C7, amended. After a batch that ends at [batchEnd], the record
    [{last_article: batchEnd, last_fetch: now}] is put in the table (a
    table that is not nil) and the table handed to [os.WriteFile], for
    the path [filepath.Join(".", group + ".json")], exactly when resume
    mode is on and [batchEnd > first], [first] being the start of the
    whole range as [retrieve] received it (after the resume
    adjustment); else nothing changes. Over a run: the [last_article]
    values written are
    the ends of the completed batches that satisfy the condition, in
    order; every failed write is followed by its warning; and with any
    other outcomes of the writes the result of the run, the reader, the
    table in memory and the rest of the trace are the same. For
    [1 <= B] and batch arithmetic within [int] ([no_wrap]), the only
    completed batch that is not persisted in resume mode is a first
    batch that ends at [first]. *)
Theorem bookmark_policy (E : Env) (group : gostring) (days : Z) (useLatest : bool)
    (B first last : Z) (w : World) (res : Result (list gostring)) (w' : World) :
  retrieve E group days useLatest B first last w = (res, w') ->
  (forall batchEnd w0,
     bookmark E group useLatest first batchEnd w0
     = (Ok tt, if persists useLatest first batchEnd
               then bookmarked E group batchEnd w0 else w0)) /\
  (forall batchEnd,
     persists useLatest first batchEnd = true <-> useLatest = true /\ first < batchEnd) /\
  exists evs,
    trace w' = trace w ++ evs /\
    (saves group evs).*1
    = List.filter (persists useLatest first) (completed res (xovers evs)).*2 /\
    logged evs /\
    (forall f,
       fst (retrieve (with_writes f E) group days useLatest B first last w) = res /\
       view (snd (retrieve (with_writes f E) group days useLatest B first last w))
       = view w') /\
    (1 <= B -> Int.in_range first -> no_wrap B first last ->
     forall i a b, completed res (xovers evs) !! i = Some (a, b) ->
       (persists true first b = false <-> i = O /\ b = first)).
Proof.
  intros Hrun. split; [intros; apply bookmark_eq|]. split; [apply persists_iff|].
  destruct (retrieve_effect E group days useLatest B first last w)
    as (res0 & w0 & evs & Hrun0 & Ht & Hch & Hlog & Hsv & _).
  rewrite Hrun in Hrun0. injection Hrun0 as <- <-.
  exists evs. split; [done|]. split; [done|]. split; [done|]. split.
  - intros f.
    destruct (Rel_retrieve E f group days useLatest B first last w w eq_refl) as [Hr Hv].
    rewrite Hrun in Hr, Hv. simpl in *. by split.
  - intros HB [Hmin _] Hno i a b Hi. apply completed_lookup in Hi.
    assert (Hpre : xovers evs `prefix_of` tile B first last) by (by apply chain_prefix).
    pose proof (prefix_lookup_Some _ _ _ _ Hi Hpre) as Hti.
    destruct (tile_from_first _ _ _ _ _ _ _ HB Hti) as [Hle Hi0].
    unfold persists. simpl. destruct (Z.gtb_spec b first); split.
    + done.
    + intros [_ ->]. lia.
    + intros _. assert (b = first) by lia. by split; [apply Hi0|].
    + done.
Qed.

Lemma bookmark_policy_example :
  let w := start (empty_listing ++ empty_listing ++ empty_listing) ∅ in
  exists evs,
    trace (snd (retrieve example_env (lit "g") 0 true 1 1 3 w)) = trace w ++ evs /\
    xovers evs = [(1, 1); (2, 2); (3, 3)] /\
    (saves (lit "g") evs).*1 = [2; 3].
Proof.
  intros w.
  destruct (bookmark_policy example_env (lit "g") 0 true 1 1 3 w
              (fst (retrieve example_env (lit "g") 0 true 1 1 3 w))
              (snd (retrieve example_env (lit "g") 0 true 1 1 3 w))
              ltac:(by destruct (retrieve example_env (lit "g") 0 true 1 1 3 w)))
    as (_ & _ & evs & Ht & Hsv & _).
  exists evs. split; [exact Ht|].
  assert (He : evs = trace (snd (retrieve example_env (lit "g") 0 true 1 1 3 w)))
    by (by rewrite Ht).
  split; [rewrite He; vm_compute; reflexivity|].
  rewrite Hsv, He. vm_compute. reflexivity.
Defined.

(** ** C8: the saved position grows *)

(** C8, as stated, fails where the batch arithmetic leaves the range of
    [int]: for the range (0, 9223372036854775807) and the batch size
    4611686018427387905 the first batch writes the position
    4611686018427387904 and the fourth batch writes the position 3. *)
Lemma saved_position_wraps_around :
  let run := getRecentArticles example_env (lit "g") 0 true 4611686018427387905
               (start (crlf "211 9 0 9223372036854775807 g" ++ empty_listing
                       ++ empty_listing ++ empty_listing ++ empty_listing) ∅) in
  0 <= 9223372036854775807 /\ 1 <= 4611686018427387905 /\
  saves (lit "g") (trace (snd run)) = [(4611686018427387904, true); (3, true)] /\
  3 < 4611686018427387904.
Proof. vm_compute. repeat split; try reflexivity; discriminate. Qed.

(** C8, amended. In a run every position written for the group is
    above the position the table held for the group when the run began
    (the position loaded from the state file); and for [1 <= B] and
    [last + B <= MaxInt], where the batch arithmetic stays within
    [int], each position written in the run is above all those written
    before it in the run. *)
Theorem saved_position_grows (E : Env) (group : gostring) (days : Z) (useLatest : bool)
    (B : Z) (w w1 : World) (first last : Z) (res : Result (list gostring)) (w' : World) :
  selectGroup group w = (Ok (first, last), w1) ->
  getRecentArticles E group days useLatest B w = (res, w') ->
  exists evs,
    trace w' = trace w ++ evs /\
    (forall saved, state w !! group = Some saved ->
       Forall (fun v => LastArticle saved < v) (saves group evs).*1) /\
    (1 <= B -> last + B <= Int.MaxInt -> StronglySorted Z.lt (saves group evs).*1).
Proof.
  intros Hsel Hrun.
  destruct (selectGroup_trace _ _ _ _ _ Hsel) as (Ht1 & Hst1 & Hfirst & Hlast).
  rewrite (getRecentArticles_select _ _ _ _ _ _ _ _ _ Hsel) in Hrun.
  assert (Hgo : forall first1 w2 pre,
    Int.in_range first1 -> trace w2 = trace w ++ pre -> saves group pre = [] ->
    (forall saved, useLatest = true -> state w !! group = Some saved ->
       LastArticle saved < first1) ->
    retrieve E group days useLatest B first1 last w2 = (res, w') ->
    exists evs,
      trace w' = trace w ++ evs /\
      (forall saved, state w !! group = Some saved ->
         Forall (fun v => LastArticle saved < v) (saves group evs).*1) /\
      (1 <= B -> last + B <= Int.MaxInt -> StronglySorted Z.lt (saves group evs).*1)).
  { intros first1 w2 pre [Hmin _] Ht2 Hsp Hbelow Hretr.
    destruct (retrieve_effect E group days useLatest B first1 last w2)
      as (res0 & w0 & evs & Hrun0 & Ht & Hch & _ & Hsv & _).
    rewrite Hretr in Hrun0. injection Hrun0 as <- <-.
    exists (pre ++ evs). split; [by rewrite Ht, Ht2, <- app_assoc|].
    rewrite saves_app, Hsp. simpl. rewrite Hsv. split.
    - intros saved Hst. apply Forall_filter_intro. intros v Hv.
      apply persists_iff in Hv as [Hu Hv]. specialize (Hbelow saved Hu Hst). lia.
    - intros HB Hno. apply StronglySorted_filter.
      destruct (completed_take res (xovers evs)) as [n ->].
      rewrite fmap_take. apply StronglySorted_take.
      assert (Hpre : xovers evs `prefix_of` tile B first1 last)
        by (apply chain_prefix; try done; by apply no_wrap_below).
      destruct Hpre as [rest Hrest].
      destruct (tile_from_ascending B last (Z.to_nat (last - first1 + 1)) first1 HB)
        as [Hasc _].
      fold (tile B first1 last) in Hasc. rewrite Hrest, fmap_app in Hasc.
      by apply StronglySorted_app_1_l in Hasc. }
  destruct useLatest.
  - destruct (state w !! group) as [saved|] eqn:Hst.
    + rewrite (resume_saved _ _ _ _ saved) in Hrun by (by rewrite ?Hst1).
      destruct (decide (last <= LastArticle saved)) as [HL|HL].
      * injection Hrun as <- <-.
        exists [Send (GROUP group); Stderr (NoNewArticles (LastArticle saved))].
        split; [simpl; by rewrite Ht1, <- app_assoc|]. split; intros; constructor.
      * destruct (decide (first <= LastArticle saved)).
        -- apply (Hgo (LastArticle saved + 1)
                      (advance (reader w1)
                         [Stderr (Resuming (LastArticle saved + 1) (LastArticle saved))] w1)
                      [Send (GROUP group);
                       Stderr (Resuming (LastArticle saved + 1) (LastArticle saved))]);
             [| |done| |exact Hrun].
           ++ unfold Int.in_range in *. lia.
           ++ simpl. by rewrite Ht1, <- app_assoc.
           ++ intros s0 _ Hs0. injection Hs0 as <-. lia.
        -- apply (Hgo first w1 [Send (GROUP group)]); try done.
           intros s0 _ Hs0. injection Hs0 as <-. lia.
    + rewrite resume_fresh in Hrun by (by rewrite Hst1).
      by apply (Hgo first w1 [Send (GROUP group)]).
  - rewrite resume_off in Hrun. by apply (Hgo first w1 [Send (GROUP group)]).
Qed.

Lemma saved_position_grows_example :
  let st : gmap gostring GroupState :=
    {[ lit "g" := {| LastArticle := 2; LastFetch := 0 |} ]} in
  let w := start (crlf "211 7 1 7 g" ++ empty_listing ++ empty_listing ++ empty_listing) st in
  exists evs,
    trace (snd (getRecentArticles example_env (lit "g") 0 true 2 w)) = trace w ++ evs /\
    (saves (lit "g") evs).*1 = [4; 6; 7] /\
    Forall (fun v => 2 < v) (saves (lit "g") evs).*1 /\
    StronglySorted Z.lt (saves (lit "g") evs).*1.
Proof.
  intros st w.
  destruct (saved_position_grows example_env (lit "g") 0 true 2 w
              (snd (selectGroup (lit "g") w)) 1 7
              (fst (getRecentArticles example_env (lit "g") 0 true 2 w))
              (snd (getRecentArticles example_env (lit "g") 0 true 2 w))
              ltac:(vm_compute; reflexivity)
              ltac:(by destruct (getRecentArticles example_env (lit "g") 0 true 2 w)))
    as (evs & Ht & Hbelow & Hsorted).
  exists evs. split; [exact Ht|].
  assert (He : evs = trace (snd (getRecentArticles example_env (lit "g") 0 true 2 w)))
    by (by rewrite Ht).
  split; [rewrite He; vm_compute; reflexivity|]. split.
  - apply (Hbelow {| LastArticle := 2; LastFetch := 0 |}). vm_compute. reflexivity.
  - apply Hsorted; [lia|by vm_compute].
Defined.

(** ** C9: a failed fetch does not end the batch *)

(** C9. A fetch fails when the status line does not start with
    ["220 "], when the status line cannot be read, and when the stream
    ends inside the body. Whatever the failure, the loop over the
    article numbers writes a warning and goes on with the next number,
    with the articles fetched so far as they were; the warning about
    a refused article quotes the status line without the white space
    around it. The loop itself
    never fails: it asks for every number, in order, and returns the
    articles it had, followed by those it fetched. *)
Theorem fetch_failure_is_skipped (num : gostring) (rest articles : list gostring) (w : World) :
  (forall response ls,
     lines (reader w) = response :: ls ->
     GoStrings.HasPrefix response (lit "220 ") = false ->
     fst (fetchArticle num w)
     = Err (ArticleUnavailable num (GoStrings.TrimSpace response))) /\
  (lines (reader w) = [] -> fst (fetchArticle num w) = Err (FetchFailed num)) /\
  (forall response body,
     lines (reader w) = response :: body ->
     GoStrings.HasPrefix response (lit "220 ") = true -> terminator ∉ body ->
     fst (fetchArticle num w) = Err (ArticleReadError num)) /\
  (forall err w1,
     fetchArticle num w = (Err err, w1) ->
     fetchArticles (num :: rest) articles w
     = fetchArticles rest articles (advance (reader w1) [Stderr (Warning err)] w1)) /\
  (forall article w1,
     fetchArticle num w = (Ok article, w1) ->
     fetchArticles (num :: rest) articles w
     = fetchArticles rest (articles ++ [article]) w1) /\
  (forall nums, exists fetched r evs,
     fetchArticles nums articles w = (Ok (articles ++ fetched), advance r evs w) /\
     requested evs = nums /\
     (length fetched + length (warnings evs) = length nums)%nat).
Proof.
  split; [|split; [|split; [|split; [|split]]]].
  - intros response ls Hl Hp. by rewrite (fetchArticle_unavailable _ _ _ _ Hl Hp).
  - intros Hl. by rewrite (fetchArticle_no_status _ _ Hl).
  - intros response body Hl Hp Hb. by rewrite (fetchArticle_cut _ _ _ _ Hl Hp Hb).
  - intros err w1. apply fetchArticles_failed.
  - intros article w1. apply fetchArticles_fetched.
  - intros nums.
    destruct (fetchArticles_effect nums articles w)
      as (fetched & r & evs & H & _ & Hreq & Hcount & _).
    by exists fetched, r, evs.
Qed.

Lemma fetch_failure_is_skipped_example :
  let w := start (crlf "430 no such article"
                  ++ crlf "220 8 <b@c> article" ++ crlf "Hello" ++ crlf ".") ∅ in
  fetchArticles [lit "7"; lit "8"] [lit "kept"] w
  = fetchArticles [lit "8"] [lit "kept"]
      (advance (reader (snd (fetchArticle (lit "7") w)))
               [Stderr (Warning (ArticleUnavailable (lit "7") (lit "430 no such article")))]
               (snd (fetchArticle (lit "7") w))) /\
  fst (fetchArticles [lit "7"; lit "8"] [lit "kept"] w)
  = Ok [lit "kept"; crlf "220 8 <b@c> article" ++ crlf "Hello" ++ crlf "."].
Proof.
  intros w. split.
  - apply (proj1 (proj2 (proj2 (proj2
             (fetch_failure_is_skipped (lit "7") [lit "8"] [lit "kept"] w))))).
    vm_compute. reflexivity.
  - vm_compute. reflexivity.
Defined.

(** ** C10: the listing is not dot-unstuffed *)

(** C10. The listing keeps the first tab-delimited field of a line as
    it was received: a listing line is never changed before it is
    split, so the field of a line that starts with two dots starts
    with two dots; the loop of [fetchArticle] is the one that drops
    the first of two leading dots. *)
Theorem listing_keeps_dots (E : Env) (days : Z) (cutoff : Time)
    (body ls : list gostring) (w : World) :
  lines (reader w) = body ++ terminator :: ls ->
  terminator ∉ body ->
  forLines (listingLine E days cutoff) [] w
  = (Ok (Some (first_field <$> List.filter (kept E days cutoff) body)),
     set_reader (at_lines ls w) w) /\
  (forall line, nth 0 (GoStrings.Split line TAB) [] = first_field line) /\
  (forall line, exists rest, line = first_field line ++ rest) /\
  (forall line, GoStrings.HasPrefix line (lit "..") = true ->
     line <> terminator /\ GoStrings.HasPrefix (first_field line) (lit "..") = true) /\
  (forall t article,
     articleLine ("."%char :: "."%char :: t) article = inl (article ++ "."%char :: t)).
Proof.
  intros Hl Hb. split; [by apply listing_ok|]. split; [apply Split_first|].
  split; [|split].
  - induction line as [|c line [rest IH]]; [by exists []|]. simpl.
    destruct (Ascii.eqb c TAB); [by exists (c :: line)|].
    exists rest. simpl. by rewrite <- IH.
  - intros line H. split; [|by apply first_field_dots].
    apply HasPrefix_inv in H as [t ->]. done.
  - intros t article. by rewrite articleLine_eq, decide_False.
Qed.

Lemma listing_keeps_dots_example :
  fst (forLines (listingLine example_env 0 0) []
         (start (tabbed CRLF ["..7"; "subject"; "from"; "date"; "<a@b>"; ""; "120"; "3"]
                 ++ crlf ".") ∅))
  = Ok (Some [lit "..7"]).
Proof.
  rewrite (proj1 (listing_keeps_dots example_env 0 0
    [tabbed CRLF ["..7"; "subject"; "from"; "date"; "<a@b>"; ""; "120"; "3"]] []
    (start (tabbed CRLF ["..7"; "subject"; "from"; "date"; "<a@b>"; ""; "120"; "3"]
            ++ crlf ".") ∅)
    eq_refl
    ltac:(intros H; repeat (apply elem_of_cons in H as [H|H]; [discriminate|]);
          by apply elem_of_nil in H))).
  vm_compute. reflexivity.
Defined.

(** ** The library functions on examples *)

Example Fields_group_line :
  GoStrings.Fields (crlf "211 1200 1 1200 alt.test")
  = [lit "211"; lit "1200"; lit "1"; lit "1200"; lit "alt.test"].
Proof. vm_compute. reflexivity. Qed.

Example TrimSpace_unicode :
  GoStrings.TrimSpace (lit "  " ++ GoStrings.utf8 160 ++ lit "a b" ++ GoStrings.utf8 8232 ++ CRLF)
  = lit "a b".
Proof. vm_compute. reflexivity. Qed.

Example Atoi_examples :
  Strconv.Atoi (lit "-12") = Some (-12) /\ Strconv.Atoi (lit "+7") = Some 7 /\
  Strconv.Atoi (lit "9223372036854775807") = Some Int.MaxInt /\
  Strconv.Atoi (lit "9223372036854775808") = None /\
  Strconv.Atoi (lit "12a") = None /\ Strconv.Atoi (lit "-") = None /\
  Strconv.Atoi [] = None.
Proof. vm_compute. repeat split; reflexivity. Qed.

Example wire_examples :
  wire (XOVER 501 1000) = crlf "XOVER 501-1000" /\
  wire (GROUP (lit "alt.test")) = crlf "GROUP alt.test" /\
  wire (ARTICLE (lit "7")) = crlf "ARTICLE 7".
Proof. vm_compute. repeat split; reflexivity. Qed.

Example NewReader_example :
  NewReader (crlf "211 2 1 2 g" ++ lf "." ++ lit "cut")
  = {| lines := [crlf "211 2 1 2 g"; lf "."]; partial := lit "cut" |}.
Proof. vm_compute. reflexivity. Qed.

(** * Further properties of the engine *)

(** ** The rounds of a run *)

Lemma HasPrefix_app_l (s pre t : gostring) :
  GoStrings.HasPrefix s pre = true -> GoStrings.HasPrefix (s ++ t) pre = true.
Proof.
  revert s. induction pre as [|p pre IH]; intros s H; [apply HasPrefix_nil|].
  destruct s as [|c s]; [done|]. rewrite <- app_comm_cons, HasPrefix_cons.
  rewrite HasPrefix_cons in H. apply andb_true_iff in H as [-> Hs]. simpl. by apply IH.
Qed.

Lemma sends_app (t1 t2 : list Event) : sends (t1 ++ t2) = sends t1 ++ sends t2.
Proof. apply omap_app. Qed.

Lemma write_calls_app (t1 t2 : list Event) :
  write_calls (t1 ++ t2) = write_calls t1 ++ write_calls t2.
Proof. apply omap_app. Qed.

(** What the loop over the article numbers leaves: the articles it had
    and the delimited articles it fetched, the events of the fetches,
    and a reader further down the same lines. *)
Lemma fetchArticle_shape (articleNum : gostring) (w : World) :
  exists res r,
    fetchArticle articleNum w = (res, advance r [Send (ARTICLE articleNum)] w) /\
    lines r `suffix_of` lines (reader w) /\
    match res with
    | Ok article => delimited article
    | Err _ => True
    | Exhausted => False
    end.
Proof.
  destruct (fetchArticle_cases articleNum w)
    as [Hl|[(response & ls & Hl & Hp)|[(response & body & Hl & Hp & Hb)
       |(response & body & ls & Hl & Hp & Hb)]]].
  - rewrite (fetchArticle_no_status _ _ Hl). eexists _, _. split; [done|].
    split; [apply suffix_nil|done].
  - rewrite (fetchArticle_unavailable _ _ _ _ Hl Hp). eexists _, _. split; [done|].
    split; [|done]. rewrite Hl. simpl. by apply suffix_cons_r.
  - rewrite (fetchArticle_cut _ _ _ _ Hl Hp Hb). eexists _, _. split; [done|].
    split; [apply suffix_nil|done].
  - rewrite (fetchArticle_ok _ _ _ _ _ Hl Hp Hb). eexists _, _. split; [done|]. split.
    + rewrite Hl. simpl. apply suffix_cons_r.
      exists (body ++ [terminator]). by rewrite <- app_assoc.
    + split; [by apply HasPrefix_app_l|].
      exists (response ++ concat (unstuff <$> body)). by rewrite <- app_assoc.
Qed.

Lemma fetchArticles_shape (nums articles : list gostring) (w : World) :
  exists fetched r evs,
    fetchArticles nums articles w = (Ok (articles ++ fetched), advance r evs w) /\
    forallb fetch_event evs = true /\
    requested evs = nums /\
    Forall delimited fetched /\
    lines r `suffix_of` lines (reader w).
Proof.
  revert articles w. induction nums as [|num nums IH]; intros articles w.
  - exists [], (reader w), []. simpl. unfold ret, advance. rewrite !app_nil_r.
    by destruct w.
  - destruct (fetchArticle_shape num w) as (res & r1 & Hf & Hsuf & Hres).
    destruct res as [article|e|]; [| |done].
    + rewrite (fetchArticles_fetched _ _ _ _ _ _ Hf).
      destruct (IH (articles ++ [article]) (advance r1 [Send (ARTICLE num)] w))
        as (fetched & r & evs & -> & Hev & Hreq & Hall & Hl).
      exists (article :: fetched), r, (Send (ARTICLE num) :: evs).
      rewrite advance_advance, <- app_assoc. simpl in *.
      split_and!; try done.
      * unfold requested in *. simpl. by rewrite Hreq.
      * by constructor.
      * by etrans.
    + rewrite (fetchArticles_failed _ _ _ _ _ _ Hf).
      destruct (IH articles (advance (reader (advance r1 [Send (ARTICLE num)] w))
                                     [Stderr (Warning e)]
                                     (advance r1 [Send (ARTICLE num)] w)))
        as (fetched & r & evs & -> & Hev & Hreq & Hall & Hl).
      exists fetched, r, (Send (ARTICLE num) :: Stderr (Warning e) :: evs).
      rewrite !advance_advance. simpl in *.
      split_and!; try done.
      * unfold requested in *. simpl. by rewrite Hreq.
      * by etrans.
Qed.

(** The four ways of a round of the loop over the batches. *)
Lemma batch_no_header (E : Env) (group : gostring) (days : Z) (useLatest : bool)
    (first : Z) (cutoff : Time) (s e : Z) (articles : list gostring) (w : World) :
  lines (reader w) = [] ->
  batch E group days useLatest first cutoff s e articles w
  = (Err XoverHeaderReadFailed, advance at_end [Send (XOVER s e)] w).
Proof.
  intros Hl. unfold batch, bind, Fprintf_conn, emit, ReadString. simpl. by rewrite Hl.
Qed.

Lemma batch_refused (E : Env) (group : gostring) (days : Z) (useLatest : bool)
    (first : Z) (cutoff : Time) (s e : Z) (articles : list gostring) (w : World)
    (xoverHeader : gostring) (ls : list gostring) :
  lines (reader w) = xoverHeader :: ls ->
  GoStrings.HasPrefix xoverHeader (lit "224 ") = false ->
  batch E group days useLatest first cutoff s e articles w
  = (Err (XoverCommandFailed (GoStrings.TrimSpace xoverHeader)),
     advance (at_lines ls w) [Send (XOVER s e)] w).
Proof.
  intros Hl Hp. unfold batch, bind, Fprintf_conn, emit, ReadString. simpl.
  by rewrite Hl, Hp.
Qed.

Lemma batch_cut (E : Env) (group : gostring) (days : Z) (useLatest : bool)
    (first : Z) (cutoff : Time) (s e : Z) (articles : list gostring) (w : World)
    (xoverHeader : gostring) (ls : list gostring) :
  lines (reader w) = xoverHeader :: ls ->
  GoStrings.HasPrefix xoverHeader (lit "224 ") = true ->
  terminator ∉ ls ->
  batch E group days useLatest first cutoff s e articles w
  = (Err XoverReadFailed, advance at_end [Send (XOVER s e)] w).
Proof.
  intros Hl Hp Hb. unfold batch, bind, Fprintf_conn, emit, ReadString. simpl.
  rewrite Hl, Hp. simpl.
  match goal with |- context [forLines ?b ?i ?w0] =>
    rewrite (listing_cut E days cutoff w0) by done
  end.
  reflexivity.
Qed.

Lemma batch_listed (E : Env) (group : gostring) (days : Z) (useLatest : bool)
    (first : Z) (cutoff : Time) (s e : Z) (articles : list gostring) (w : World)
    (xoverHeader : gostring) (body rest : list gostring) :
  lines (reader w) = xoverHeader :: body ++ terminator :: rest ->
  GoStrings.HasPrefix xoverHeader (lit "224 ") = true ->
  terminator ∉ body ->
  batch E group days useLatest first cutoff s e articles w
  = match fetchArticles (first_field <$> List.filter (kept E days cutoff) body) articles
                        (advance (at_lines rest w) [Send (XOVER s e)] w) with
    | (Ok articles', w1) =>
        (Ok articles', if persists useLatest first e then bookmarked E group e w1 else w1)
    | (Err err, w1) => (Err err, w1)
    | (Exhausted, w1) => (Exhausted, w1)
    end.
Proof.
  intros Hl Hp Hb. unfold batch, bind, Fprintf_conn, emit, ReadString. simpl.
  rewrite Hl, Hp. simpl.
  match goal with |- context [forLines ?b ?i ?w0] =>
    rewrite (listing_ok E days cutoff body rest w0) by done
  end.
  simpl.
  set (w0 := advance (at_lines rest w) [Send (XOVER s e)] w).
  match goal with |- context [fetchArticles ?n ?a ?w1] =>
    lazymatch w1 with w0 => fail | _ => change w1 with w0 end
  end.
  destruct (fetchArticles _ articles w0) as [[articles'|err|] w1]; [|done|done].
  by rewrite bookmark_eq.
Qed.

Lemma batch_cases_of (ls : list gostring) :
  ls = [] \/
  (exists h t, ls = h :: t /\ GoStrings.HasPrefix h (lit "224 ") = false) \/
  (exists h t, ls = h :: t /\ GoStrings.HasPrefix h (lit "224 ") = true /\ terminator ∉ t) \/
  (exists h body rest, ls = h :: body ++ terminator :: rest /\
     GoStrings.HasPrefix h (lit "224 ") = true /\ terminator ∉ body).
Proof.
  destruct ls as [|h t]; [by left|right].
  destruct (GoStrings.HasPrefix h (lit "224 ")) eqn:Hp; [right|left; by eauto].
  destruct (first_terminator t) as [Hn|(body & rest & -> & Hb)].
  - left. by eauto.
  - right. by eauto 6.
Qed.

(** The loop over the batches goes by rounds. *)
Lemma batches_Rounds (n : nat) (E : Env) (group : gostring) (days : Z) (useLatest : bool)
    (B first last : Z) (cutoff : Time) (s : Z) (articles : list gostring) (w : World)
    (res : Result (list gostring)) (w' : World) :
  batches n E group days useLatest B first last cutoff s articles w = (res, w') ->
  res <> Exhausted ->
  Rounds E group days useLatest B first last cutoff s articles w res w'.
Proof.
  revert s articles w. induction n as [|n IH]; intros s articles w H Hne; simpl in H.
  - destruct (Z.leb_spec s last); [by injection H as <- <-|].
    injection H as <- <-. by apply Rounds_end.
  - destruct (Z.leb_spec s last) as [Hs|Hs].
    2:{ injection H as <- <-. by apply Rounds_end. }
    unfold bind in H.
    destruct (batch E group days useLatest first cutoff s (batchEndOf B last s) articles w)
      as [[articles1|err|] w1] eqn:Hb.
    + eapply Rounds_next; [done|exact Hb|]. by apply IH.
    + injection H as <- <-. by apply Rounds_abort.
    + by injection H as <- <-.
Qed.

Lemma retrieve_Rounds (E : Env) (group : gostring) (days : Z) (useLatest : bool)
    (B first last : Z) (w : World) (res : Result (list gostring)) (w' : World) :
  retrieve E group days useLatest B first last w = (res, w') ->
  exists res0,
    Rounds E group days useLatest B first last
           (time_AddDate E (time_Now E (clock w)) 0 0 (Int.neg days))
           first [] (tick w) res0 w' /\
    res = finish res0.
Proof.
  intros H.
  destruct (retrieve_effect E group days useLatest B first last w)
    as (res1 & w1 & evs & Hrun & _ & _ & _ & _ & Hres).
  rewrite H in Hrun. injection Hrun as <- <-.
  revert H. unfold retrieve, bind, Now, rounds. cbv beta iota zeta.
  fold (tick w).
  match goal with |- context [batches ?n _ _ _ _ _ _ _ ?c _ _ ?w0] =>
    destruct (batches n E group days useLatest B first last c first [] w0)
      as [res0 w0'] eqn:Hb
  end.
  intros H. exists res0.
  assert (Hne : res0 <> Exhausted).
  { intros ->. injection H as <- _. done. }
  destruct res0 as [articles|err|]; [| |done].
  - apply batches_Rounds in Hb; [|done].
    destruct articles as [|a articles]; simpl in H; injection H as <- <-; by split.
  - apply batches_Rounds in Hb; [|done]. injection H as <- <-. by split.
Qed.

(** What a round leaves, whatever the server sends: the XOVER command,
    the events of the fetches, then the write of the bookmark. *)
Lemma batch_shape (E : Env) (group : gostring) (days : Z) (useLatest : bool)
    (first : Z) (cutoff : Time) (s e : Z) (articles : list gostring) (w : World) :
  exists res w1 fetched evs sv,
    batch E group days useLatest first cutoff s e articles w = (res, w1) /\
    trace w1 = trace w ++ Send (XOVER s e) :: evs ++ sv /\
    forallb fetch_event evs = true /\ forallb save_event sv = true /\
    lines (reader w1) `suffix_of` lines (reader w) /\
    Forall (fun num => exists line, line ∈ lines (reader w) /\
                         kept E days cutoff line = true /\ num = first_field line)
           (requested evs) /\
    match res with
    | Ok articles' =>
        articles' = articles ++ fetched /\ Forall delimited fetched /\
        if persists useLatest first e
        then sv = WriteFile (filepath_Join E (lit ".") (getStateFileName group)) (state w1)
                            (os_WriteFile E (writes w))
                  :: (if os_WriteFile E (writes w) then []
                      else [Stderr (WarningSaveState StateWriteFailed)]) /\
             state w1 = <[group := {| LastArticle := e; LastFetch := time_Now E (clock w) |}]>
                          (state w) /\
             clock w1 = S (clock w) /\ writes w1 = S (writes w)
        else sv = [] /\ state w1 = state w /\ clock w1 = clock w /\ writes w1 = writes w
    | Err err =>
        fatal err /\ evs = [] /\ sv = [] /\
        state w1 = state w /\ clock w1 = clock w /\ writes w1 = writes w
    | Exhausted => False
    end.
Proof.
  destruct (batch_cases_of (lines (reader w)))
    as [Hl|[(h & t & Hl & Hp)|[(h & t & Hl & Hp & Hb)|(h & body & rest & Hl & Hp & Hb)]]].
  - rewrite (batch_no_header _ _ _ _ _ _ _ _ _ _ Hl).
    exists (Err XoverHeaderReadFailed), (advance at_end [Send (XOVER s e)] w), [], [], [].
    simpl. split_and!; try done; [apply suffix_nil|by left].
  - rewrite (batch_refused _ _ _ _ _ _ _ _ _ _ _ _ Hl Hp).
    eexists (Err _), _, [], [], []. simpl. split_and!; try done.
    + rewrite Hl. by apply suffix_cons_r.
    + right; left. by eauto.
  - rewrite (batch_cut _ _ _ _ _ _ _ _ _ _ _ _ Hl Hp Hb).
    eexists (Err _), _, [], [], []. simpl. split_and!; try done; [apply suffix_nil|].
    by right; right.
  - rewrite (batch_listed _ _ _ _ _ _ _ _ _ _ _ _ _ Hl Hp Hb).
    destruct (fetchArticles_shape (first_field <$> List.filter (kept E days cutoff) body)
                articles (advance (at_lines rest w) [Send (XOVER s e)] w))
      as (fetched & r & evs & -> & Hev & Hreq & Hall & Hsuf).
    rewrite advance_advance.
    assert (Hsuf' : lines r `suffix_of` lines (reader w)).
    { etrans; [exact Hsuf|]. rewrite Hl. simpl. apply suffix_cons_r.
      exists (body ++ [terminator]). by rewrite <- app_assoc. }
    assert (Hnums : Forall (fun num => exists line,
                line ∈ lines (reader w) /\ kept E days cutoff line = true /\
                num = first_field line) (requested evs)).
    { rewrite Hreq. apply Forall_fmap, Forall_forall. intros line Hin.
      apply list_elem_of_In, List.filter_In in Hin as [Hin Hk]. exists line.
      split; [|done].
      rewrite Hl. apply elem_of_cons. right. apply elem_of_app. left.
      by apply list_elem_of_In. }
    destruct (persists useLatest first e) eqn:Hper.
    + eexists (Ok _), _, fetched, evs, _. split; [reflexivity|].
      simpl. rewrite <- !app_assoc. simpl. split_and!; try done.
      by destruct (os_WriteFile E (writes w)).
    + eexists (Ok _), _, fetched, evs, []. split; [reflexivity|].
      simpl. rewrite app_nil_r. split_and!; done.
Qed.

Lemma advance_nil (w : World) : advance (reader w) [] w = w.
Proof. destruct w. unfold advance. simpl. by rewrite app_nil_r. Qed.

(** The three ways of a run of [getRecentArticles]: the exchange about
    the group fails; the bookmark is at the last article or above; the
    loop over the batches runs, from the first article or from the one
    after the bookmark. *)
Lemma getRecentArticles_run (E : Env) (group : gostring) (days : Z) (useLatest : bool)
    (B : Z) (w : World) (res : Result (list gostring)) (w' : World) :
  getRecentArticles E group days useLatest B w = (res, w') ->
  (exists e, res = Err e /\ selectGroup group w = (Err e, w')) \/
  exists first last w1,
    selectGroup group w = (Ok (first, last), w1) /\
    ((exists saved,
         useLatest = true /\ state w !! group = Some saved /\ last <= LastArticle saved /\
         res = Ok [] /\
         w' = advance (reader w1) [Stderr (NoNewArticles (LastArticle saved))] w1) \/
     (exists first' diag res0,
         (first' = first /\ diag = [] /\
          (useLatest = false \/ state w !! group = None \/
           exists saved, state w !! group = Some saved /\
                         LastArticle saved < first /\ LastArticle saved < last) \/
          exists saved,
            useLatest = true /\ state w !! group = Some saved /\
            first <= LastArticle saved < last /\ first' = LastArticle saved + 1 /\
            diag = [Stderr (Resuming first' (LastArticle saved))]) /\
         Rounds E group days useLatest B first' last
                (time_AddDate E (time_Now E (clock w1)) 0 0 (Int.neg days))
                first' [] (tick (advance (reader w1) diag w1)) res0 w' /\
         res = finish res0)).
Proof.
  intros H.
  destruct (selectGroup group w) as [[[first last]|e|] w1] eqn:Hsel.
  - right. exists first, last, w1. split; [done|].
    rewrite (getRecentArticles_select _ _ _ _ _ _ _ _ _ Hsel) in H.
    destruct (selectGroup_trace _ _ _ _ _ Hsel) as (_ & Hst & Hf & Hl).
    assert (Hgo : forall first' diag,
      retrieve E group days useLatest B first' last (advance (reader w1) diag w1)
      = (res, w') ->
      exists res0,
        Rounds E group days useLatest B first' last
               (time_AddDate E (time_Now E (clock w1)) 0 0 (Int.neg days))
               first' [] (tick (advance (reader w1) diag w1)) res0 w' /\
        res = finish res0).
    { intros first' diag Hr. by apply retrieve_Rounds in Hr. }
    destruct useLatest.
    + destruct (state w1 !! group) as [saved|] eqn:Hsaved.
      * rewrite (resume_saved _ _ _ _ _ Hsaved Hf Hl) in H. rewrite Hst in Hsaved.
        destruct (decide (last <= LastArticle saved)).
        { left. injection H as <- <-. by exists saved. }
        right. destruct (decide (first <= LastArticle saved)).
        { destruct (Hgo _ _ H) as (res0 & HR & ->).
          eexists _, _, res0. split; [|done]. right. exists saved.
          split_and!; try done; lia. }
        rewrite <- (advance_nil w1) in H. destruct (Hgo _ _ H) as (res0 & HR & ->).
        eexists _, _, res0. split; [|done]. left. split_and!; try done.
        right; right. exists saved. split_and!; [done|lia|lia].
      * rewrite (resume_fresh _ _ _ _ Hsaved) in H. right. rewrite Hst in Hsaved.
        rewrite <- (advance_nil w1) in H. destruct (Hgo _ _ H) as (res0 & HR & ->).
        eexists _, _, res0. split; [|done]. left. split_and!; try done. by right; left.
    + rewrite resume_off in H. right.
      rewrite <- (advance_nil w1) in H. destruct (Hgo _ _ H) as (res0 & HR & ->).
      eexists _, _, res0. split; [|done]. left. split_and!; try done. by left.
  - left. exists e. unfold getRecentArticles, bind in H. rewrite Hsel in H.
    by injection H as <- <-.
  - unfold getRecentArticles, bind in H. rewrite Hsel in H. injection H as <- <-.
    pose proof (getRecentArticles_bound E group days useLatest B w) as Hb.
    unfold getRecentArticles, bind in Hb. by rewrite Hsel in Hb.
Qed.

(** The exchange about the group only sends the GROUP command and
    reads one line. *)
Lemma selectGroup_shape (group : gostring) (w : World) :
  exists res r,
    selectGroup group w = (res, advance r [Send (GROUP group)] w) /\
    lines r `suffix_of` lines (reader w).
Proof.
  unfold selectGroup, bind, Fprintf_conn, emit, ReadString, fail, ret. simpl.
  destruct (lines (reader w)) as [|response ls] eqn:Hl; simpl.
  { eexists _, _. split; [reflexivity|]. apply suffix_nil. }
  assert (Hs : ls `suffix_of` response :: ls) by (by apply suffix_cons_r).
  destruct (negb _); [by eexists _, {| lines := ls |}|].
  destruct (Z.of_nat _ <? 4); [by eexists _, {| lines := ls |}|].
  destruct (Strconv.Atoi (nth 2 _ _)); [|by eexists _, {| lines := ls |}].
  destruct (Strconv.Atoi (nth 3 _ _)); by eexists _, {| lines := ls |}.
Qed.

Lemma sends_fetch_events (evs : list Event) :
  forallb fetch_event evs = true -> sends evs = ARTICLE <$> requested evs.
Proof.
  induction evs as [|e evs IH]; [done|]. simpl. intros H.
  apply andb_true_iff in H as [He H]. specialize (IH H).
  destruct e as [[| |num]|[]|]; try done.
  change (ARTICLE num :: sends evs = ARTICLE num :: (ARTICLE <$> requested evs)).
  by rewrite IH.
Qed.

Lemma save_events_quiet (sv : list Event) :
  forallb save_event sv = true -> sends sv = [] /\ requested sv = [] /\ xovers sv = [].
Proof.
  induction sv as [|[|[]|] sv IH]; simpl; try done; intros H; by apply IH.
Qed.

Lemma fetch_events_no_writes (evs : list Event) :
  forallb fetch_event evs = true ->
  write_calls evs = [] /\ forallb plain_event evs = true /\ xovers evs = [].
Proof.
  induction evs as [|[[]|[]|] evs IH]; simpl; try done; intros H; by apply IH.
Qed.

(** The log of the rounds: the commands go out round by round, every
    number asked for is the first field of a line of the server that
    the listing loop kept, and the articles are added at the end. *)
Lemma Rounds_log (E : Env) (group : gostring) (days : Z) (useLatest : bool)
    (B first last : Z) (cutoff : Time) (s : Z) (articles : list gostring) (w : World)
    (res : Result (list gostring)) (w' : World) :
  Rounds E group days useLatest B first last cutoff s articles w res w' ->
  exists evs rs fetched,
    trace w' = trace w ++ evs /\
    sends evs = flat_map round_commands rs /\
    Forall (fun num => exists line, line ∈ lines (reader w) /\
                         kept E days cutoff line = true /\ num = first_field line)
           (requested evs) /\
    lines (reader w') `suffix_of` lines (reader w) /\
    Forall delimited fetched /\
    match res with Ok articles' => articles' = articles ++ fetched | _ => True end.
Proof.
  induction 1 as [s articles w Hs|s articles w err w1 Hs Hb
                 |s articles w articles1 w1 res w' Hs Hb HR IH].
  - exists [], [], []. rewrite !app_nil_r. by split_and!.
  - destruct (batch_shape E group days useLatest first cutoff s (batchEndOf B last s)
                articles w)
      as (res0 & w0 & fetched & evs & sv & Hb0 & Ht & Hev & Hsv & Hsuf & Hnums & Hres).
    rewrite Hb in Hb0. injection Hb0 as <- <-.
    destruct Hres as (_ & -> & -> & _).
    exists [Send (XOVER s (batchEndOf B last s))], [(s, batchEndOf B last s, [])], [].
    by split_and!.
  - destruct (batch_shape E group days useLatest first cutoff s (batchEndOf B last s)
                articles w)
      as (res0 & w0 & fetched & evs & sv & Hb0 & Ht & Hev & Hsv & Hsuf & Hnums & Hres).
    rewrite Hb in Hb0. injection Hb0 as <- <-.
    destruct Hres as (-> & Hdel & _).
    destruct IH as (evs' & rs & fetched' & Ht' & Hsends & Hnums' & Hsuf' & Hdel' & Hres').
    destruct (save_events_quiet _ Hsv) as (Hsv1 & Hsv2 & _).
    exists (Send (XOVER s (batchEndOf B last s)) :: evs ++ sv ++ evs'),
           ((s, batchEndOf B last s, requested evs) :: rs), (fetched ++ fetched').
    split_and!.
    + rewrite Ht', Ht, <- !app_assoc. simpl. by rewrite <- !app_assoc.
    + change (sends (Send ?c :: ?t)) with (c :: sends t).
      rewrite !sends_app, Hsv1, Hsends, (sends_fetch_events _ Hev). done.
    + change (requested (Send (XOVER ?a ?b) :: ?t)) with (requested t).
      rewrite !requested_app, Hsv2. simpl. apply Forall_app. split; [done|].
      eapply Forall_impl; [exact Hnums'|]. intros num (line & Hin & Hk & ->).
      exists line. split; [|done]. destruct Hsuf as [k ->]. apply elem_of_app. by right.
    + by etrans.
    + by apply Forall_app.
    + destruct res; [|done|done]. by rewrite Hres', <- app_assoc.
Qed.

Lemma first_field_no_TAB (line : gostring) : TAB ∉ first_field line.
Proof.
  induction line as [|c line IH]; simpl; [apply not_elem_of_nil|].
  destruct (Ascii.eqb_spec c TAB); [apply not_elem_of_nil|].
  apply not_elem_of_cons. by split.
Qed.

Lemma Split_no_sep (s : gostring) (sep : ascii) : sep ∉ s -> GoStrings.Split s sep = [s].
Proof.
  induction s as [|c s IH]; simpl; [done|]. intros H.
  apply not_elem_of_cons in H as [Hc Hs].
  destruct (Ascii.eqb_spec c sep); [congruence|]. by rewrite IH.
Qed.

Lemma first_field_no_LF (t : gostring) :
  (LF ∉ t) -> (TAB ∈ (t ++ [LF])) -> LF ∉ first_field (t ++ [LF]).
Proof.
  induction t as [|c t IH]; simpl; intros Ht Htab.
  - apply list_elem_of_singleton in Htab. discriminate.
  - apply not_elem_of_cons in Ht as [Hc Ht].
    destruct (Ascii.eqb_spec c TAB) as [->|Hn]; [apply not_elem_of_nil|].
    apply not_elem_of_cons. split; [done|]. apply IH; [done|].
    apply elem_of_cons in Htab as [Heq|Htab]; [congruence|done].
Qed.

Lemma kept_number_one_line (E : Env) (days : Z) (cutoff : Time) (line : gostring) :
  line_ok line -> kept E days cutoff line = true ->
  (LF ∉ first_field line) /\ (TAB ∉ first_field line).
Proof.
  intros (t & -> & Ht) Hk. split; [|apply first_field_no_TAB].
  apply first_field_no_LF; [done|].
  destruct (decide (TAB ∈ (t ++ [LF]))) as [Hin|Hout]; [done|].
  unfold kept, well_formed in Hk. rewrite (Split_no_sep _ _ Hout) in Hk. done.
Qed.

(** ** The commands of a run *)

(** X1. Whatever the server answers, the commands of a run are GROUP,
    sent once and first, and then round by round one XOVER followed by
    the ARTICLE commands of that round: no ARTICLE goes out before an
    XOVER, and nothing follows a failed GROUP exchange. *)
Theorem commands_go_round_by_round (E : Env) (group : gostring) (days : Z)
    (useLatest : bool) (B : Z) (w : World) :
  exists rs,
    sends (trace (snd (getRecentArticles E group days useLatest B w)))
    = sends (trace w) ++ GROUP group :: flat_map round_commands rs /\
    match fst (selectGroup group w) with Ok _ => True | _ => rs = [] end.
Proof.
  destruct (getRecentArticles E group days useLatest B w) as [res w'] eqn:H. simpl.
  apply getRecentArticles_run in H
    as [(e & -> & Hsel)|(first & last & w1 & Hsel & [(saved & _ & _ & _ & -> & ->)
       |(first' & diag & res0 & Hdiag & HR & ->)])].
  - destruct (selectGroup_shape group w) as (res & r & Hs & _).
    rewrite Hsel in Hs. injection Hs as <- ->. exists []. rewrite Hsel. split; [|done].
    simpl. by rewrite sends_app.
  - destruct (selectGroup_trace _ _ _ _ _ Hsel) as (Ht & _).
    exists []. rewrite Hsel. simpl. rewrite Ht, !sends_app. simpl. by rewrite app_nil_r.
  - destruct (selectGroup_trace _ _ _ _ _ Hsel) as (Ht & _).
    apply Rounds_log in HR as (evs & rs & _ & Ht' & Hsends & _).
    exists rs. rewrite Hsel. split; [|done].
    rewrite Ht'. simpl. rewrite Ht, !sends_app, Hsends. simpl.
    replace (sends diag) with (@nil Command); [by rewrite app_nil_r, <- app_assoc|].
    by destruct Hdiag as [(_ & -> & _)|(saved & _ & _ & _ & _ & ->)].
Qed.

(** X2. Every ARTICLE command of a run over a byte stream is one line
    on the wire: the number it carries is the first field of a listing
    line that was kept, has no TAB and no LF in it, and the command ends
    with the only LF it has. *)
Theorem article_command_is_one_line (E : Env) (group : gostring) (days : Z)
    (useLatest : bool) (B : Z) (bytes : gostring) (st : gmap gostring GroupState) :
  Forall (fun num => (TAB ∉ num) /\ line_ok (wire (ARTICLE num)))
         (requested (trace (snd (getRecentArticles E group days useLatest B
                                                   (start bytes st))))).
Proof.
  set (w := start bytes st).
  assert (Hw : Forall line_ok (lines (reader w))) by apply NewReader_lines.
  destruct (getRecentArticles E group days useLatest B w) as [res w'] eqn:H. simpl.
  apply getRecentArticles_run in H
    as [(e & -> & Hsel)|(first & last & w1 & Hsel & [(saved & _ & _ & _ & -> & ->)
       |(first' & diag & res0 & Hdiag & HR & ->)])].
  - destruct (selectGroup_shape group w) as (res & r & Hs & _).
    rewrite Hsel in Hs. by injection Hs as <- ->.
  - destruct (selectGroup_trace _ _ _ _ _ Hsel) as (Ht & _).
    simpl. rewrite Ht. done.
  - destruct (selectGroup_shape group w) as (res & r & Hs & Hsuf).
    rewrite Hsel in Hs. injection Hs as <- ->.
    apply Rounds_log in HR as (evs & rs & _ & Ht' & _ & Hnums & _).
    rewrite Ht'. simpl. rewrite !requested_app. simpl.
    replace (requested diag) with (@nil gostring)
      by (by destruct Hdiag as [(_ & -> & _)|(saved & _ & _ & _ & _ & ->)]).
    simpl. eapply Forall_impl; [exact Hnums|]. simpl.
    intros num (line & Hin & Hk & ->).
    assert (Hline : line_ok line).
    { rewrite Forall_forall in Hw. apply Hw. destruct Hsuf as [k ->].
      apply elem_of_app. by right. }
    destruct (kept_number_one_line E days _ line Hline Hk) as [HLF HTAB].
    split; [done|]. exists (lit "ARTICLE " ++ first_field line ++ [CR]). split.
    + unfold wire, CRLF. by rewrite <- !app_assoc.
    + rewrite !not_elem_of_app. split_and!; [|done|].
      * intros Hin'. repeat (apply elem_of_cons in Hin' as [Hin'|Hin']; [discriminate|]).
        by apply elem_of_nil in Hin'.
      * intros Hin'. apply list_elem_of_singleton in Hin'. discriminate.
Qed.

(** ** The articles of a run *)

(** X3. Every article a run returns begins with the status line
    ["220 ..."] of its response and ends with the line [".\r\n"]: the
    output is a sequence of delimited articles, whatever the server
    sent around them. *)
Theorem articles_are_delimited (E : Env) (group : gostring) (days : Z)
    (useLatest : bool) (B : Z) (w : World) (articles : list gostring) (w' : World) :
  getRecentArticles E group days useLatest B w = (Ok articles, w') ->
  Forall delimited articles.
Proof.
  intros H.
  apply getRecentArticles_run in H
    as [(e & He & _)|(first & last & w1 & Hsel & [(saved & _ & _ & _ & He & _)
       |(first' & diag & res0 & Hdiag & HR & He)])].
  - done.
  - by injection He as ->.
  - apply Rounds_log in HR as (evs & rs & fetched & _ & _ & _ & _ & Hdel & Hres).
    destruct res0 as [articles0|err|]; [|done|done].
    subst articles0. simpl in He. destruct fetched; [done|]. by injection He as ->.
Qed.

Lemma articles_are_delimited_example :
  exists a1 a2,
    fst (getRecentArticles example_env (lit "g") 0 false 500 (start session ∅))
    = Ok [a1; a2] /\
    Forall delimited [a1; a2].
Proof.
  eexists _, _. split; [vm_compute; reflexivity|].
  apply (articles_are_delimited example_env (lit "g") 0 false 500 (start session ∅) _
           (snd (getRecentArticles example_env (lit "g") 0 false 500 (start session ∅)))).
  vm_compute. reflexivity.
Defined.

(** ** The bookmarks *)

Lemma Rounds_plain (E : Env) (group : gostring) (days : Z)
    (B first last : Z) (cutoff : Time) (s : Z) (articles : list gostring) (w : World)
    (res : Result (list gostring)) (w' : World) :
  Rounds E group days false B first last cutoff s articles w res w' ->
  state w' = state w /\ writes w' = writes w /\
  exists evs, trace w' = trace w ++ evs /\ forallb plain_event evs = true.
Proof.
  induction 1 as [s articles w Hs|s articles w err w1 Hs Hb
                 |s articles w articles1 w1 res w' Hs Hb HR IH].
  - split_and!; try done. exists []. by rewrite app_nil_r.
  - destruct (batch_shape E group days false first cutoff s (batchEndOf B last s)
                articles w)
      as (res0 & w0 & fetched & evs & sv & Hb0 & Ht & Hev & Hsv & Hsuf & Hnums & Hres).
    rewrite Hb in Hb0. injection Hb0 as <- <-.
    destruct Hres as (_ & -> & -> & Hst & _ & Hwr). split_and!; try done.
    by exists [Send (XOVER s (batchEndOf B last s))].
  - destruct (batch_shape E group days false first cutoff s (batchEndOf B last s)
                articles w)
      as (res0 & w0 & fetched & evs & sv & Hb0 & Ht & Hev & Hsv & Hsuf & Hnums & Hres).
    rewrite Hb in Hb0. injection Hb0 as <- <-.
    destruct Hres as (_ & _ & -> & Hst & _ & Hwr).
    destruct IH as (Hst' & Hwr' & evs' & Ht' & Hpl).
    split_and!; [congruence|congruence|].
    exists (Send (XOVER s (batchEndOf B last s)) :: evs ++ evs'). split.
    + rewrite Ht', Ht, app_nil_r, <- app_assoc. done.
    + simpl. rewrite forallb_app, Hpl.
      by destruct (fetch_events_no_writes _ Hev) as (_ & -> & _).
Qed.

(** X4. Without [-latest] a run leaves the bookmarks alone: the table
    in memory is unchanged, [os.WriteFile] is not called, and all the
    run does is send commands and warn about articles it could not
    fetch. *)
Theorem without_latest_nothing_is_saved (E : Env) (group : gostring) (days : Z) (B : Z)
    (w : World) :
  let w' := snd (getRecentArticles E group days false B w) in
  state w' = state w /\ writes w' = writes w /\
  exists evs, trace w' = trace w ++ evs /\ forallb plain_event evs = true.
Proof.
  destruct (getRecentArticles E group days false B w) as [res w'] eqn:H. simpl.
  apply getRecentArticles_run in H
    as [(e & -> & Hsel)|(first & last & w1 & Hsel & [(saved & Hu & _)
       |(first' & diag & res0 & Hdiag & HR & ->)])]; [|done|].
  - destruct (selectGroup_shape group w) as (res & r & Hs & _).
    rewrite Hsel in Hs. injection Hs as <- ->. split_and!; try done.
    by exists [Send (GROUP group)].
  - destruct (selectGroup_shape group w) as (res & r & Hs & _).
    rewrite Hsel in Hs. injection Hs as <- ->.
    destruct Hdiag as [(_ & -> & _)|(saved & Hu & _)]; [|done].
    apply Rounds_plain in HR as (Hst & Hwr & evs & Ht & Hpl). simpl in *.
    split_and!; try done. exists (Send (GROUP group) :: evs).
    rewrite Ht, app_nil_r, <- app_assoc. done.
Qed.

Lemma Rounds_others (E : Env) (group : gostring) (days : Z) (useLatest : bool)
    (B first last : Z) (cutoff : Time) (s : Z) (articles : list gostring) (w : World)
    (res : Result (list gostring)) (w' : World) :
  Rounds E group days useLatest B first last cutoff s articles w res w' ->
  delete group (state w') = delete group (state w) /\
  exists evs,
    trace w' = trace w ++ evs /\
    Forall (fun c => c.1.1 = filepath_Join E (lit ".") (getStateFileName group) /\
                     delete group c.1.2 = delete group (state w))
           (write_calls evs).
Proof.
  induction 1 as [s articles w Hs|s articles w err w1 Hs Hb
                 |s articles w articles1 w1 res w' Hs Hb HR IH].
  - split; [done|]. exists []. by rewrite app_nil_r.
  - destruct (batch_shape E group days useLatest first cutoff s (batchEndOf B last s)
                articles w)
      as (res0 & w0 & fetched & evs & sv & Hb0 & Ht & Hev & Hsv & Hsuf & Hnums & Hres).
    rewrite Hb in Hb0. injection Hb0 as <- <-.
    destruct Hres as (_ & -> & -> & Hst & _ & Hwr). split; [by rewrite Hst|].
    by exists [Send (XOVER s (batchEndOf B last s))].
  - destruct (batch_shape E group days useLatest first cutoff s (batchEndOf B last s)
                articles w)
      as (res0 & w0 & fetched & evs & sv & Hb0 & Ht & Hev & Hsv & Hsuf & Hnums & Hres).
    rewrite Hb in Hb0. injection Hb0 as <- <-.
    destruct Hres as (_ & _ & Hper).
    destruct IH as (Hst' & evs' & Ht' & Hall).
    assert (Hst1 : delete group (state w1) = delete group (state w)).
    { destruct (persists useLatest first _); destruct Hper as (_ & Hst & _).
      - by rewrite Hst, delete_insert_eq.
      - by rewrite Hst. }
    split; [congruence|].
    exists (Send (XOVER s (batchEndOf B last s)) :: evs ++ sv ++ evs'). split.
    + rewrite Ht', Ht, <- !app_assoc. simpl. by rewrite <- app_assoc.
    + change (write_calls (Send ?c :: ?t)) with (write_calls t).
      rewrite !write_calls_app.
      destruct (fetch_events_no_writes _ Hev) as (-> & _). simpl.
      apply Forall_app. split.
      * destruct (persists useLatest first _); destruct Hper as (-> & _); [|done].
        destruct (os_WriteFile E (writes w)); by repeat constructor.
      * eapply Forall_impl; [exact Hall|]. intros c [Hn Hd]. split; [done|congruence].
Qed.

(** X5. A run for a group changes the entry of no other group: the
    table in memory is the same apart from the entry of the group, and
    every call of [os.WriteFile] is for the path
    [filepath.Join(".", getStateFileName(group))] and hands over a
    table that is the table the run began with, apart from that
    entry. *)
Theorem other_groups_keep_their_bookmarks (E : Env) (group : gostring) (days : Z)
    (useLatest : bool) (B : Z) (w : World) :
  let w' := snd (getRecentArticles E group days useLatest B w) in
  delete group (state w') = delete group (state w) /\
  exists evs,
    trace w' = trace w ++ evs /\
    Forall (fun c => c.1.1 = filepath_Join E (lit ".") (getStateFileName group) /\
                     delete group c.1.2 = delete group (state w))
           (write_calls evs).
Proof.
  destruct (getRecentArticles E group days useLatest B w) as [res w'] eqn:H. simpl.
  destruct (selectGroup_shape group w) as (res1 & r & Hs & _).
  apply getRecentArticles_run in H
    as [(e & -> & Hsel)|(first & last & w1 & Hsel & [(saved & _ & _ & _ & _ & ->)
       |(first' & diag & res0 & Hdiag & HR & ->)])];
    rewrite Hsel in Hs; injection Hs as <- ->.
  - split; [done|]. by exists [Send (GROUP group)].
  - split; [done|]. simpl. eexists [_; _]. rewrite <- app_assoc. by split.
  - apply Rounds_others in HR as (Hst & evs & Ht & Hall). simpl in *.
    split; [done|]. exists (Send (GROUP group) :: diag ++ evs). split.
    + rewrite Ht, <- !app_assoc. done.
    + change (write_calls (Send ?c :: ?t)) with (write_calls t).
      rewrite write_calls_app.
      by destruct Hdiag as [(_ & -> & _)|(saved & _ & _ & _ & _ & ->)].
Qed.

(** ** Edges of the range and of the batch size *)

(** X6. When the group announces an empty range ([last < first]) the
    run sends nothing after GROUP, reads nothing after the response and
    changes no bookmark; it fails with "no articles found", unless
    [-latest] finds a bookmark at [last] or above, where it succeeds
    with no articles. *)
Theorem empty_range_asks_nothing (E : Env) (group : gostring) (days : Z)
    (useLatest : bool) (B : Z) (w : World) (first last : Z) (w1 : World) :
  selectGroup group w = (Ok (first, last), w1) ->
  last < first ->
  let run := getRecentArticles E group days useLatest B w in
  fst run = match (if useLatest then state w !! group else None) with
            | Some saved =>
                if last <=? LastArticle saved then Ok [] else Err NoArticlesFound
            | None => Err NoArticlesFound
            end /\
  sends (trace (snd run)) = sends (trace w) ++ [GROUP group] /\
  write_calls (trace (snd run)) = write_calls (trace w) /\
  reader (snd run) = reader w1 /\
  state (snd run) = state w.
Proof.
  intros Hsel Hlt.
  destruct (getRecentArticles E group days useLatest B w) as [res w'] eqn:H. simpl.
  destruct (selectGroup_trace _ _ _ _ _ Hsel) as (Ht & Hst & _).
  apply getRecentArticles_run in H
    as [(e & -> & Hsel')|(first0 & last0 & w0 & Hsel' & H)];
    rewrite Hsel in Hsel'; [done|]. injection Hsel' as <- <- <-.
  destruct H as [(saved & -> & Hsaved & Hle & -> & ->)
                |(first' & diag & res0 & Hdiag & HR & ->)].
  - rewrite Hsaved. destruct (Z.leb_spec last (LastArticle saved)); [|lia].
    simpl. rewrite Ht, !sends_app, !write_calls_app. simpl.
    by rewrite !app_nil_r.
  - destruct Hdiag as [(-> & -> & Hno)|(saved & _ & _ & Hr & _)]; [|lia].
    inversion HR; subst; try lia. simpl.
    rewrite app_nil_r, Ht, !sends_app, !write_calls_app. simpl. rewrite app_nil_r.
    split_and!; try done.
    destruct Hno as [->|[Hnone|(saved & Hsaved & Hlt1 & Hlt2)]]; [done| |].
    + rewrite Hnone. by destruct useLatest.
    + rewrite Hsaved. destruct useLatest; [|done].
      by destruct (Z.leb_spec last (LastArticle saved)); [lia|].
Qed.

Lemma empty_range_asks_nothing_example :
  let w := start (crlf "211 0 1 0 g") ∅ in
  let run := getRecentArticles example_env (lit "g") 0 false 500 w in
  fst run = Err NoArticlesFound /\ sends (trace (snd run)) = [GROUP (lit "g")].
Proof.
  intros w run.
  destruct (empty_range_asks_nothing example_env (lit "g") 0 false 500 w 1 0
              (snd (selectGroup (lit "g") w)) ltac:(vm_compute; reflexivity) ltac:(lia))
    as (Hres & Hsends & _).
  split; [exact Hres|exact Hsends].
Defined.

Lemma batchEndOf_zero (last s : Z) :
  Int.MinInt < s -> s <= last -> last <= Int.MaxInt ->
  batchEndOf 0 last s = s - 1 /\ Int.add (batchEndOf 0 last s) 1 = s.
Proof.
  intros Hmin Hs Hmax. unfold batchEndOf, Int.sub, Int.add.
  assert (Hr : Int.in_range s) by (unfold Int.in_range; lia).
  rewrite Z.add_0_r, (wrap_in_range s Hr).
  assert (Hr1 : Int.in_range (s - 1)) by (unfold Int.in_range in *; lia).
  rewrite (wrap_in_range (s - 1) Hr1).
  destruct (Z.gtb_spec (s - 1) last); [lia|].
  split; [done|]. replace (s - 1 + 1) with s by lia. by apply wrap_in_range.
Qed.

Lemma Rounds_zero (E : Env) (group : gostring) (days : Z) (useLatest : bool)
    (first last : Z) (cutoff : Time) (s : Z) (articles : list gostring) (w : World)
    (res : Result (list gostring)) (w' : World) :
  Rounds E group days useLatest 0 first last cutoff s articles w res w' ->
  Int.MinInt < s -> s = first -> s <= last -> last <= Int.MaxInt ->
  aborted res = true /\ state w' = state w /\
  exists evs,
    trace w' = trace w ++ evs /\ xovers evs <> [] /\
    Forall (fun b => b = (first, first - 1)) (xovers evs) /\
    write_calls evs = [].
Proof.
  induction 1 as [s articles w Hs|s articles w err w1 Hs Hb
                 |s articles w articles1 w1 res w' Hs Hb HR IH];
    intros Hmin Hfirst Hle Hmax.
  - lia.
  - destruct (batchEndOf_zero last s Hmin Hle Hmax) as [He Hnext]. rewrite He in Hb.
    destruct (batch_shape E group days useLatest first cutoff s (s - 1) articles w)
      as (res0 & w0 & fetched & evs & sv & Hb0 & Ht & Hev & Hsv & Hsuf & Hnums & Hres).
    rewrite Hb in Hb0. injection Hb0 as <- <-.
    destruct Hres as (Hfatal & -> & -> & Hst & _). split_and!; try done.
    + by apply aborted_fatal.
    + exists [Send (XOVER s (s - 1))]. subst s. split_and!; try done.
      by repeat constructor.
  - destruct (batchEndOf_zero last s Hmin Hle Hmax) as [He Hnext].
    rewrite Hnext in HR, IH. rewrite He in Hb.
    destruct (batch_shape E group days useLatest first cutoff s (s - 1) articles w)
      as (res0 & w0 & fetched & evs & sv & Hb0 & Ht & Hev & Hsv & Hsuf & Hnums & Hres).
    rewrite Hb in Hb0. injection Hb0 as <- <-.
    destruct Hres as (_ & _ & Hper).
    assert (Hno : persists useLatest first (s - 1) = false).
    { unfold persists. destruct (Z.gtb_spec (s - 1) first); [lia|]. by destruct useLatest. }
    rewrite Hno in Hper. destruct Hper as (-> & Hst & _).
    destruct (IH Hmin Hfirst Hle Hmax) as (Hab & Hst' & evs' & Ht' & Hne & Hall & Hwr).
    split_and!; [done|congruence|].
    exists (Send (XOVER s (s - 1)) :: evs ++ evs').
    destruct (fetch_events_no_writes _ Hev) as (Hw0 & _ & Hx0).
    split_and!.
    + rewrite Ht', Ht, app_nil_r, <- app_assoc. done.
    + done.
    + change (xovers (Send (XOVER ?a ?b) :: ?t)) with ((a, b) :: xovers t).
      rewrite xovers_app, Hx0. simpl. constructor; [by subst s|done].
    + change (write_calls (Send ?c :: ?t)) with (write_calls t).
      by rewrite write_calls_app, Hw0, Hwr.
Qed.

(** X7. With the batch size 0, for a range of [int]s with
    [MinInt < first <= last], [first] being the start after the resume
    adjustment, the loop over the batches does not advance: every XOVER
    asks for the same empty range [first-(first-1)], no bookmark is
    written, and the run ends by the failure of an XOVER exchange,
    never with articles. *)
Theorem zero_batch_size_never_completes (E : Env) (group : gostring) (days : Z)
    (useLatest : bool) (first last : Z) (w : World)
    (res : Result (list gostring)) (w' : World) :
  Int.MinInt < first -> first <= last -> last <= Int.MaxInt ->
  retrieve E group days useLatest 0 first last w = (res, w') ->
  aborted res = true /\ state w' = state w /\
  exists evs,
    trace w' = trace w ++ evs /\ xovers evs <> [] /\
    Forall (fun b => b = (first, first - 1)) (xovers evs) /\
    write_calls evs = [].
Proof.
  intros Hmin Hle Hmax H.
  apply retrieve_Rounds in H as (res0 & HR & ->).
  destruct (Rounds_zero _ _ _ _ _ _ _ _ _ _ _ _ HR Hmin eq_refl Hle Hmax)
    as (Hab & Hst & evs & Ht & Hne & Hall & Hwr).
  split_and!; [by destruct res0 as [[|]| |]|done|by exists evs].
Qed.

Lemma zero_batch_size_never_completes_example :
  let w := start (empty_listing ++ empty_listing) ∅ in
  let run := retrieve example_env (lit "g") 0 true 0 1 3 w in
  aborted (fst run) = true /\ state (snd run) = state w /\
  exists evs,
    trace (snd run) = trace w ++ evs /\ xovers evs <> [] /\
    Forall (fun b => b = (1, 1 - 1)) (xovers evs) /\
    write_calls evs = [].
Proof.
  intros w run.
  apply (zero_batch_size_never_completes example_env (lit "g") 0 true 1 3 w
           (fst run) (snd run)); [done|lia|done|vm_compute; reflexivity].
Defined.

Lemma Rounds_done (E : Env) (group : gostring) (days : Z) (useLatest : bool)
    (B first last : Z) (cutoff : Time) (s : Z) (articles : list gostring) (w : World)
    (res : Result (list gostring)) (w' : World) :
  Rounds E group days useLatest B first last cutoff s articles w res w' ->
  last < s -> res = Ok articles /\ w' = w.
Proof. intros HR Hs. inversion HR; subst; [done|lia|lia]. Qed.

Lemma batchEndOf_below (B last s : Z) :
  1 <= B -> Int.MinInt <= s <= last -> last + B <= Int.MaxInt ->
  batchEndOf B last s = Z.min (s + B - 1) last /\
  Int.add (batchEndOf B last s) 1 = Z.min (s + B - 1) last + 1.
Proof.
  intros HB Hs Hno. apply batch_fits; [done|done|]. unfold fits. simpl. lia.
Qed.

Lemma write_calls_save (E : Env) (name : gostring) (data : gmap gostring GroupState)
    (ok : bool) :
  write_calls (WriteFile name data ok ::
               (if ok then [] else [Stderr (WarningSaveState StateWriteFailed)]))
  = [(name, data, ok)].
Proof. by destruct ok. Qed.

(** A run of the rounds in resume mode that is not cut short ends with
    the write of the bookmark [last]. *)
Lemma Rounds_last_bookmark (E : Env) (group : gostring) (days : Z)
    (B first last : Z) (cutoff : Time) (s : Z) (articles : list gostring) (w : World)
    (res : Result (list gostring)) (w' : World) :
  Rounds E group days true B first last cutoff s articles w res w' ->
  1 <= B -> Int.MinInt <= first -> first <= s <= last -> first < last ->
  last + B <= Int.MaxInt -> aborted res = false ->
  exists evs pre ok now,
    trace w' = trace w ++ evs /\
    write_calls evs
    = pre ++ [(filepath_Join E (lit ".") (getStateFileName group), state w', ok)] /\
    state w' !! group = Some {| LastArticle := last; LastFetch := now |}.
Proof.
  induction 1 as [s articles w Hs|s articles w err w1 Hs Hb
                 |s articles w articles1 w1 res w' Hs Hb HR IH];
    intros HB Hmin Hrange Hlt Hno Hab.
  - lia.
  - destruct (batch_shape E group days true first cutoff s (batchEndOf B last s)
                articles w)
      as (res0 & w0 & fetched & evs & sv & Hb0 & Ht & Hev & Hsv & Hsuf & Hnums & Hres).
    rewrite Hb in Hb0. injection Hb0 as <- <-.
    destruct Hres as (Hfatal & _). by rewrite (aborted_fatal _ Hfatal) in Hab.
  - destruct (batchEndOf_below B last s HB ltac:(lia) Hno) as [He Hnext].
    rewrite Hnext in HR, IH.
    destruct (batch_shape E group days true first cutoff s (batchEndOf B last s)
                articles w)
      as (res0 & w0 & fetched & evs & sv & Hb0 & Ht & Hev & Hsv & Hsuf & Hnums & Hres).
    rewrite Hb in Hb0. injection Hb0 as <- <-.
    destruct Hres as (_ & _ & Hper). rewrite He in Hper.
    destruct (fetch_events_no_writes _ Hev) as (Hw0 & _).
    destruct (Z.le_gt_cases (Z.min (s + B - 1) last + 1) last) as [Hmore|Hend].
    + destruct (IH HB Hmin ltac:(lia) Hlt Hno Hab) as (evs' & pre & ok & now & Ht' & Hwr & Hst).
      exists (Send (XOVER s (batchEndOf B last s)) :: evs ++ sv ++ evs'),
             (write_calls sv ++ pre), ok, now.
      split_and!; [|clear Hper|done].
      * rewrite Ht', Ht, <- !app_assoc. simpl. by rewrite <- app_assoc.
      * change (write_calls (Send ?c :: ?t)) with (write_calls t).
        by rewrite !write_calls_app, Hw0, Hwr, <- app_assoc.
    + destruct (Rounds_done _ _ _ _ _ _ _ _ _ _ _ _ _ HR Hend) as [-> ->].
      assert (Hlast : Z.min (s + B - 1) last = last) by lia. rewrite Hlast in Hper.
      assert (Hp : persists true first last = true) by (apply persists_iff; by split).
      rewrite Hp in Hper. destruct Hper as (-> & Hst & _).
      eexists _, [], _, _. split; [exact Ht|]. split.
      * change (write_calls (Send ?c :: ?t)) with (write_calls t).
        by rewrite write_calls_app, Hw0, (write_calls_save E).
      * by rewrite Hst, lookup_insert_eq.
Qed.

(** X8. For [1 <= B], [MinInt <= first < last] and
    [last + B <= MaxInt], and a table that is not nil: a run of the
    loop in resume mode from [first] ([first] after the resume
    adjustment) that no failure of an XOVER exchange cuts short ends
    with a call of [os.WriteFile], for the path
    [filepath.Join(".", getStateFileName(group))], with the table in
    memory, in which the bookmark of the group is [last]. A later run
    from that table, for a group that has nothing above [last], sends
    GROUP and nothing else, reports that there is nothing new and
    returns no articles. *)
Theorem completed_run_is_not_repeated (E : Env) (group : gostring) (days : Z)
    (B first last : Z) (w : World) (res : Result (list gostring)) (w' : World) :
  1 <= B -> Int.MinInt <= first -> first < last -> last + B <= Int.MaxInt ->
  retrieve E group days true B first last w = (res, w') ->
  aborted res = false ->
  exists evs pre ok now,
    trace w' = trace w ++ evs /\
    write_calls evs
    = pre ++ [(filepath_Join E (lit ".") (getStateFileName group), state w', ok)] /\
    state w' !! group = Some {| LastArticle := last; LastFetch := now |} /\
    forall E2 days2 B2 w2 first2 last2 w3,
      state w2 = state w' ->
      selectGroup group w2 = (Ok (first2, last2), w3) ->
      last2 <= last ->
      getRecentArticles E2 group days2 true B2 w2
      = (Ok [], advance (reader w3) [Stderr (NoNewArticles last)] w3).
Proof.
  intros HB Hmin Hlt Hno H Hab.
  apply retrieve_Rounds in H as (res0 & HR & ->).
  assert (Hab0 : aborted res0 = false) by (by destruct res0 as [[|]| |]).
  destruct (Rounds_last_bookmark _ _ _ _ _ _ _ _ _ _ _ _ HR HB Hmin ltac:(lia) Hlt Hno Hab0)
    as (evs & pre & ok & now & Ht & Hwr & Hst).
  exists evs, pre, ok, now. split_and!; try done.
  intros E2 days2 B2 w2 first2 last2 w3 Hst2 Hsel Hle.
  rewrite (getRecentArticles_select _ _ _ _ _ _ _ _ _ Hsel).
  destruct (selectGroup_trace _ _ _ _ _ Hsel) as (_ & Hst3 & Hf & Hl).
  assert (Hsaved : state w3 !! group = Some {| LastArticle := last; LastFetch := now |})
    by (by rewrite Hst3, Hst2).
  rewrite (resume_saved _ _ _ _ _ Hsaved Hf Hl). simpl.
  by rewrite decide_True by done.
Qed.

Lemma completed_run_is_not_repeated_example :
  let w := start (empty_listing ++ empty_listing) ∅ in
  let run := retrieve example_env (lit "g") 0 true 2 1 3 w in
  exists evs pre ok now,
    trace (snd run) = trace w ++ evs /\
    write_calls evs
    = pre ++ [(filepath_Join example_env (lit ".") (getStateFileName (lit "g")),
               state (snd run), ok)] /\
    state (snd run) !! lit "g" = Some {| LastArticle := 3; LastFetch := now |} /\
    forall E2 days2 B2 w2 first2 last2 w3,
      state w2 = state (snd run) ->
      selectGroup (lit "g") w2 = (Ok (first2, last2), w3) ->
      last2 <= 3 ->
      getRecentArticles E2 (lit "g") days2 true B2 w2
      = (Ok [], advance (reader w3) [Stderr (NoNewArticles 3)] w3).
Proof.
  intros w run.
  apply (completed_run_is_not_repeated example_env (lit "g") 0 2 1 3 w
           (fst run) (snd run));
    [lia|vm_compute; discriminate|lia|vm_compute; discriminate
    |vm_compute; reflexivity|vm_compute; reflexivity].
Defined.

(** X9. For [1 <= B] and [last + B <= MaxInt]: when the response to
    GROUP gives [first < last] and the bookmark of the group is at
    [last - 1], so that exactly one article is new, a run in resume
    mode asks for the one range [last-last] and does not write a
    bookmark: the table in memory stays as it was, with the bookmark
    at [last - 1], and [os.WriteFile] is not called. *)
Theorem single_new_article_is_not_bookmarked (E : Env) (group : gostring) (days : Z)
    (B : Z) (w : World) (first last : Z) (w1 : World) (saved : GroupState) :
  selectGroup group w = (Ok (first, last), w1) ->
  state w !! group = Some saved ->
  LastArticle saved = last - 1 -> first < last ->
  1 <= B -> last + B <= Int.MaxInt ->
  let run := getRecentArticles E group days true B w in
  state (snd run) = state w /\
  write_calls (trace (snd run)) = write_calls (trace w) /\
  xovers (trace (snd run)) = xovers (trace w) ++ [(last, last)].
Proof.
  intros Hsel Hsaved HL Hlt HB Hno.
  destruct (getRecentArticles E group days true B w) as [res w'] eqn:H. simpl.
  destruct (selectGroup_trace _ _ _ _ _ Hsel) as (Ht1 & Hst1 & Hf & Hl).
  apply getRecentArticles_run in H
    as [(e & -> & Hsel')|(first0 & last0 & w0 & Hsel' & H)];
    rewrite Hsel in Hsel'; [done|]. injection Hsel' as <- <- <-.
  destruct H as [(saved' & _ & Hsaved' & Hle & _)
                |(first' & diag & res0 & Hdiag & HR & ->)].
  { rewrite Hsaved in Hsaved'. injection Hsaved' as <-. lia. }
  destruct Hdiag as [(_ & _ & [Hu|[Hnone|(saved' & Hsaved' & Hlt1 & _)]])
                    |(saved' & _ & Hsaved' & _ & -> & ->)]; [done|congruence| |].
  { rewrite Hsaved in Hsaved'. injection Hsaved' as <-. lia. }
  rewrite Hsaved in Hsaved'. injection Hsaved' as <-.
  replace (LastArticle saved + 1) with last in HR by lia.
  assert (Hmin : Int.MinInt <= last) by (destruct Hf; lia).
  destruct (batchEndOf_below B last last HB ltac:(lia) Hno) as [He Hnext].
  assert (Hmin1 : Z.min (last + B - 1) last = last) by lia.
  rewrite Hmin1 in He, Hnext.
  assert (Hp : persists true last last = false).
  { unfold persists. simpl. by destruct (Z.gtb_spec last last); [lia|]. }
  match type of HR with Rounds _ _ _ _ _ _ _ _ _ _ ?w0 _ _ => set (w2 := w0) in * end.
  assert (Ht2 : trace w2 = trace w ++ [Send (GROUP group);
                  Stderr (Resuming last (LastArticle saved))]).
  { subst w2. simpl. rewrite Ht1, <- app_assoc. simpl.
    by replace (LastArticle saved + 1) with last by lia. }
  assert (Hst2 : state w2 = state w) by done.
  destruct (batch_shape E group days true last
              (time_AddDate E (time_Now E (clock w1)) 0 0 (Int.neg days))
              last last [] w2)
    as (res1 & w3 & fetched & evs & sv & Hb0 & Ht & Hev & Hsv & Hsuf & Hnums & Hres).
  destruct (fetch_events_no_writes _ Hev) as (Hw0 & _ & Hx0).
  assert (Hw' : state w3 = state w /\ trace w3 = trace w2 ++ Send (XOVER last last) :: evs
                /\ (res1 = Exhausted -> False)).
  { destruct res1 as [articles1|err|].
    - rewrite Hp in Hres. destruct Hres as (_ & _ & -> & Hst & _).
      rewrite app_nil_r in Ht. split_and!; [congruence|done|done].
    - destruct Hres as (_ & -> & -> & Hst & _). split_and!; [congruence|done|done].
    - done. }
  destruct Hw' as (Hst3 & Ht3 & Hex).
  assert (Hfin : w' = w3).
  { inversion HR as [s0 a0 w0 Hs0|s0 a0 w0 err0 w4 Hs0 Hb|s0 a0 w0 a1 w4 r0 w5 Hs0 Hb HR'];
      subst; [lia| |].
    - rewrite He, Hb0 in Hb. congruence.
    - rewrite He, Hb0 in Hb. rewrite Hnext in HR'.
      destruct (Rounds_done _ _ _ _ _ _ _ _ _ _ _ _ _ HR') as [_ Hw]; [lia|]. congruence. }
  subst w'. rewrite Ht3, Ht2. split_and!; [done| |].
  - rewrite !write_calls_app.
    change (write_calls (Send ?c :: ?t)) with (write_calls t).
    rewrite Hw0. simpl. by rewrite !app_nil_r.
  - rewrite !xovers_app.
    change (xovers (Send (XOVER ?a ?b) :: ?t)) with ((a, b) :: xovers t).
    rewrite Hx0. simpl. by rewrite app_nil_r.
Qed.

Lemma single_new_article_is_not_bookmarked_example :
  let st : gmap gostring GroupState :=
    {[ lit "g" := {| LastArticle := 1; LastFetch := 0 |} ]} in
  let w := start (crlf "211 2 1 2 g" ++ empty_listing) st in
  let run := getRecentArticles example_env (lit "g") 0 true 500 w in
  state (snd run) = state w /\
  write_calls (trace (snd run)) = write_calls (trace w) /\
  xovers (trace (snd run)) = xovers (trace w) ++ [(2, 2)].
Proof.
  intros st w run.
  apply (single_new_article_is_not_bookmarked example_env (lit "g") 0 500 w 1 2
           (snd (selectGroup (lit "g") w)) {| LastArticle := 1; LastFetch := 0 |});
    [vm_compute; reflexivity|apply lookup_singleton_eq|reflexivity|lia|lia|].
  vm_compute. discriminate.
Defined.

(** ** The listing *)

Lemma filter_dropped {A} (p : A -> bool) (l1 l2 : list A) (x : A) :
  p x = false -> List.filter p (l1 ++ x :: l2) = List.filter p (l1 ++ l2).
Proof. intros H. rewrite !List.filter_app. simpl. by rewrite H. Qed.

(** X10. A line of the listing that the loop drops (fewer than 8
    fields or, under the age filter, a date that is not read or is
    before the cutoff) has no effect at all: the round gives the same
    result, the same trace, table and reader as for the listing without
    that line. *)
Theorem dropped_listing_line_is_invisible (E : Env) (group : gostring) (days : Z)
    (useLatest : bool) (first : Z) (cutoff : Time) (s e : Z) (articles : list gostring)
    (w : World) (xoverHeader : gostring) (before : list gostring) (line : gostring)
    (rest : list gostring) :
  lines (reader w) = xoverHeader :: before ++ line :: rest ->
  GoStrings.HasPrefix xoverHeader (lit "224 ") = true ->
  terminator ∉ before ->
  line <> terminator ->
  kept E days cutoff line = false ->
  batch E group days useLatest first cutoff s e articles w
  = batch E group days useLatest first cutoff s e articles
          (set_reader (at_lines (xoverHeader :: before ++ rest) w) w).
Proof.
  intros Hl Hp Hb Hne Hk.
  set (w0 := set_reader (at_lines (xoverHeader :: before ++ rest) w) w).
  assert (Hl0 : lines (reader w0) = xoverHeader :: before ++ rest) by done.
  destruct (first_terminator rest) as [Hn|(body & rest' & -> & Hbody)].
  - rewrite (batch_cut _ _ _ _ _ _ _ _ _ _ _ _ Hl Hp).
    2:{ rewrite not_elem_of_app, not_elem_of_cons. by split_and!. }
    rewrite (batch_cut _ _ _ _ _ _ _ _ _ _ _ _ Hl0 Hp); [done|].
    rewrite not_elem_of_app. by split.
  - rewrite (batch_listed E group days useLatest first cutoff s e articles w
               xoverHeader (before ++ line :: body) rest').
    2:{ by rewrite Hl, <- app_assoc. }
    2:{ done. }
    2:{ rewrite not_elem_of_app, not_elem_of_cons. by split_and!. }
    rewrite (batch_listed E group days useLatest first cutoff s e articles w0
               xoverHeader (before ++ body) rest').
    2:{ by rewrite Hl0, <- app_assoc. }
    2:{ done. }
    2:{ rewrite not_elem_of_app. by split. }
    by rewrite (filter_dropped _ _ _ _ Hk).
Qed.

Lemma dropped_listing_line_is_invisible_example :
  let w := start (crlf "224 Overview information follows" ++ overview "1" ++
                  tabbed CRLF ["2"; "no"; "more"; "fields"] ++ crlf "." ++
                  crlf "220 1 <1@b>" ++ crlf "text" ++ crlf ".") ∅ in
  let w0 := start (crlf "224 Overview information follows" ++ overview "1" ++ crlf "." ++
                   crlf "220 1 <1@b>" ++ crlf "text" ++ crlf ".") ∅ in
  batch example_env (lit "g") 0 false 1 0 1 2 [] w
  = batch example_env (lit "g") 0 false 1 0 1 2 [] w0.
Proof.
  intros w w0.
  apply (dropped_listing_line_is_invisible example_env (lit "g") 0 false 1 0 1 2 [] w
           (crlf "224 Overview information follows") [overview "1"]
           (tabbed CRLF ["2"; "no"; "more"; "fields"])
           [crlf "."; crlf "220 1 <1@b>"; crlf "text"; crlf "."]);
    [vm_compute; reflexivity|vm_compute; reflexivity| |discriminate|vm_compute; reflexivity].
  intros H. apply list_elem_of_singleton in H. discriminate.
Defined.

(** * The program around [getRecentArticles] *)

Lemma Rounds_bound (E : Env) (group : gostring) (days : Z) (useLatest : bool)
    (B first last : Z) (cutoff : Time) (s : Z) (articles : list gostring) (w : World)
    (res : Result (list gostring)) (w' : World) :
  Rounds E group days useLatest B first last cutoff s articles w res w' ->
  res <> Exhausted.
Proof. induction 1; done. Qed.

(** The log of a run of [getRecentArticles], for its callers. *)
Lemma getRecentArticles_log (E : Env) (group : gostring) (days : Z) (useLatest : bool)
    (B : Z) (w : World) :
  exists res w' evs rs,
    getRecentArticles E group days useLatest B w = (res, w') /\
    trace w' = trace w ++ evs /\
    sends evs = GROUP group :: flat_map round_commands rs /\
    match res with
    | Ok articles => Forall delimited articles /\ (articles <> [] \/ useLatest = true)
    | Err _ => True
    | Exhausted => False
    end.
Proof.
  destruct (getRecentArticles E group days useLatest B w) as [res w'] eqn:H.
  exists res, w'.
  destruct (selectGroup_shape group w) as (res1 & r & Hs & _).
  apply getRecentArticles_run in H
    as [(e & -> & Hsel)|(first & last & w1 & Hsel & [(saved & -> & _ & _ & -> & ->)
       |(first' & diag & res0 & Hdiag & HR & ->)])];
    rewrite Hsel in Hs; injection Hs as <- ->.
  - by exists [Send (GROUP group)], [].
  - eexists [_; _], []. simpl. rewrite <- app_assoc.
    split_and!; try done. by right.
  - pose proof HR as HR'.
    apply Rounds_log in HR as (evs & rs & fetched & Ht & Hsends & _ & _ & Hdel & Hres).
    exists (Send (GROUP group) :: diag ++ evs), rs.
    split_and!; [done| | |].
    + rewrite Ht. simpl. by rewrite <- !app_assoc.
    + change (sends (Send ?c :: ?t)) with (c :: sends t).
      rewrite sends_app, Hsends.
      by destruct Hdiag as [(_ & -> & _)|(saved & _ & _ & _ & _ & ->)].
    + destruct res0 as [articles0|err|]; simpl in *.
      * subst articles0. destruct fetched as [|a fetched]; [done|]. split; [done|by left].
      * done.
      * by apply Rounds_bound in HR'.
Qed.

Lemma wrote_app (s1 s2 : list Step) : wrote (s1 ++ s2) = wrote s1 ++ wrote s2.
Proof. apply omap_app. Qed.

Lemma printed_app (s1 s2 : list Step) : printed (s1 ++ s2) = printed s1 ++ printed s2.
Proof. apply omap_app. Qed.

Lemma wrote_lift (evs : list Event) : wrote (lift <$> evs) = wire <$> sends evs.
Proof.
  induction evs as [|[c|d|name data ok] evs IH]; [done| | |]; simpl; try exact IH.
  change (wire c :: wrote (lift <$> evs) = wire c :: (wire <$> sends evs)).
  by rewrite IH.
Qed.

Lemma wire_not_QUIT (c : Command) : wire c <> QUIT.
Proof. destruct c; discriminate. Qed.

Lemma lift_unfinished (evs : list Event) : Forall unfinished (lift <$> evs).
Proof.
  apply Forall_fmap, Forall_forall. intros [c|d|name data ok] _; simpl; try done.
  apply wire_not_QUIT.
Qed.

(** Before the program is through nothing is printed, the connection
    is not closed and QUIT is not sent. *)
Lemma unfinished_spec (steps : list Step) :
  Forall unfinished steps ->
  printed steps = [] /\ (Closed ∉ steps) /\ (Wrote QUIT ∉ steps).
Proof.
  induction 1 as [|s steps Hs _ (IHp & IHc & IHq)].
  - split_and!; [done|apply not_elem_of_nil|apply not_elem_of_nil].
  - split_and!.
    + by destruct s.
    + apply not_elem_of_cons. split; [by destruct s|done].
    + apply not_elem_of_cons. split; [|done]. intros <-. by apply Hs.
Qed.

Lemma authenticateNNTP_steps {Conn Dialer : Type} (sys : Sys Conn Dialer)
    (conn : Conn) (username password : gostring) :
  exists err conn' sent,
    authenticateNNTP sys conn username password = (err, conn', sent) /\
    (sent = [Wrote (AUTHINFO_USER username)] /\ err <> None \/
     sent = [Wrote (AUTHINFO_USER username); Wrote (AUTHINFO_PASS password)]).
Proof.
  unfold authenticateNNTP.
  destruct (fresh_ReadString sys conn) as [[response|] conn1].
  2:{ eexists _, _, _. split; [done|]. by left. }
  destruct (negb _).
  { eexists _, _, _. split; [done|]. by left. }
  destruct (fresh_ReadString sys conn1) as [[response2|] conn2].
  2:{ eexists _, _, _. split; [done|]. by right. }
  destruct (negb _); eexists _, _, _; (split; [done|]); by right.
Qed.

Lemma authenticateNNTP_unfinished {Conn Dialer : Type} (sys : Sys Conn Dialer)
    (conn : Conn) (username password : gostring) :
  Forall unfinished (authenticateNNTP sys conn username password).2.
Proof.
  destruct (authenticateNNTP_steps sys conn username password)
    as (err & conn' & sent & -> & [[-> _]| ->]); simpl; by repeat constructor.
Qed.

Lemma before_first_write_Some (t evs : list Event) :
  before_first_write t = Some evs ->
  exists path data ok rest, t = evs ++ WriteFile path data ok :: rest.
Proof.
  revert evs. induction t as [|e t IH]; intros evs H; [done|].
  destruct e as [c|d|path data ok]; simpl in H.
  - destruct (before_first_write t) as [evs'|]; [|done]. injection H as <-.
    destruct (IH evs' eq_refl) as (path & data & ok & rest & ->). by eauto.
  - destruct (before_first_write t) as [evs'|]; [|done]. injection H as <-.
    destruct (IH evs' eq_refl) as (path & data & ok & rest & ->). by eauto.
  - injection H as <-. by eauto.
Qed.

Lemma before_first_write_plain (t : list Event) :
  forallb plain_event t = true -> before_first_write t = None.
Proof.
  induction t as [|e t IH]; [done|]. simpl. intros H.
  apply andb_true_iff in H as [He Ht].
  destruct e as [c|d|path data ok]; [| |done]; simpl; by rewrite (IH Ht).
Qed.

(** Without [-latest] a run only sends commands and warns about
    articles. *)
Lemma getRecentArticles_plain (E : Env) (group : gostring) (days : Z) (B : Z) (w : World) :
  exists evs,
    trace (snd (getRecentArticles E group days false B w)) = trace w ++ evs /\
    forallb plain_event evs = true.
Proof.
  destruct (getRecentArticles E group days false B w) as [res w'] eqn:H. simpl.
  destruct (selectGroup_shape group w) as (res1 & r & Hs & _).
  apply getRecentArticles_run in H
    as [(e & -> & Hsel)|(first & last & w1 & Hsel & [(saved & Hu & _)
       |(first' & diag & res0 & Hdiag & HR & ->)])]; [|done|];
    rewrite Hsel in Hs; injection Hs as <- ->.
  - by exists [Send (GROUP group)].
  - destruct Hdiag as [(_ & -> & _)|(saved & Hu & _)]; [|done].
    apply Rounds_plain in HR as (_ & _ & evs & Ht & Hpl). simpl in *.
    exists (Send (GROUP group) :: evs). rewrite Ht, app_nil_r, <- app_assoc. done.
Qed.

(** The commands of a run that is cut short are commands of rounds
    again. *)
Lemma round_commands_prefix (rs : list (Z * Z * list gostring)) (cmds : list Command) :
  cmds `prefix_of` flat_map round_commands rs ->
  exists rs', cmds = flat_map round_commands rs'.
Proof.
  revert cmds. induction rs as [|[[a b] nums] rs IH]; intros cmds [k Hk]; simpl in Hk.
  - symmetry in Hk. apply app_eq_nil in Hk as [-> _]. by exists [].
  - destruct cmds as [|c cmds]; [by exists []|].
    unfold round_commands in Hk. simpl in Hk. injection Hk as <- Hk.
    assert (Hcases : (exists n, cmds = ARTICLE <$> take n nums) \/
                     (exists cmds', cmds = (ARTICLE <$> nums) ++ cmds' /\
                                    cmds' `prefix_of` flat_map round_commands rs)).
    { clear IH. revert cmds Hk. induction nums as [|num nums IHn]; intros cmds Hk.
      - right. exists cmds. split; [done|]. by exists k.
      - destruct cmds as [|c cmds]; [left; by exists O|].
        simpl in Hk. injection Hk as <- Hk.
        destruct (IHn cmds Hk) as [[n ->]|(cmds' & -> & Hp)].
        + left. by exists (S n).
        + right. by exists cmds'. }
    destruct Hcases as [[n ->]|(cmds' & -> & Hp)].
    + exists [(a, b, take n nums)]. simpl. by rewrite app_nil_r.
    + destruct (IH cmds' Hp) as [rs' ->]. by exists ((a, b, nums) :: rs').
Qed.

Lemma sends_cut_short (group : gostring) (t evs rest : list Event)
    (rs : list (Z * Z * list gostring)) :
  t = evs ++ rest ->
  sends t = GROUP group :: flat_map round_commands rs ->
  sends evs = [] \/ exists rs', sends evs = GROUP group :: flat_map round_commands rs'.
Proof.
  intros -> H. rewrite sends_app in H.
  destruct (sends evs) as [|c cmds]; [by left|right].
  simpl in H. injection H as -> H.
  destruct (round_commands_prefix rs cmds) as [rs' ->]; [by exists (sends rest)|].
  by exists rs'.
Qed.

(** X11. After the flags are parsed, and as long as standard output
    and standard error take what is written to them, the program ends
    in one of three ways. With status 0: the articles have been
    printed, each delimited, then QUIT was sent and the connection
    closed, in this order and at the very end; no article at all is
    printed only under [-latest]. With status 1: the last thing it did
    was to write the message of the failure to standard error; nothing
    was printed, QUIT was not sent and the connection was not closed.
    With status 2, which takes [-latest] and a nil table after
    [loadState] (a state file that holds [null]): the assignment of the
    bookmark panicked; nothing was printed, QUIT was not sent, and the
    last things that happened are the deferred close of the connection
    and the report of the panic. *)
Theorem main_ends_clean_or_silent {Conn Dialer : Type} (sys : Sys Conn Dialer) (E : Env)
    (f : Flag.t) :
  exists code steps,
    main sys E f = Some (code, steps) /\
    (code = 0 /\
     (exists before articles,
        steps = before ++ (Printed <$> articles) ++ [Wrote QUIT; Closed] /\
        printed before = [] /\ (Closed ∉ before) /\ (Wrote QUIT ∉ before) /\
        Forall delimited articles /\
        (articles <> [] \/ Flag.latest f = true)) \/
     code = 1 /\
     (exists before m,
        steps = before ++ [Said m] /\ last_words m = true /\
        printed before = [] /\ (Closed ∉ before) /\ (Wrote QUIT ∉ before)) \/
     code = 2 /\ Flag.latest f = true /\
     (loadState sys E (Flag.group f) ∅).2 = None /\
     (exists before,
        steps = before ++ [Closed; Said NilMapPanic] /\
        printed before = [] /\ (Closed ∉ before) /\ (Wrote QUIT ∉ before))).
Proof.
  unfold main.
  destruct (loadState sys E (Flag.group f) ∅) as [loadErr table].
  set (steps0 := match loadErr with Some err => [Said (LoadWarning err)] | None => [] end).
  assert (H0 : Forall unfinished steps0)
    by (subst steps0; destruct loadErr; by repeat constructor).
  destruct (dialNNTP sys _ _ _ _) as [err|conn].
  { eexists 1, _. split; [done|]. right; left. split; [done|].
    exists steps0, (ConnectionFailed err). split; [done|]. split; [done|].
    by apply unfinished_spec. }
  destruct (conn_SetReadDeadline sys conn _) as [ok conn1].
  set (steps1 := steps0 ++ (if ok then [] else [Said TimeoutWarning])).
  assert (H1 : Forall unfinished steps1).
  { subst steps1. apply Forall_app. split; [done|]. destruct ok; by repeat constructor. }
  destruct (fresh_ReadString sys conn1) as [[greeting|] conn2].
  2:{ eexists 1, _. split; [done|]. right; left. split; [done|].
      exists steps1, GreetingFailed. split; [done|]. split; [done|].
      by apply unfinished_spec. }
  set (auth := if negb (bool_decide (Flag.username f = []))
               then authenticateNNTP sys conn2 (Flag.username f) (Flag.password f)
               else (None, conn2, [])).
  assert (Ha : Forall unfinished auth.2).
  { subst auth. destruct (negb _); [apply authenticateNNTP_unfinished|constructor]. }
  destruct auth as [[authErr conn3] sent]. simpl in Ha.
  assert (H2 : Forall unfinished (steps1 ++ sent)) by (apply Forall_app; by split).
  destruct authErr as [err|].
  { eexists 1, _. split; [done|]. right; left. split; [done|].
    exists (steps1 ++ sent), (AuthenticationFailed err). split; [done|]. split; [done|].
    by apply unfinished_spec. }
  match goal with |- context [getRecentArticles ?E0 ?g ?d ?l ?b ?w0] =>
    pose proof (getRecentArticles_plain E0 g d b w0) as Hplain;
    destruct (getRecentArticles_log E0 g d l b w0)
      as (res & w' & evs & rs & Hrun & Ht & _ & Hres)
  end.
  simpl in Ht. subst evs. rewrite Hrun.
  assert (H3 : Forall unfinished ((steps1 ++ sent) ++ (lift <$> trace w'))).
  { apply Forall_app. split; [done|apply lift_unfinished]. }
  assert (Hend : exists code steps,
            match res with
            | Ok articles =>
                Some (0, (steps1 ++ sent) ++ (lift <$> trace w') ++ (Printed <$> articles)
                            ++ [Wrote QUIT; Closed])
            | Err err =>
                Some (1, (steps1 ++ sent) ++ (lift <$> trace w') ++ [Said (FatalError err)])
            | Exhausted => None
            end = Some (code, steps) /\
            (code = 0 /\
             (exists before articles,
                steps = before ++ (Printed <$> articles) ++ [Wrote QUIT; Closed] /\
                printed before = [] /\ (Closed ∉ before) /\ (Wrote QUIT ∉ before) /\
                Forall delimited articles /\
                (articles <> [] \/ Flag.latest f = true)) \/
             code = 1 /\
             (exists before m,
                steps = before ++ [Said m] /\ last_words m = true /\
                printed before = [] /\ (Closed ∉ before) /\ (Wrote QUIT ∉ before)))).
  { destruct res as [articles|err|]; [| |done].
    - eexists 0, _. split; [done|]. left. split; [done|].
      exists ((steps1 ++ sent) ++ (lift <$> trace w')), articles.
      destruct Hres as [Hdel Hne].
      split; [by rewrite <- !app_assoc|].
      destruct (unfinished_spec _ H3) as (Hp & Hc & Hq). by split_and!.
    - eexists 1, _. split; [done|]. right. split; [done|].
      exists ((steps1 ++ sent) ++ (lift <$> trace w')), (FatalError err).
      split; [by rewrite <- !app_assoc|]. split; [done|]. by apply unfinished_spec. }
  destruct Hend as (code & steps & Hmain & Hcases).
  assert (Hweak : (code = 0 /\
             (exists before articles,
                steps = before ++ (Printed <$> articles) ++ [Wrote QUIT; Closed] /\
                printed before = [] /\ (Closed ∉ before) /\ (Wrote QUIT ∉ before) /\
                Forall delimited articles /\
                (articles <> [] \/ Flag.latest f = true)) \/
             code = 1 /\
             (exists before m,
                steps = before ++ [Said m] /\ last_words m = true /\
                printed before = [] /\ (Closed ∉ before) /\ (Wrote QUIT ∉ before)) \/
             code = 2 /\ Flag.latest f = true /\ (loadErr, table).2 = None /\
             (exists before,
                steps = before ++ [Closed; Said NilMapPanic] /\
                printed before = [] /\ (Closed ∉ before) /\ (Wrote QUIT ∉ before))))
    by (destruct Hcases as [?|?]; [by left|by right; left]).
  destruct table as [st|]; [by exists code, steps|].
  destruct (before_first_write (trace w')) as [evs|] eqn:Hbw; [|by exists code, steps].
  clear Hmain Hcases Hweak code steps.
  eexists 2, _. split; [done|]. right; right. split; [done|].
  destruct (before_first_write_Some _ _ Hbw) as (path & data & ok' & rest & Hsplit).
  split_and!; [|done|].
  - destruct (Flag.latest f) eqn:Hl; [done|].
    destruct Hplain as (evs' & Hev' & Hpl). rewrite Hrun in Hev'. simpl in Hev'.
    rewrite Hev' in Hbw. by rewrite (before_first_write_plain _ Hpl) in Hbw.
  - exists ((steps1 ++ sent) ++ (lift <$> evs)). split; [by rewrite <- !app_assoc|].
    apply unfinished_spec, Forall_app. split; [done|apply lift_unfinished].
Qed.

Lemma wrote_Printed (articles : list gostring) : wrote (Printed <$> articles) = [].
Proof. by induction articles. Qed.

(** X12. The bytes the program writes to the connection are, in order:
    the commands of the authentication, the commands of
    [getRecentArticles], and QUIT exactly when the status is 0. AUTHINFO
    is sent only for a user name that is not empty, AUTHINFO PASS only
    after AUTHINFO USER, and GROUP, the first command of
    [getRecentArticles], only when no user name was given or both
    AUTHINFO commands were sent. *)
Theorem main_commands {Conn Dialer : Type} (sys : Sys Conn Dialer) (E : Env) (f : Flag.t) :
  exists code steps auth cmds,
    main sys E f = Some (code, steps) /\
    wrote steps
    = auth ++ (wire <$> cmds) ++ (if bool_decide (code = 0) then [QUIT] else []) /\
    (auth = [] /\ (Flag.username f = [] \/ cmds = []) \/
     auth = [AUTHINFO_USER (Flag.username f)] /\ cmds = [] /\ code = 1 \/
     auth = [AUTHINFO_USER (Flag.username f); AUTHINFO_PASS (Flag.password f)]) /\
    (auth = [] \/ Flag.username f <> []) /\
    (cmds = [] \/ exists rs, cmds = GROUP (Flag.group f) :: flat_map round_commands rs).
Proof.
  unfold main.
  destruct (loadState sys E (Flag.group f) ∅) as [loadErr table].
  set (steps0 := match loadErr with Some err => [Said (LoadWarning err)] | None => [] end).
  assert (H0 : wrote steps0 = []) by (subst steps0; by destruct loadErr).
  destruct (dialNNTP sys _ _ _ _) as [err|conn].
  { eexists 1, _, [], []. split; [done|]. rewrite wrote_app, H0. simpl.
    split_and!; [done|left; split; [done|by right]|by left|by left]. }
  destruct (conn_SetReadDeadline sys conn _) as [ok conn1].
  set (steps1 := steps0 ++ (if ok then [] else [Said TimeoutWarning])).
  assert (H1 : wrote steps1 = []).
  { subst steps1. rewrite wrote_app, H0. by destruct ok. }
  destruct (fresh_ReadString sys conn1) as [[greeting|] conn2].
  2:{ eexists 1, _, [], []. split; [done|]. rewrite wrote_app, H1. simpl.
      split_and!; [done|left; split; [done|by right]|by left|by left]. }
  (* the commands of the authentication *)
  set (authn := if negb (bool_decide (Flag.username f = []))
                then authenticateNNTP sys conn2 (Flag.username f) (Flag.password f)
                else (None, conn2, [])).
  assert (Hauth : exists auth,
            wrote authn.2 = auth /\
            (auth = [] /\ Flag.username f = [] /\ authn.1.1 = None \/
             auth = [AUTHINFO_USER (Flag.username f)] /\ Flag.username f <> [] /\
             authn.1.1 <> None \/
             auth = [AUTHINFO_USER (Flag.username f); AUTHINFO_PASS (Flag.password f)] /\
             Flag.username f <> [])).
  { subst authn. destruct (bool_decide (Flag.username f = [])) eqn:Hu; simpl.
    - apply bool_decide_eq_true in Hu. exists []. split; [done|]. by left.
    - apply bool_decide_eq_false in Hu.
      destruct (authenticateNNTP_steps sys conn2 (Flag.username f) (Flag.password f))
        as (authErr & conn3 & sent & -> & [[-> Hne]| ->]); simpl.
      + eexists. split; [done|]. right; left. by split_and!.
      + eexists. split; [done|]. right; right. by split. }
  destruct authn as [[authErr conn3] sent]. simpl in Hauth.
  destruct Hauth as (auth & Hw & Hauth).
  destruct authErr as [err|].
  { exists 1, (((steps1 ++ sent) ++ [Said (AuthenticationFailed err)])), auth, [].
    split; [done|]. rewrite !wrote_app, H1, Hw. simpl. rewrite app_nil_r.
    split_and!; [done| |by destruct Hauth as [(-> & _)|[(_ & ? & _)|(_ & ?)]]; [left|right|right]
                |by left].
    destruct Hauth as [(_ & _ & ?)|[(-> & _)|(-> & _)]]; [done|right; by left|right; by right]. }
  match goal with |- context [getRecentArticles ?E0 ?g ?d ?l ?b ?w0] =>
    destruct (getRecentArticles_log E0 g d l b w0)
      as (res & w' & evs & rs & -> & Ht & Hsends & Hres)
  end.
  simpl in Ht. subst evs.
  assert (Hshape : auth = [] /\ (Flag.username f = [] \/ sends (trace w') = []) \/
                   auth = [AUTHINFO_USER (Flag.username f)] /\ False \/
                   auth = [AUTHINFO_USER (Flag.username f); AUTHINFO_PASS (Flag.password f)]).
  { destruct Hauth as [(-> & Hu & _)|[(_ & _ & Hne)|(-> & _)]];
      [left; split; [done|by left]|done|by right; right]. }
  assert (Hname : auth = [] \/ Flag.username f <> [])
    by (destruct Hauth as [(-> & _)|[(_ & ? & _)|(_ & ?)]]; [by left|by right|by right]).
  assert (Hend : exists code steps cmds,
            match res with
            | Ok articles =>
                Some (0, (steps1 ++ sent) ++ (lift <$> trace w') ++ (Printed <$> articles)
                            ++ [Wrote QUIT; Closed])
            | Err err =>
                Some (1, (steps1 ++ sent) ++ (lift <$> trace w') ++ [Said (FatalError err)])
            | Exhausted => None
            end = Some (code, steps) /\
            wrote steps
            = auth ++ (wire <$> cmds) ++ (if bool_decide (code = 0) then [QUIT] else []) /\
            cmds = sends (trace w')).
  { destruct res as [articles|err|]; [| |done].
    - eexists 0, _, (sends (trace w')). split; [done|]. split; [|done].
      by rewrite !wrote_app, H1, Hw, wrote_lift, wrote_Printed.
    - eexists 1, _, (sends (trace w')). split; [done|]. split; [|done].
      rewrite !wrote_app, H1, Hw, wrote_lift. simpl. by rewrite app_nil_r. }
  destruct Hend as (code & steps & cmds & Hmain & Hwrote & ->).
  assert (Hnormal : exists code steps auth cmds,
            match res with
            | Ok articles =>
                Some (0, (steps1 ++ sent) ++ (lift <$> trace w') ++ (Printed <$> articles)
                            ++ [Wrote QUIT; Closed])
            | Err err =>
                Some (1, (steps1 ++ sent) ++ (lift <$> trace w') ++ [Said (FatalError err)])
            | Exhausted => None
            end = Some (code, steps) /\
            wrote steps
            = auth ++ (wire <$> cmds) ++ (if bool_decide (code = 0) then [QUIT] else []) /\
            (auth = [] /\ (Flag.username f = [] \/ cmds = []) \/
             auth = [AUTHINFO_USER (Flag.username f)] /\ cmds = [] /\ code = 1 \/
             auth = [AUTHINFO_USER (Flag.username f); AUTHINFO_PASS (Flag.password f)]) /\
            (auth = [] \/ Flag.username f <> []) /\
            (cmds = [] \/
             exists rs, cmds = GROUP (Flag.group f) :: flat_map round_commands rs)).
  { exists code, steps, auth, (sends (trace w')). split_and!; try done.
    - destruct Hshape as [?|[[_ []]|?]]; [by left|by right; right].
    - right. by exists rs. }
  destruct table as [st|]; [exact Hnormal|].
  destruct (before_first_write (trace w')) as [evs|] eqn:Hbw; [|exact Hnormal].
  clear Hnormal Hmain Hwrote code steps.
  destruct (before_first_write_Some _ _ Hbw) as (path & data & ok' & rest & Hsplit).
  exists 2, ((steps1 ++ sent) ++ (lift <$> evs) ++ [Closed; Said NilMapPanic]),
         auth, (sends evs).
  split; [done|].
  split; [by rewrite !wrote_app, H1, Hw, wrote_lift|].
  destruct (sends_cut_short (Flag.group f) _ _ _ rs Hsplit Hsends) as [Hnil|[rs' Hrs']].
  - rewrite Hnil. split_and!; [|done|by left].
    destruct Hshape as [[-> _]|[[_ []]|?]]; [left; split; [done|by right]|by right; right].
  - split_and!; [|done|right; by exists rs'].
    destruct Hshape as [[-> [Hu|Hs]]|[[_ []]|?]];
      [left; split; [done|by left]| |by right; right].
    rewrite Hsplit, sends_app, Hrs' in Hs. done.
Qed.

(** ** The program on examples *)

(** A server that asks for the password and sends both articles; one
    that accepts the user name at once, which the program takes for a
    failure; the flags at their defaults, where the age filter of one
    day drops both lines of the listing; and a state file that holds
    [null] under [-latest], where the program fetches the articles of
    the first batch and panics at the bookmark. *)
Example main_examples :
  let f := {| Flag.server := lit "news"; Flag.port := 119;
              Flag.group := lit "g"; Flag.days := 0;
              Flag.username := lit "u"; Flag.password := lit "p";
              Flag.useTLS := false; Flag.proxyAddr := [];
              Flag.latest := false; Flag.maxBatchSize := 500;
              Flag.readTimeout := 1200 |} in
  let f' := {| Flag.server := lit "news"; Flag.port := 119;
               Flag.group := lit "g"; Flag.days := 0;
               Flag.username := []; Flag.password := [];
               Flag.useTLS := false; Flag.proxyAddr := [];
               Flag.latest := true; Flag.maxBatchSize := 500;
               Flag.readTimeout := 1200 |} in
  let run1 := main (line_by_line (crlf "200 ready" ++ crlf "381 more" ++ crlf "281 ok"
                                  ++ session)) example_env f in
  let run2 := main (line_by_line (crlf "200 ready" ++ crlf "281 ok" ++ session))
                   example_env f in
  let run3 := main (line_by_line (crlf "200 ready" ++ session)) example_env defaults in
  let run4 := main (with_null_state (line_by_line (crlf "200 ready" ++ session)))
                   example_env f' in
  (fst <$> run1 = Some 0 /\
   (wrote ∘ snd) <$> run1
   = Some [crlf "AUTHINFO USER u"; crlf "AUTHINFO PASS p"; crlf "GROUP g";
           crlf "XOVER 1-2"; crlf "ARTICLE 1"; crlf "ARTICLE 2"; crlf "QUIT"] /\
   (length ∘ printed ∘ snd) <$> run1 = Some 2%nat) /\
  (fst <$> run2 = Some 1 /\
   (wrote ∘ snd) <$> run2 = Some [crlf "AUTHINFO USER u"]) /\
  (snd <$> run3
   = Some [Wrote (crlf "GROUP alt.anonymous.messages"); Wrote (crlf "XOVER 1-2");
           Said (FatalError NoArticlesFound)]) /\
  (run4
   = Some (2, [Wrote (crlf "GROUP g"); Wrote (crlf "XOVER 1-2");
               Wrote (crlf "ARTICLE 1"); Wrote (crlf "ARTICLE 2");
               Closed; Said NilMapPanic])).
Proof. vm_compute. by split_and!. Qed.
